(** * Portfolio mode (multi-cluster LED matrix visualisation)

    A shallow embedding of [src/display/sketch/portfolio_mode.cpp] and
    [portfolio_mode.h], and the properties of its configuration loader,
    neighbour scorer, cohesion engine and frame scheduler.

    Conventions of the embedding.
    - A C string ([const char*]) is the [string] of the bytes before its
      terminating NUL; a pointer into it is the suffix it points at.
    - [int] and [long] are 32 bits wide on the board this sketch targets, and
      [unsigned long] arithmetic wraps modulo [2^32]; [uint8_t] values are
      integers below 256 and a conversion to [uint8_t] keeps the low 8 bits.
    - The global arrays are lists of their declared length; an access outside
      the declared bounds (undefined behaviour in C) is a [Fault] that names
      the array and the offending index.
    - [millis()] is the [currentTime] argument of the update step, and the
      pseudo-random generator is a stream of raw draws together with a cursor
      that every call of [random] advances. *)

From Stdlib Require Import ZArith List String Ascii Bool Lia Permutation.
From stdpp Require Import base list.
Import ListNotations.

Local Open Scope Z_scope.

(** ** Constants of [portfolio_mode.h] and [portfolio_mode.cpp] *)

Definition MAX_CLUSTERS : Z := 6.
Definition MATRIX_WIDTH : Z := 13.
Definition MATRIX_HEIGHT : Z := 8.
Definition TOTAL_PIXELS : Z := 104.

Definition INT_MAX : Z := 2147483647.
Definition INT_MIN : Z := -2147483648.
Definition ULONG_MODULUS : Z := 2 ^ 32.

(** ** The C library and Arduino core functions the sketch calls *)

Module CLib.

Definition dquote : ascii := ascii_of_nat 34.

(** [strchr s c]: the suffix of [s] that starts at the first [c]. *)
Fixpoint strchr (s : string) (c : ascii) : option string :=
  match s with
  | EmptyString => None
  | String a rest => if Ascii.eqb a c then Some s else strchr rest c
  end.

(** [strstr s needle]: the suffix of [s] that starts at the first
    occurrence of [needle]. *)
Fixpoint strstr (s needle : string) : option string :=
  if String.prefix needle s then Some s
  else match s with
       | EmptyString => None
       | String _ rest => strstr rest needle
       end.

Definition strlen (s : string) : Z := Z.of_nat (String.length s).

(** [p + n] on a pointer into a string. *)
Fixpoint advance (n : nat) (s : string) : string :=
  match n, s with
  | O, _ => s
  | S n', String _ rest => advance n' rest
  | S _, EmptyString => EmptyString
  end.

(** The first [n] bytes at a pointer ([strncpy] followed by the write of
    the terminator, for [n] at most the length of the source). *)
Fixpoint copy_prefix (n : nat) (s : string) : string :=
  match n, s with
  | S n', String a rest => String a (copy_prefix n' rest)
  | _, _ => EmptyString
  end.

Definition isspace (c : ascii) : bool :=
  let n := nat_of_ascii c in
  Nat.eqb n 32 || (Nat.leb 9 n && Nat.leb n 13).

Definition digit_value (c : ascii) : option Z :=
  let n := nat_of_ascii c in
  if Nat.leb 48 n && Nat.leb n 57 then Some (Z.of_nat n - 48) else None.

Fixpoint skip_while (p : ascii -> bool) (s : string) : string :=
  match s with
  | String a rest => if p a then skip_while p rest else s
  | EmptyString => s
  end.

Fixpoint read_digits (s : string) (acc : Z) : Z :=
  match s with
  | String a rest =>
      match digit_value a with
      | Some d => read_digits rest (10 * acc + d)
      | None => acc
      end
  | EmptyString => acc
  end.

(** [atoi] is [(int) strtol (s, NULL, 10)]: leading white space, an
    optional sign, the longest run of decimal digits, and a value outside
    the range of [long] saturates. *)
Definition saturate (v : Z) : Z := Z.max INT_MIN (Z.min INT_MAX v).

Definition atoi (s : string) : Z :=
  match skip_while isspace s with
  | String "-" rest => saturate (- read_digits rest 0)
  | String "+" rest => saturate (read_digits rest 0)
  | t => saturate (read_digits t 0)
  end.

(** The Arduino macro
    [constrain(amt,low,high) ((amt)<(low)?(low):((amt)>(high)?(high):(amt)))]. *)
Definition constrain (amt low high : Z) : Z :=
  if amt <? low then low else if amt >? high then high else amt.

(** Conversion of an [int] to [uint8_t]. *)
Definition to_uint8 (v : Z) : Z := v mod 256.

(** The Arduino core's [long random(long howbig)]:
    [if (howbig == 0) return 0; return random() % howbig;] where the raw
    draw [random()] is not negative. *)
Definition random (raw : N) (howbig : Z) : Z :=
  if howbig =? 0 then 0 else Z.rem (Z.of_N raw) howbig.

End CLib.

Import CLib.

(** ** Data model *)

(** [struct ClusterData]. *)
Record ClusterData := mkCluster {
  clusterID : Z;
  pixels : Z;
  brightness : Z;
  clustering : Z;
  speed : Z;
  symbol : string
}.

Abbreviation Grid := (list (list Z)).

(** The globals of the sketch, [pixelIndices] being the array the main
    sketch owns and this file declares [extern]. *)
Record State := mkState {
  inPortfolioMode : bool;
  clusters : list ClusterData;
  numClusters : Z;
  pixelClusterID : Grid;
  pixelIndices : list Z;
  lastUpdateTime : list Z
}.

Inductive fault :=
| PixelIndexOutOfRange (idx : Z)
| GridOutOfRange (y x : Z)
| ClusterOutOfRange (c : Z).

Inductive result (A : Type) :=
| Ok (a : A)
| Fault (f : fault).
Arguments Ok {A} a.
Arguments Fault {A} f.

Definition bind {A B} (r : result A) (k : A -> result B) : result B :=
  match r with
  | Ok a => k a
  | Fault f => Fault f
  end.

Notation "'do' x <- r ; k" := (bind r (fun x => k))
  (at level 10, x name, r at level 100, k at level 200).

(** ** The descriptor scanner *)

(** [snprintf(searchStr, sizeof(searchStr), fmt, key)] into [char[32]]. *)
Definition searchStr_int (key : string) : string :=
  copy_prefix 31 (String dquote key ++ String dquote ":").

Definition searchStr_string (key : string) : string :=
  copy_prefix 31 (String dquote key ++ String dquote (String ":" (String dquote EmptyString))).

Definition is_blank (c : ascii) : bool := Ascii.eqb c " ".

Definition extractInt (json key : string) : Z :=
  let searchStr := searchStr_int key in
  match strstr json searchStr with
  | Some pos =>
      let pos := advance (String.length searchStr) pos in
      atoi (skip_while is_blank pos)
  | None => 0
  end.

(** The copy loop of [extractString]: at most [room] bytes, up to the
    closing quote or the end of the input. *)
Fixpoint copy_until_quote (room : nat) (pos : string) : string :=
  match room, pos with
  | S room', String a rest =>
      if Ascii.eqb a dquote then EmptyString
      else String a (copy_until_quote room' rest)
  | _, _ => EmptyString
  end.

Definition extractString (json key : string) (maxLen : Z) : string :=
  let searchStr := searchStr_string key in
  match strstr json searchStr with
  | Some pos =>
      let pos := advance (String.length searchStr) pos in
      copy_until_quote (Z.to_nat (maxLen - 1)) pos
  | None => EmptyString
  end.

(** The body of the scanning loop from "Parse cluster fields" to
    "Constrain values". *)
Definition parseCluster (objBuf : string) : ClusterData :=
  let cid := extractInt objBuf "cluster_id" in
  let px := extractInt objBuf "pixels" in
  let br := to_uint8 (extractInt objBuf "brightness") in
  let cl := extractInt objBuf "clustering" in
  let sp := extractInt objBuf "speed" in
  let sym := extractString objBuf "symbol" 10 in
  {| clusterID := cid;
     pixels := constrain px 0 TOTAL_PIXELS;
     brightness := constrain br 80 220;
     clustering := constrain cl 1 10;
     speed := constrain sp 10 500;
     symbol := sym |}.

Definition set_numClusters (n : Z) (st : State) : State :=
  {| inPortfolioMode := inPortfolioMode st; clusters := clusters st;
     numClusters := n; pixelClusterID := pixelClusterID st;
     pixelIndices := pixelIndices st; lastUpdateTime := lastUpdateTime st |}.

Definition store_cluster (cl : ClusterData) (st : State) : State :=
  {| inPortfolioMode := inPortfolioMode st;
     clusters := <[Z.to_nat (numClusters st) := cl]> (clusters st);
     numClusters := numClusters st + 1; pixelClusterID := pixelClusterID st;
     pixelIndices := pixelIndices st; lastUpdateTime := lastUpdateTime st |}.

(** [while (numClusters < MAX_CLUSTERS)]: the loop runs [slots] more times
    at most, [slots] being [MAX_CLUSTERS - numClusters]. *)
Fixpoint parseLoop (slots : nat) (pos : string) (st : State) : State :=
  match slots with
  | O => st
  | S slots' =>
      match strchr pos "{" with
      | None => st
      | Some objStart =>
          match strchr objStart "}" with
          | None => st
          | Some objEnd =>
              let objLen := strlen objStart - strlen objEnd + 1 in
              if 256 <=? objLen then st
              else
                let objBuf := copy_prefix (Z.to_nat objLen) objStart in
                parseLoop slots' (advance 1 objEnd)
                          (store_cluster (parseCluster objBuf) st)
          end
      end
  end.

Definition parseClusterData (json : string) (st : State) : State :=
  let st := set_numClusters 0 st in
  match strchr json "[" with
  | None => st
  | Some pos => parseLoop (Z.to_nat MAX_CLUSTERS) (advance 1 pos) st
  end.

(** Test inputs are written with ['] for the double quote. *)
Fixpoint json_of (s : string) : string :=
  match s with
  | EmptyString => EmptyString
  | String a rest =>
      String (if Ascii.eqb a "'" then dquote else a) (json_of rest)
  end.

Definition blank_cluster : ClusterData :=
  {| clusterID := 0; pixels := 0; brightness := 0; clustering := 0;
     speed := 0; symbol := EmptyString |}.

Definition identity_order : list Z := map Z.of_nat (seq 0 104).

(** The state of the globals at start-up, with the pixel ordering the main
    sketch starts from. *)
Definition initial_state : State :=
  {| inPortfolioMode := false;
     clusters := replicate 6 blank_cluster;
     numClusters := 0;
     pixelClusterID := replicate 8 (replicate 13 0);
     pixelIndices := identity_order;
     lastUpdateTime := replicate 6 0 |}.

Definition sample_json : string :=
  json_of "[{'cluster_id':1,'pixels':20,'brightness':180,'clustering':3,'speed':100,'symbol':'AAPL'}, {'cluster_id': 2, 'pixels': 300,'brightness':-7,'clustering':0,'speed':9999,'symbol':'MICROSOFTCORP'}]".


(** ** The assignment grid and the pixel ordering as arrays *)

Definition in_grid (y x : Z) : bool :=
  (0 <=? x) && (x <? MATRIX_WIDTH) && (0 <=? y) && (y <? MATRIX_HEIGHT).

Definition grid_get (g : Grid) (y x : Z) : option Z :=
  if in_grid y x then
    match g !! Z.to_nat y with
    | Some row => row !! Z.to_nat x
    | None => None
    end
  else None.

(** [pixelClusterID[y][x]] at a coordinate the code has checked. *)
Definition cell (g : Grid) (y x : Z) : Z := default 0 (grid_get g y x).

Definition grid_set (g : Grid) (y x v : Z) : Grid :=
  alter (fun row => <[Z.to_nat x := v]> row) (Z.to_nat y) g.

Definition grid_read (g : Grid) (y x : Z) : result Z :=
  match grid_get g y x with
  | Some v => Ok v
  | None => Fault (GridOutOfRange y x)
  end.

Definition grid_write (g : Grid) (y x v : Z) : result Grid :=
  if in_grid y x then Ok (grid_set g y x v) else Fault (GridOutOfRange y x).

Definition order_read (order : list Z) (idx : Z) : result Z :=
  if (0 <=? idx) && (idx <? TOTAL_PIXELS) then
    match order !! Z.to_nat idx with
    | Some pos => Ok pos
    | None => Fault (PixelIndexOutOfRange idx)
    end
  else Fault (PixelIndexOutOfRange idx).

Definition order_write (order : list Z) (idx v : Z) : result (list Z) :=
  if (0 <=? idx) && (idx <? TOTAL_PIXELS) then Ok (<[Z.to_nat idx := v]> order)
  else Fault (PixelIndexOutOfRange idx).

Definition cluster_read (cs : list ClusterData) (c : Z) : result ClusterData :=
  match (if 0 <=? c then cs !! Z.to_nat c else None) with
  | Some cl => Ok cl
  | None => Fault (ClusterOutOfRange c)
  end.

(** [for (int i = from; i < from + n; i++) s = body(i, s);] *)
Fixpoint for_loop {S : Type} (n : nat) (i : Z) (body : Z -> S -> result S)
    (s : S) : result S :=
  match n with
  | O => Ok s
  | S n' => do s' <- body i s; for_loop n' (i + 1) body s'
  end.

(** ** setPortfolioMode *)

Definition empty_grid : Grid :=
  replicate (Z.to_nat MATRIX_HEIGHT) (replicate (Z.to_nat MATRIX_WIDTH) 0).

(** The inner loop [for (p = 0; p < clusterPixels && pixelIdx < TOTAL_PIXELS; p++)],
    [n] being the iterations [p] still allows. *)
Fixpoint assignPixels (n : nat) (cid : Z) (order : list Z) (g : Grid)
    (pixelIdx : Z) : result (Grid * Z) :=
  match n with
  | O => Ok (g, pixelIdx)
  | S n' =>
      if pixelIdx <? TOTAL_PIXELS then
        do pos <- order_read order pixelIdx;
        let x := pos mod MATRIX_WIDTH in
        let y := pos / MATRIX_WIDTH in
        do g' <- grid_write g y x (to_uint8 cid);
        assignPixels n' cid order g' (pixelIdx + 1)
      else Ok (g, pixelIdx)
  end.

Definition assignCluster (cs : list ClusterData) (order : list Z) (c : Z)
    (acc : Grid * Z) : result (Grid * Z) :=
  do cl <- cluster_read cs c;
  assignPixels (Z.to_nat (pixels cl)) (clusterID cl) order (fst acc) (snd acc).

Definition resetTimers (timers : list Z) : list Z :=
  foldl (fun l i => <[i := 0]> l) timers (seq 0 (Z.to_nat MAX_CLUSTERS)).

Definition setPortfolioMode (clustersJSON : string) (st : State) : result State :=
  let st := parseClusterData clustersJSON st in
  if numClusters st =? 0 then
    Ok {| inPortfolioMode := false; clusters := clusters st;
          numClusters := numClusters st; pixelClusterID := pixelClusterID st;
          pixelIndices := pixelIndices st; lastUpdateTime := lastUpdateTime st |}
  else
    do gp <- for_loop (Z.to_nat (numClusters st)) 0
               (assignCluster (clusters st) (pixelIndices st)) (empty_grid, 0);
    Ok {| inPortfolioMode := true; clusters := clusters st;
          numClusters := numClusters st; pixelClusterID := fst gp;
          pixelIndices := pixelIndices st;
          lastUpdateTime := resetTimers (lastUpdateTime st) |}.

(** ** Neighbour scorer *)

Definition offsets : list Z := [-1; 0; 1].

Definition countClusterNeighbors (g : Grid) (x y targetClusterID : Z) : Z :=
  foldl (fun count dy =>
    foldl (fun count dx =>
      if (dx =? 0) && (dy =? 0) then count
      else
        let nx := x + dx in
        let ny := y + dy in
        if (0 <=? nx) && (nx <? MATRIX_WIDTH) && (0 <=? ny) && (ny <? MATRIX_HEIGHT)
        then if cell g ny nx =? targetClusterID then count + 1 else count
        else count) count offsets) 0 offsets.

Definition countOtherClusterNeighbors (g : Grid) (x y ownClusterID : Z) : Z :=
  foldl (fun count dy =>
    foldl (fun count dx =>
      if (dx =? 0) && (dy =? 0) then count
      else
        let nx := x + dx in
        let ny := y + dy in
        if (0 <=? nx) && (nx <? MATRIX_WIDTH) && (0 <=? ny) && (ny <? MATRIX_HEIGHT)
        then if negb (cell g ny nx =? 0) && negb (cell g ny nx =? ownClusterID)
             then count + 1 else count
        else count) count offsets) 0 offsets.

(** ** updatePortfolioPattern *)

Definition Rng := nat -> N.

(** The score both sampling loops compute for the pixel at logical index
    [idx], whose physical position is [pos]. *)
Definition scoreAt (g : Grid) (cid pos : Z) : Z :=
  let x := pos mod MATRIX_WIDTH in
  let y := pos / MATRIX_WIDTH in
  let sameNeighbors := countClusterNeighbors g x y cid in
  let otherNeighbors := countOtherClusterNeighbors g x y cid in
  sameNeighbors - otherNeighbors.

(** What a sampling loop carries: the best index, its score, and the cursor
    of the random stream. *)
Definition Pick := (Z * Z * nat)%type.

(** Body of "Sample clustering_strength candidates to find most isolated
    pixel". *)
Definition isolatedBody (rng : Rng) (st : State) (cluster : ClusterData)
    (pixelOffset : Z) (i : Z) (acc : Pick) : result Pick :=
  let '(bestIsolatedIdx, worstScore, k) := acc in
  let idx := pixelOffset + random (rng k) (pixels cluster) in
  do pos <- order_read (pixelIndices st) idx;
  let score := scoreAt (pixelClusterID st) (clusterID cluster) pos in
  if score >? worstScore then Ok (idx, score, S k)
  else Ok (bestIsolatedIdx, worstScore, S k).

(** Body of "Find best target position". *)
Definition targetBody (rng : Rng) (st : State) (cluster : ClusterData)
    (pixelOffset : Z) (i : Z) (acc : Pick) : result Pick :=
  let '(bestTargetIdx, bestScore, k) := acc in
  let idx := pixelOffset + random (rng k) (pixels cluster) in
  do pos <- order_read (pixelIndices st) idx;
  let score := scoreAt (pixelClusterID st) (clusterID cluster) pos in
  if score >? bestScore then Ok (idx, score, S k)
  else Ok (bestTargetIdx, bestScore, S k).

Definition findIsolated (rng : Rng) (st : State) (cluster : ClusterData)
    (pixelOffset : Z) (k : nat) : result Pick :=
  let bestIsolatedIdx := pixelOffset + random (rng k) (pixels cluster) in
  let worstScore := -100 in
  for_loop (Z.to_nat (clustering cluster)) 0
    (isolatedBody rng st cluster pixelOffset) (bestIsolatedIdx, worstScore, S k).

Definition findTarget (rng : Rng) (st : State) (cluster : ClusterData)
    (pixelOffset : Z) (k : nat) : result Pick :=
  let bestTargetIdx := pixelOffset + random (rng k) (pixels cluster) in
  let bestScore := -100 in
  for_loop (Z.to_nat (clustering cluster)) 0
    (targetBody rng st cluster pixelOffset) (bestTargetIdx, bestScore, S k).

(** "Swap isolated pixel with better-clustered position" and "Swap cluster
    IDs". *)
Definition swapPixels (st : State) (bestIsolatedIdx bestTargetIdx : Z) : result State :=
  let order := pixelIndices st in
  do temp <- order_read order bestIsolatedIdx;
  do other <- order_read order bestTargetIdx;
  do order1 <- order_write order bestIsolatedIdx other;
  do order2 <- order_write order1 bestTargetIdx temp;
  do pos1 <- order_read order2 bestIsolatedIdx;
  do pos2 <- order_read order2 bestTargetIdx;
  let x1 := pos1 mod MATRIX_WIDTH in
  let y1 := pos1 / MATRIX_WIDTH in
  let x2 := pos2 mod MATRIX_WIDTH in
  let y2 := pos2 / MATRIX_WIDTH in
  let g := pixelClusterID st in
  do tempID <- grid_read g y1 x1;
  do otherID <- grid_read g y2 x2;
  do g1 <- grid_write g y1 x1 otherID;
  do g2 <- grid_write g1 y2 x2 tempID;
  Ok {| inPortfolioMode := inPortfolioMode st; clusters := clusters st;
        numClusters := numClusters st; pixelClusterID := g2;
        pixelIndices := order2; lastUpdateTime := lastUpdateTime st |}.

Definition set_lastUpdateTime (c t : Z) (st : State) : State :=
  {| inPortfolioMode := inPortfolioMode st; clusters := clusters st;
     numClusters := numClusters st; pixelClusterID := pixelClusterID st;
     pixelIndices := pixelIndices st;
     lastUpdateTime := <[Z.to_nat c := t]> (lastUpdateTime st) |}.

(** [currentTime - lastUpdateTime[c] < (unsigned long)cluster.speed]. *)
Definition notDue (currentTime last : Z) (cluster : ClusterData) : bool :=
  (currentTime - last) mod ULONG_MODULUS <? speed cluster mod ULONG_MODULUS.

(** What the cluster loop carries: the globals, [pixelOffset], and the
    cursor of the random stream. *)
Definition Frame := (State * Z * nat)%type.

Definition clusterStep (rng : Rng) (currentTime : Z) (c : Z) (acc : Frame)
    : result Frame :=
  let '(st, pixelOffset, k) := acc in
  do cluster <- cluster_read (clusters st) c;
  match lastUpdateTime st !! Z.to_nat c with
  | None => Fault (ClusterOutOfRange c)
  | Some last =>
      if notDue currentTime last cluster then
        Ok (st, pixelOffset + pixels cluster, k)
      else
        let st := set_lastUpdateTime c currentTime st in
        if pixels cluster =? 0 then Ok (st, pixelOffset, k)
        else
          do isolated <- findIsolated rng st cluster pixelOffset k;
          let '(bestIsolatedIdx, _, k1) := isolated in
          do target <- findTarget rng st cluster pixelOffset k1;
          let '(bestTargetIdx, _, k2) := target in
          if negb (bestIsolatedIdx =? bestTargetIdx) then
            do st' <- swapPixels st bestIsolatedIdx bestTargetIdx;
            Ok (st', pixelOffset + pixels cluster, k2)
          else Ok (st, pixelOffset + pixels cluster, k2)
  end.

(** One call of [updatePortfolioPattern] at time [currentTime], the random
    stream being at cursor [k]; the result is the new globals and cursor. *)
Definition updatePortfolioPattern (rng : Rng) (currentTime : Z) (st : State)
    (k : nat) : result (State * nat) :=
  do fr <- for_loop (Z.to_nat (numClusters st)) 0 (clusterStep rng currentTime)
             (st, 0, k);
  Ok (fst (fst fr), snd fr).


(** ** Properties of the neighbour scorer *)

Module Scorer.

(** The eight coordinates (row, column) around [(x, y)], in the order the
    two loops visit them. *)
Definition surrounding (x y : Z) : list (Z * Z) :=
  [(y + -1, x + -1); (y + -1, x + 0); (y + -1, x + 1);
   (y + 0, x + -1); (y + 0, x + 1);
   (y + 1, x + -1); (y + 1, x + 0); (y + 1, x + 1)].

(** Those of them that are cells of the matrix. *)
Definition gridNeighbors (x y : Z) : list (Z * Z) :=
  filter (fun p => in_grid (fst p) (snd p) = true) (surrounding x y).

Definition isSame (g : Grid) (id : Z) (p : Z * Z) : bool :=
  cell g (fst p) (snd p) =? id.

Definition isOther (g : Grid) (id : Z) (p : Z * Z) : bool :=
  negb (cell g (fst p) (snd p) =? 0) && negb (cell g (fst p) (snd p) =? id).

Definition is_corner (x y : Z) : Prop := (x = 0 \/ x = 12) /\ (y = 0 \/ y = 7).
Definition is_edge (x y : Z) : Prop :=
  ((x = 0 \/ x = 12) /\ 0 < y < 7) \/ (0 < x < 12 /\ (y = 0 \/ y = 7)).
Definition is_interior (x y : Z) : Prop := 0 < x < 12 /\ 0 < y < 7.

(** Number of elements of [l] that satisfy [p]. *)
Fixpoint tally {A} (p : A -> bool) (l : list A) : Z :=
  match l with
  | [] => 0
  | a :: l' => (if p a then 1 else 0) + tally p l'
  end.

Lemma tally_bounds {A} (p : A -> bool) l :
  0 <= tally p l <= Z.of_nat (length l).
Proof.
  induction l as [|a l IH]; cbn [tally length]; [lia|].
  destruct (p a); lia.
Qed.

Lemma tally_filter {A} (p q : A -> bool) l :
  tally p (filter (fun a => q a = true) l) = tally (fun a => q a && p a) l.
Proof.
  induction l as [|a l IH]; [reflexivity|].
  rewrite filter_cons. cbn [tally].
  destruct (decide (q a = true)) as [Hq|Hq].
  - cbn [tally]. rewrite Hq, IH. reflexivity.
  - apply not_true_is_false in Hq. rewrite Hq, IH. reflexivity.
Qed.

Lemma visit_step (skip inb hit : bool) (count : Z) :
  (if skip then count
   else if inb then (if hit then count + 1 else count) else count)
  = count + (if negb skip && inb && hit then 1 else 0).
Proof. destruct skip, inb, hit; cbn; lia. Qed.

Lemma in_grid_unfold y x :
  (0 <=? x) && (x <? MATRIX_WIDTH) && (0 <=? y) && (y <? MATRIX_HEIGHT)
  = in_grid y x.
Proof. reflexivity. Qed.

Lemma countClusterNeighbors_tally g x y id :
  countClusterNeighbors g x y id = tally (isSame g id) (gridNeighbors x y).
Proof.
  unfold gridNeighbors. rewrite tally_filter.
  unfold countClusterNeighbors, offsets, surrounding, isSame.
  cbn [foldl tally fst snd]. rewrite !visit_step, !in_grid_unfold.
  cbn [Z.eqb andb negb]. lia.
Qed.

Lemma countOtherClusterNeighbors_tally g x y id :
  countOtherClusterNeighbors g x y id = tally (isOther g id) (gridNeighbors x y).
Proof.
  unfold gridNeighbors. rewrite tally_filter.
  unfold countOtherClusterNeighbors, offsets, surrounding, isOther.
  cbn [foldl tally fst snd]. rewrite !visit_step, !in_grid_unfold.
  cbn [Z.eqb andb negb]. lia.
Qed.

Lemma in_range_cases (n v : Z) :
  0 <= v < n -> In v (map Z.of_nat (seq 0 (Z.to_nat n))).
Proof.
  intros H. apply in_map_iff. exists (Z.to_nat v). split; [lia|].
  apply in_seq. lia.
Qed.

Lemma gridNeighbors_count x y :
  0 <= x < MATRIX_WIDTH -> 0 <= y < MATRIX_HEIGHT ->
  (is_corner x y -> length (gridNeighbors x y) = 3%nat) /\
  (is_edge x y -> length (gridNeighbors x y) = 5%nat) /\
  (is_interior x y -> length (gridNeighbors x y) = 8%nat).
Proof.
  intros Hx Hy.
  apply in_range_cases in Hx. apply in_range_cases in Hy.
  unfold is_corner, is_edge, is_interior.
  cbn in Hx, Hy.
  repeat (destruct Hx as [<-|Hx]; [|]); try contradiction;
    repeat (destruct Hy as [<-|Hy]; [|]); try contradiction;
    (split; [|split]); intros; try lia; reflexivity.
Qed.

Lemma gridNeighbors_in_grid x y p :
  In p (gridNeighbors x y) -> in_grid (fst p) (snd p) = true.
Proof.
  unfold gridNeighbors. intros H.
  apply list_elem_of_In, list_elem_of_filter in H. tauto.
Qed.

End Scorer.


(** ** Properties of the descriptor scanner *)

Module Loader.

(** The bounds "Constrain values" establishes. *)
Definition clamped (cl : ClusterData) : Prop :=
  0 <= pixels cl <= TOTAL_PIXELS /\ 80 <= brightness cl <= 220 /\
  1 <= clustering cl <= 10 /\ 10 <= speed cl <= 500.

Lemma constrain_range amt low high :
  low <= high -> low <= constrain amt low high <= high.
Proof.
  intros H. unfold constrain.
  destruct (Z.ltb_spec amt low); [lia|].
  destruct (Z.gtb_spec amt high); lia.
Qed.

Lemma constrain_inside amt low high :
  low <= amt <= high -> constrain amt low high = amt.
Proof.
  intros H. unfold constrain.
  destruct (Z.ltb_spec amt low); [lia|].
  destruct (Z.gtb_spec amt high); lia.
Qed.

Lemma parseCluster_clamped objBuf : clamped (parseCluster objBuf).
Proof.
  unfold clamped, parseCluster, TOTAL_PIXELS; cbn [pixels brightness clustering speed].
  repeat split; apply constrain_range; lia.
Qed.

(** The records the scanning loop stores, in order. *)
Fixpoint scanRecords (slots : nat) (pos : string) : list ClusterData :=
  match slots with
  | O => []
  | S slots' =>
      match strchr pos "{" with
      | None => []
      | Some objStart =>
          match strchr objStart "}" with
          | None => []
          | Some objEnd =>
              let objLen := strlen objStart - strlen objEnd + 1 in
              if 256 <=? objLen then []
              else parseCluster (copy_prefix (Z.to_nat objLen) objStart)
                     :: scanRecords slots' (advance 1 objEnd)
          end
      end
  end.

Definition records (json : string) : list ClusterData :=
  match strchr json "[" with
  | None => []
  | Some pos => scanRecords (Z.to_nat MAX_CLUSTERS) (advance 1 pos)
  end.

Lemma scanRecords_length slots pos : (length (scanRecords slots pos) <= slots)%nat.
Proof.
  revert pos. induction slots as [|n IH]; intros pos; cbn [scanRecords]; [cbn; lia|].
  destruct (strchr pos "{") as [objStart|]; [|cbn; lia].
  destruct (strchr objStart "}") as [objEnd|]; [|cbn; lia].
  destruct (256 <=? _); cbn [length]; [lia|].
  specialize (IH (advance 1 objEnd)). lia.
Qed.

Lemma scanRecords_clamped slots pos : Forall clamped (scanRecords slots pos).
Proof.
  revert pos. induction slots as [|n IH]; intros pos; cbn [scanRecords]; [constructor|].
  destruct (strchr pos "{") as [objStart|]; [|constructor].
  destruct (strchr objStart "}") as [objEnd|]; [|constructor].
  destruct (256 <=? _); constructor; [apply parseCluster_clamped|apply IH].
Qed.

Lemma records_length json : (length (records json) <= 6)%nat.
Proof.
  unfold records. destruct (strchr json "["); [|cbn; lia].
  apply scanRecords_length.
Qed.

Lemma records_clamped json : Forall clamped (records json).
Proof.
  unfold records. destruct (strchr json "["); [|constructor].
  apply scanRecords_clamped.
Qed.

(** The scanning loop changes [clusters] and [numClusters] only. *)
Lemma parseLoop_frame slots pos st :
  let st' := parseLoop slots pos st in
  inPortfolioMode st' = inPortfolioMode st /\
  pixelClusterID st' = pixelClusterID st /\
  pixelIndices st' = pixelIndices st /\
  lastUpdateTime st' = lastUpdateTime st.
Proof.
  revert pos st. induction slots as [|n IH]; intros pos st; cbn [parseLoop]; [tauto|].
  destruct (strchr pos "{") as [objStart|]; [|tauto].
  destruct (strchr objStart "}") as [objEnd|]; [|tauto].
  destruct (256 <=? _); [tauto|].
  apply (IH (advance 1 objEnd) (store_cluster _ st)).
Qed.

(** Every stored record advances [numClusters]; a run that leaves it
    where it was has stored nothing. *)
Lemma parseLoop_numClusters slots pos st :
  numClusters st <= numClusters (parseLoop slots pos st) /\
  (numClusters (parseLoop slots pos st) = numClusters st ->
   parseLoop slots pos st = st).
Proof.
  revert pos st. induction slots as [|n IH]; intros pos st; cbn [parseLoop]; [split; [lia|tauto]|].
  destruct (strchr pos "{") as [objStart|]; [|split; [lia|tauto]].
  destruct (strchr objStart "}") as [objEnd|]; [|split; [lia|tauto]].
  destruct (256 <=? _); [split; [lia|tauto]|].
  destruct (IH (advance 1 objEnd) (store_cluster (parseCluster
    (copy_prefix (Z.to_nat (strlen objStart - strlen objEnd + 1)) objStart)) st)) as [Hle _].
  cbn [store_cluster numClusters] in Hle. split; [lia|]. intros Heq. lia.
Qed.

(** The loop writes the scanned records from slot [numClusters] on. *)
Lemma parseLoop_records slots pos st :
  0 <= numClusters st ->
  (Z.to_nat (numClusters st) + slots <= length (clusters st))%nat ->
  let n := Z.to_nat (numClusters st) in
  let recs := scanRecords slots pos in
  clusters (parseLoop slots pos st)
    = take n (clusters st) ++ recs ++ drop (n + length recs) (clusters st) /\
  numClusters (parseLoop slots pos st) = numClusters st + Z.of_nat (length recs).
Proof.
  revert pos st. induction slots as [|m IH]; intros pos st Hn Hlen; cbn zeta;
    cbn [parseLoop scanRecords].
  { cbn [length app]. rewrite Nat.add_0_r, take_drop. split; [reflexivity|lia]. }
  destruct (strchr pos "{") as [objStart|];
    [|cbn [length app]; rewrite Nat.add_0_r, take_drop; split; [reflexivity|lia]].
  destruct (strchr objStart "}") as [objEnd|];
    [|cbn [length app]; rewrite Nat.add_0_r, take_drop; split; [reflexivity|lia]].
  destruct (256 <=? _);
    [cbn [length app]; rewrite Nat.add_0_r, take_drop; split; [reflexivity|lia]|].
  set (cl := parseCluster _).
  destruct (IH (advance 1 objEnd) (store_cluster cl st)) as [Hc Hnum].
  { cbn [store_cluster numClusters]. lia. }
  { cbn [store_cluster numClusters clusters]. rewrite length_insert. lia. }
  cbn [store_cluster numClusters clusters] in Hc, Hnum.
  rewrite Hc, Hnum. split; [|cbn [length]; lia].
  replace (Z.to_nat (numClusters st + 1)) with (S (Z.to_nat (numClusters st))) by lia.
  set (n := Z.to_nat (numClusters st)) in *.
  assert (Hlt : (n < length (clusters st))%nat) by lia.
  rewrite (take_S_r _ _ cl) by (apply list_lookup_insert_eq; exact Hlt).
  rewrite take_insert_ge by lia.
  rewrite drop_insert_lt by lia.
  rewrite <- app_assoc. cbn [app length].
  replace (S n + length (scanRecords m (advance 1 objEnd)))%nat
    with (n + S (length (scanRecords m (advance 1 objEnd))))%nat by lia.
  reflexivity.
Qed.

Lemma parseClusterData_spec json st :
  length (clusters st) = 6%nat ->
  parseClusterData json st =
    {| inPortfolioMode := inPortfolioMode st;
       clusters := records json ++ drop (length (records json)) (clusters st);
       numClusters := Z.of_nat (length (records json));
       pixelClusterID := pixelClusterID st;
       pixelIndices := pixelIndices st;
       lastUpdateTime := lastUpdateTime st |}.
Proof.
  intros Hlen. unfold parseClusterData, records.
  destruct (strchr json "[") as [pos|].
  - set (st0 := set_numClusters 0 st).
    destruct (parseLoop_frame (Z.to_nat MAX_CLUSTERS) (advance 1 pos) st0) as (H1 & H2 & H3 & H4).
    destruct (parseLoop_records (Z.to_nat MAX_CLUSTERS) (advance 1 pos) st0) as [Hc Hn].
    { subst st0. cbn [set_numClusters numClusters]. lia. }
    { subst st0. cbn [set_numClusters numClusters clusters]. rewrite Hlen.
      unfold MAX_CLUSTERS. lia. }
    destruct (parseLoop (Z.to_nat MAX_CLUSTERS) (advance 1 pos) st0) as [m cs n g o t].
    cbn [inPortfolioMode clusters numClusters pixelClusterID pixelIndices lastUpdateTime
         st0 set_numClusters] in *.
    subst. f_equal.
  - destruct st; cbn. reflexivity.
Qed.

End Loader.

(** Sum of the [pixels] fields of the [numClusters] active clusters. *)
Definition sumPixels (st : State) : Z :=
  foldr Z.add 0 (map pixels (take (Z.to_nat (numClusters st)) (clusters st))).

(** Successive calls of [updatePortfolioPattern], one per host frame, at
    the times [ts]. *)
Fixpoint runUpdates (rng : Rng) (ts : list Z) (st : State) (k : nat)
    : result (State * nat) :=
  match ts with
  | [] => Ok (st, k)
  | t :: ts' =>
      do r <- updatePortfolioPattern rng t st k;
      runUpdates rng ts' (fst r) (snd r)
  end.

(** ** Facts about the arrays and the random source *)

Lemma random_range raw n : 0 < n -> 0 <= random raw n < n.
Proof.
  intros H. unfold random. destruct (Z.eqb_spec n 0); [lia|].
  apply Z.rem_bound_pos; lia.
Qed.

Lemma order_read_past order idx :
  TOTAL_PIXELS <= idx -> order_read order idx = Fault (PixelIndexOutOfRange idx).
Proof.
  intros H. unfold order_read.
  destruct (Z.ltb_spec idx TOTAL_PIXELS); [lia|].
  rewrite andb_false_r. reflexivity.
Qed.

(** ** The two sampling loops *)

Module Sampling.

(** The [n] logical indices a sampling loop draws when the random stream
    is at cursor [k]. *)
Fixpoint draws (rng : Rng) (pixelOffset px : Z) (k n : nat) : list Z :=
  match n with
  | O => []
  | S n' => (pixelOffset + random (rng k) px) :: draws rng pixelOffset px (S k) n'
  end.

(** The score of the pixel at logical index [idx]. *)
Definition scoreOf (st : State) (cluster : ClusterData) (idx : Z) : Z :=
  scoreAt (pixelClusterID st) (clusterID cluster)
          (default 0 (pixelIndices st !! Z.to_nat idx)).

(** [if (score > best) { best = score; bestIdx = idx; }] *)
Definition keepBest (score : Z -> Z) (acc : Z * Z) (idx : Z) : Z * Z :=
  if score idx >? snd acc then (idx, score idx) else acc.

(** [best] is the first element of [l] whose score is the maximum over [l]. *)
Definition firstMax (score : Z -> Z) (l : list Z) (best : Z) : Prop :=
  exists j : nat,
    l !! j = Some best /\
    (forall v, In v l -> score v <= score best) /\
    (forall (j' : nat) v, (j' < j)%nat -> l !! j' = Some v -> score v < score best).

Lemma draws_length rng off px k n : length (draws rng off px k n) = n.
Proof. revert k. induction n as [|n IH]; intros k; cbn; [reflexivity|]. now rewrite IH. Qed.

Lemma draws_in_range rng off px k n :
  0 < px -> Forall (fun idx => off <= idx < off + px) (draws rng off px k n).
Proof.
  intros Hpx. revert k. induction n as [|n IH]; intros k; cbn [draws]; constructor.
  - pose proof (random_range (rng k) px Hpx). lia.
  - apply IH.
Qed.

Lemma foldl_keepBest score l : forall b0 s0,
  let r := foldl (keepBest score) (b0, s0) l in
  ((forall v, In v l -> score v <= s0) /\ r = (b0, s0)) \/
  (firstMax score l (fst r) /\ snd r = score (fst r) /\ s0 < snd r).
Proof.
  induction l as [|x l IH]; intros b0 s0; cbv zeta; cbn [foldl].
  { left. split; [intros v []|reflexivity]. }
  replace (keepBest score (b0, s0) x)
    with (if score x >? s0 then (x, score x) else (b0, s0)) by reflexivity.
  destruct (Z.gtb_spec (score x) s0) as [Hgt|Hle].
  - right. destruct (IH x (score x)) as [[Hall Heq]|(Hfm & Hs & Hlt)].
    + cbv zeta in Heq. rewrite Heq. cbn [fst snd]. split; [|split; [reflexivity|lia]].
      exists 0%nat. split; [reflexivity|]. split.
      * intros v [<-|Hv]; [lia|auto].
      * intros j' v Hj. lia.
    + cbv zeta in Hfm, Hs, Hlt.
      set (r := foldl (keepBest score) (x, score x) l) in *.
      split; [|split; [exact Hs|lia]].
      destruct Hfm as (j & Hj & Hmax & Hfirst).
      exists (S j). split; [exact Hj|]. split.
      * intros v [<-|Hv]; [lia|auto].
      * intros [|j'] v Hlt' Hv; cbn in Hv.
        -- injection Hv as <-. lia.
        -- apply (Hfirst j' v); [lia|exact Hv].
  - destruct (IH b0 s0) as [[Hall Heq]|(Hfm & Hs & Hlt)].
    + left. split; [|exact Heq]. intros v [<-|Hv]; [lia|auto].
    + right. cbv zeta in Hfm, Hs, Hlt.
      set (r := foldl (keepBest score) (b0, s0) l) in *.
      split; [|split; [exact Hs|lia]].
      destruct Hfm as (j & Hj & Hmax & Hfirst).
      exists (S j). split; [exact Hj|]. split.
      * intros v [<-|Hv]; [lia|auto].
      * intros [|j'] v Hlt' Hv; cbn in Hv.
        -- injection Hv as <-. lia.
        -- apply (Hfirst j' v); [lia|exact Hv].
Qed.

Lemma order_read_Ok order idx pos :
  order_read order idx = Ok pos ->
  0 <= idx < TOTAL_PIXELS /\ order !! Z.to_nat idx = Some pos.
Proof.
  unfold order_read.
  destruct (Z.leb_spec 0 idx); cbn [andb]; [|discriminate].
  destruct (Z.ltb_spec idx TOTAL_PIXELS); [|discriminate].
  destruct (order !! Z.to_nat idx); [|discriminate].
  intros [= <-]. split; [lia|reflexivity].
Qed.

Lemma order_read_in_range order idx :
  length order = 104%nat -> 0 <= idx < TOTAL_PIXELS ->
  exists pos, order_read order idx = Ok pos /\ order !! Z.to_nat idx = Some pos.
Proof.
  intros Hlen Hidx. unfold order_read, TOTAL_PIXELS in *.
  destruct (Z.leb_spec 0 idx); [|lia].
  destruct (Z.ltb_spec idx 104); [|lia]. cbn [andb].
  destruct (lookup_lt_is_Some_2 order (Z.to_nat idx)) as [pos Hpos]; [lia|].
  rewrite Hpos. eauto.
Qed.

(** The isolation loop, step by step. *)
Lemma isolated_loop rng st cluster off n : forall i b0 s0 k b s k',
  for_loop n i (isolatedBody rng st cluster off) (b0, s0, k) = Ok (b, s, k') ->
  (b, s) = foldl (keepBest (scoreOf st cluster)) (b0, s0)
             (draws rng off (pixels cluster) k n) /\
  k' = (k + n)%nat.
Proof.
  induction n as [|n IH]; intros i b0 s0 k b s k' H; cbn [for_loop draws foldl] in *.
  { injection H as <- <- <-. split; [reflexivity|lia]. }
  unfold isolatedBody at 1 in H.
  destruct (order_read (pixelIndices st) (off + random (rng k) (pixels cluster)))
    as [pos|f] eqn:Hread; cbn [bind] in H; [|discriminate].
  apply order_read_Ok in Hread. destruct Hread as [_ Hpos].
  assert (Hscore : scoreAt (pixelClusterID st) (clusterID cluster) pos
                   = scoreOf st cluster (off + random (rng k) (pixels cluster))).
  { unfold scoreOf. rewrite Hpos. reflexivity. }
  rewrite Hscore in H. unfold keepBest at 2. cbn [snd].
  destruct (scoreOf st cluster (off + random (rng k) (pixels cluster)) >? s0);
    cbn [bind] in H; apply IH in H; destruct H as [-> ->]; split; try reflexivity; lia.
Qed.

Lemma isolated_loop_total rng st cluster off n : forall i acc k,
  length (pixelIndices st) = 104%nat ->
  Forall (fun idx => 0 <= idx < TOTAL_PIXELS) (draws rng off (pixels cluster) k n) ->
  exists r, for_loop n i (isolatedBody rng st cluster off) (acc, k) = Ok r.
Proof.
  induction n as [|n IH]; intros i [b0 s0] k Hlen Hall; cbn [for_loop draws] in *.
  { eauto. }
  apply Forall_cons in Hall. destruct Hall as [Hhd Htl].
  unfold isolatedBody at 1.
  destruct (order_read_in_range (pixelIndices st) _ Hlen Hhd) as (pos & -> & _).
  cbn [bind].
  destruct (_ >? s0); cbn [bind]; apply IH; assumption.
Qed.

Lemma targetBody_same : targetBody = isolatedBody.
Proof. reflexivity. Qed.

Lemma findTarget_same : findTarget = findIsolated.
Proof. reflexivity. Qed.

Lemma gridNeighbors_at_most_8 x y : (length (Scorer.gridNeighbors x y) <= 8)%nat.
Proof.
  unfold Scorer.gridNeighbors.
  etransitivity; [apply length_filter|]. reflexivity.
Qed.

Lemma scoreAt_bounds g cid pos : -8 <= scoreAt g cid pos <= 8.
Proof.
  unfold scoreAt. cbv zeta.
  rewrite Scorer.countClusterNeighbors_tally, Scorer.countOtherClusterNeighbors_tally.
  set (x := pos mod MATRIX_WIDTH). set (y := pos / MATRIX_WIDTH).
  pose proof (Scorer.tally_bounds (Scorer.isSame g cid) (Scorer.gridNeighbors x y)).
  pose proof (Scorer.tally_bounds (Scorer.isOther g cid) (Scorer.gridNeighbors x y)).
  pose proof (gridNeighbors_at_most_8 x y). lia.
Qed.

End Sampling.

(** A configuration, a random stream and the state they lead to, used in
    the examples below. *)
Definition demo_rng : Rng := fun n => N.of_nat (7 * n * n + 3 * n + 1).

Definition demo_state : State :=
  Eval vm_compute in
    match setPortfolioMode sample_json initial_state with
    | Ok st => st
    | Fault _ => initial_state
    end.

Definition demo_cluster : ClusterData := mkCluster 1 20 180 3 100 "AAPL".

(** ** Facts about the assignment grid *)

Module GridFacts.

Definition tick (a v : Z) : nat := if Z.eq_dec a v then 1%nat else 0%nat.

(** Number of cells of the grid that hold [v]. *)
Definition cellsWith (g : Grid) (v : Z) : nat := count_occ Z.eq_dec (concat g) v.

Lemma count_occ_insert (l : list Z) (i : nat) (a b v : Z) :
  l !! i = Some a ->
  (count_occ Z.eq_dec (<[i := b]> l) v + tick a v
   = count_occ Z.eq_dec l v + tick b v)%nat.
Proof.
  revert i. induction l as [|h l IH]; intros [|i] H; cbn in H; try discriminate.
  - injection H as ->. cbn [insert list_insert count_occ]. unfold tick.
    destruct (Z.eq_dec a v), (Z.eq_dec b v); lia.
  - specialize (IH i H). simpl.
    destruct (Z.eq_dec h v); lia.
Qed.

Lemma cellsWith_alter (g : Grid) (yn xn : nat) (row : list Z) (a b v : Z) :
  g !! yn = Some row -> row !! xn = Some a ->
  (cellsWith (alter (fun r => <[xn := b]> r) yn g) v + tick a v
   = cellsWith g v + tick b v)%nat.
Proof.
  unfold cellsWith. revert yn.
  induction g as [|r g IH]; intros [|yn] Hrow Ha; cbn in Hrow; try discriminate.
  - injection Hrow as ->.
    change (concat (alter (fun r => <[xn := b]> r) 0%nat (row :: g)))
      with (<[xn := b]> row ++ concat g).
    cbn [concat]. rewrite !count_occ_app.
    pose proof (count_occ_insert row xn a b v Ha). lia.
  - specialize (IH yn Hrow Ha).
    change (concat (alter (fun r => <[xn := b]> r) (S yn) (r :: g)))
      with (r ++ concat (alter (fun r => <[xn := b]> r) yn g)).
    cbn [concat]. rewrite !count_occ_app. lia.
Qed.

Lemma grid_get_Some g y x a :
  grid_get g y x = Some a ->
  in_grid y x = true /\
  exists row, g !! Z.to_nat y = Some row /\ row !! Z.to_nat x = Some a.
Proof.
  unfold grid_get. destruct (in_grid y x); [|discriminate].
  destruct (g !! Z.to_nat y) as [row|]; [|discriminate]. eauto.
Qed.

Lemma in_grid_range y x :
  in_grid y x = true <-> (0 <= x < MATRIX_WIDTH /\ 0 <= y < MATRIX_HEIGHT).
Proof. unfold in_grid. rewrite !andb_true_iff. lia. Qed.

Lemma cellsWith_grid_set g y x a b v :
  grid_get g y x = Some a ->
  (cellsWith (grid_set g y x b) v + tick a v = cellsWith g v + tick b v)%nat.
Proof.
  intros H. apply grid_get_Some in H. destruct H as (_ & row & Hrow & Ha).
  unfold grid_set. eapply cellsWith_alter; eassumption.
Qed.

Lemma grid_get_set_eq g y x a b :
  grid_get g y x = Some a -> grid_get (grid_set g y x b) y x = Some b.
Proof.
  intros H. apply grid_get_Some in H. destruct H as (Hin & row & Hrow & Ha).
  unfold grid_get, grid_set. rewrite Hin, list_lookup_alter_eq, Hrow. cbn.
  apply list_lookup_insert_eq. eapply lookup_lt_Some. exact Ha.
Qed.

Lemma grid_get_set_ne g y x y' x' b :
  (Z.to_nat y, Z.to_nat x) <> (Z.to_nat y', Z.to_nat x') ->
  grid_get (grid_set g y x b) y' x' = grid_get g y' x'.
Proof.
  intros Hne. unfold grid_get, grid_set. destruct (in_grid y' x'); [|reflexivity].
  destruct (decide (Z.to_nat y = Z.to_nat y')) as [Hy|Hy].
  - rewrite <- Hy, list_lookup_alter_eq.
    destruct (g !! Z.to_nat y) as [row|]; [|reflexivity]. cbn.
    apply list_lookup_insert_ne. congruence.
  - rewrite list_lookup_alter_ne by exact Hy. reflexivity.
Qed.

(** Writing to a cell the value it holds changes nothing. *)
Lemma grid_set_same g y x a : grid_get g y x = Some a -> grid_set g y x a = g.
Proof.
  intros H. apply grid_get_Some in H. destruct H as (_ & row & Hrow & Ha).
  unfold grid_set. apply list_eq. intros i.
  destruct (decide (Z.to_nat y = i)) as [<-|Hne].
  - rewrite list_lookup_alter_eq, Hrow. cbn. f_equal. apply list_insert_id. exact Ha.
  - apply list_lookup_alter_ne. exact Hne.
Qed.

(** Exchanging the contents of two cells keeps every count. *)
Lemma cellsWith_exchange g y1 x1 y2 x2 a b v :
  grid_get g y1 x1 = Some a -> grid_get g y2 x2 = Some b ->
  cellsWith (grid_set (grid_set g y1 x1 b) y2 x2 a) v = cellsWith g v.
Proof.
  intros Ha Hb.
  assert (Hb' : grid_get (grid_set g y1 x1 b) y2 x2 = Some b).
  { destruct (decide ((Z.to_nat y1, Z.to_nat x1) = (Z.to_nat y2, Z.to_nat x2))) as [He|Hne].
    - injection He as Hy Hx.
      destruct (grid_get_Some _ _ _ _ Ha) as (Hina & _).
      destruct (grid_get_Some _ _ _ _ Hb) as (Hinb & _).
      apply in_grid_range in Hina, Hinb.
      assert (y1 = y2) by lia. assert (x1 = x2) by lia. subst y2 x2.
      eapply grid_get_set_eq. exact Ha.
    - rewrite grid_get_set_ne by exact Hne. exact Hb. }
  pose proof (cellsWith_grid_set g y1 x1 a b v Ha).
  pose proof (cellsWith_grid_set _ y2 x2 b a v Hb'). lia.
Qed.

Definition shaped (g : Grid) : Prop :=
  length g = 8%nat /\ Forall (fun row => length row = 13%nat) g.

Lemma shaped_get g y x :
  shaped g -> in_grid y x = true -> exists a, grid_get g y x = Some a.
Proof.
  intros [Hlen Hrows] Hin. unfold grid_get. rewrite Hin.
  apply in_grid_range in Hin. unfold MATRIX_WIDTH, MATRIX_HEIGHT in Hin.
  destruct (lookup_lt_is_Some_2 g (Z.to_nat y)) as [row Hrow]; [lia|].
  rewrite Hrow. rewrite Forall_forall in Hrows.
  assert (Hr : length row = 13%nat).
  { apply Hrows. apply list_elem_of_lookup. eauto. }
  apply lookup_lt_is_Some_2. lia.
Qed.

Lemma shaped_set g y x v : shaped g -> shaped (grid_set g y x v).
Proof.
  intros [Hlen Hrows]. unfold grid_set. split; [rewrite length_alter; exact Hlen|].
  apply Forall_alter; [exact Hrows|].
  intros row _ Hr. rewrite length_insert. exact Hr.
Qed.

Lemma shaped_empty : shaped empty_grid.
Proof. split; [reflexivity|]. repeat constructor. Qed.

(** The cell of a physical position below 104 is inside the matrix. *)
Lemma position_in_grid pos :
  0 <= pos < TOTAL_PIXELS -> in_grid (pos / MATRIX_WIDTH) (pos mod MATRIX_WIDTH) = true.
Proof.
  unfold TOTAL_PIXELS, MATRIX_WIDTH. intros H. apply in_grid_range.
  unfold MATRIX_WIDTH, MATRIX_HEIGHT.
  pose proof (Z.mod_pos_bound pos 13 ltac:(lia)).
  pose proof (Z.div_lt_upper_bound pos 13 8 ltac:(lia) ltac:(lia)).
  pose proof (Z.div_pos pos 13 ltac:(lia) ltac:(lia)). lia.
Qed.

End GridFacts.

(** ** Facts about the cohesion engine *)

Module Engine.

(** Invariants of [for_loop], indexed by the number of iterations done. *)
Lemma for_loop_inv {A : Type} (body : Z -> A -> result A) (P : nat -> A -> Prop)
    (n : nat) (i0 : Z) (s0 s' : A) :
  P 0%nat s0 ->
  (forall m s t, (m < n)%nat -> P m s -> body (i0 + Z.of_nat m) s = Ok t -> P (S m) t) ->
  for_loop n i0 body s0 = Ok s' -> P n s'.
Proof.
  revert P i0 s0. induction n as [|n IH]; intros P i0 s0 H0 Hstep Hrun; cbn [for_loop] in Hrun.
  { injection Hrun as <-. exact H0. }
  destruct (body i0 s0) as [s1|f] eqn:Hb; cbn [bind] in Hrun; [|discriminate].
  apply (IH (fun m s => P (S m) s) (i0 + 1) s1).
  - apply (Hstep 0%nat s0 s1); [lia|exact H0|]. rewrite Z.add_0_r. exact Hb.
  - intros m s t Hm HP Hbody. apply (Hstep (S m) s t); [lia|exact HP|].
    replace (i0 + Z.of_nat (S m)) with (i0 + 1 + Z.of_nat m) by lia. exact Hbody.
  - exact Hrun.
Qed.

Lemma for_loop_total {A : Type} (body : Z -> A -> result A) (P : nat -> A -> Prop)
    (n : nat) (i0 : Z) (s0 : A) :
  P 0%nat s0 ->
  (forall m s, (m < n)%nat -> P m s ->
     exists t, body (i0 + Z.of_nat m) s = Ok t /\ P (S m) t) ->
  exists s', for_loop n i0 body s0 = Ok s' /\ P n s'.
Proof.
  revert P i0 s0. induction n as [|n IH]; intros P i0 s0 H0 Hstep; cbn [for_loop].
  { eauto. }
  destruct (Hstep 0%nat s0 ltac:(lia) H0) as (s1 & Hb & H1).
  rewrite Z.add_0_r in Hb. rewrite Hb. cbn [bind].
  apply (IH (fun m s => P (S m) s) (i0 + 1) s1 H1).
  intros m s Hm HP. destruct (Hstep (S m) s ltac:(lia) HP) as (t & Ht & HPt).
  exists t. split; [|exact HPt].
  replace (i0 + 1 + Z.of_nat m) with (i0 + Z.of_nat (S m)) by lia. exact Ht.
Qed.

Lemma order_write_Ok order idx v order' :
  order_write order idx v = Ok order' ->
  0 <= idx < TOTAL_PIXELS /\ order' = <[Z.to_nat idx := v]> order.
Proof.
  unfold order_write.
  destruct (Z.leb_spec 0 idx); cbn [andb]; [|discriminate].
  destruct (Z.ltb_spec idx TOTAL_PIXELS); [|discriminate].
  intros [= <-]. split; [lia|reflexivity].
Qed.

Lemma grid_read_Ok g y x v : grid_read g y x = Ok v -> grid_get g y x = Some v.
Proof. unfold grid_read. destruct (grid_get g y x); [|discriminate]. now intros [= ->]. Qed.

Lemma grid_write_Ok g y x v g' :
  grid_write g y x v = Ok g' -> in_grid y x = true /\ g' = grid_set g y x v.
Proof. unfold grid_write. destruct (in_grid y x); [|discriminate]. now intros [= <-]. Qed.

(** What a successful swap did. *)
Lemma swapPixels_Ok st a b st' :
  swapPixels st a b = Ok st' ->
  exists pa pb pos1 pos2 v1 v2,
    0 <= a < TOTAL_PIXELS /\ 0 <= b < TOTAL_PIXELS /\
    pixelIndices st !! Z.to_nat a = Some pa /\
    pixelIndices st !! Z.to_nat b = Some pb /\
    let order2 := <[Z.to_nat b := pa]> (<[Z.to_nat a := pb]> (pixelIndices st)) in
    order2 !! Z.to_nat a = Some pos1 /\
    order2 !! Z.to_nat b = Some pos2 /\
    grid_get (pixelClusterID st) (pos1 / MATRIX_WIDTH) (pos1 mod MATRIX_WIDTH) = Some v1 /\
    grid_get (pixelClusterID st) (pos2 / MATRIX_WIDTH) (pos2 mod MATRIX_WIDTH) = Some v2 /\
    st' = {| inPortfolioMode := inPortfolioMode st; clusters := clusters st;
             numClusters := numClusters st;
             pixelClusterID :=
               grid_set (grid_set (pixelClusterID st)
                           (pos1 / MATRIX_WIDTH) (pos1 mod MATRIX_WIDTH) v2)
                        (pos2 / MATRIX_WIDTH) (pos2 mod MATRIX_WIDTH) v1;
             pixelIndices := order2; lastUpdateTime := lastUpdateTime st |}.
Proof.
  unfold swapPixels. intros H.
  destruct (order_read (pixelIndices st) a) as [pa|] eqn:Ea; cbn [bind] in H; [|discriminate].
  destruct (order_read (pixelIndices st) b) as [pb|] eqn:Eb; cbn [bind] in H; [|discriminate].
  destruct (order_write (pixelIndices st) a pb) as [o1|] eqn:E1; cbn [bind] in H; [|discriminate].
  destruct (order_write o1 b pa) as [o2|] eqn:E2; cbn [bind] in H; [|discriminate].
  destruct (order_read o2 a) as [pos1|] eqn:E3; cbn [bind] in H; [|discriminate].
  destruct (order_read o2 b) as [pos2|] eqn:E4; cbn [bind] in H; [|discriminate].
  destruct (grid_read _ _ _) as [v1|] eqn:E5 in H; cbn [bind] in H; [|discriminate].
  destruct (grid_read _ _ _) as [v2|] eqn:E6 in H; cbn [bind] in H; [|discriminate].
  destruct (grid_write _ _ _ _) as [g1|] eqn:E7 in H; cbn [bind] in H; [|discriminate].
  destruct (grid_write _ _ _ _) as [g2|] eqn:E8 in H; cbn [bind] in H; [|discriminate].
  apply Sampling.order_read_Ok in Ea, Eb, E3, E4.
  apply order_write_Ok in E1, E2. apply grid_read_Ok in E5, E6.
  apply grid_write_Ok in E7, E8.
  destruct Ea as [Ha Hpa], Eb as [Hb Hpb], E1 as [_ ->], E2 as [_ ->].
  destruct E3 as [_ H3], E4 as [_ H4], E7 as [_ ->], E8 as [_ ->].
  injection H as <-.
  exists pa, pb, pos1, pos2, v1, v2. cbv zeta.
  repeat split; first [assumption | lia | reflexivity].
Qed.

Lemma cluster_read_Ok cs c cl :
  cluster_read cs c = Ok cl -> 0 <= c /\ cs !! Z.to_nat c = Some cl.
Proof.
  unfold cluster_read. destruct (Z.leb_spec 0 c); [|discriminate].
  destruct (cs !! Z.to_nat c); [|discriminate]. intros [= ->]. split; [lia|reflexivity].
Qed.

(** The three ways an iteration of the cluster loop can end. *)
Inductive outcome (rng : Rng) (t c : Z) (st : State) (off : Z) (k : nat)
    (cl : ClusterData) (last : Z) (st' : State) (off' : Z) (k' : nat) : Prop :=
| Skipped :
    notDue t last cl = true -> st' = st -> off' = off + pixels cl -> k' = k ->
    outcome rng t c st off k cl last st' off' k'
| Empty :
    notDue t last cl = false -> pixels cl = 0 ->
    st' = set_lastUpdateTime c t st -> off' = off -> k' = k ->
    outcome rng t c st off k cl last st' off' k'
| Stepped (a sa : Z) (k1 : nat) (b sb : Z) :
    notDue t last cl = false -> pixels cl <> 0 ->
    findIsolated rng (set_lastUpdateTime c t st) cl off k = Ok (a, sa, k1) ->
    findTarget rng (set_lastUpdateTime c t st) cl off k1 = Ok (b, sb, k') ->
    off' = off + pixels cl ->
    (a = b /\ st' = set_lastUpdateTime c t st \/
     a <> b /\ swapPixels (set_lastUpdateTime c t st) a b = Ok st') ->
    outcome rng t c st off k cl last st' off' k'.

Lemma clusterStep_Ok rng t c st off k st' off' k' :
  clusterStep rng t c (st, off, k) = Ok (st', off', k') ->
  exists cl last,
    0 <= c /\ clusters st !! Z.to_nat c = Some cl /\
    lastUpdateTime st !! Z.to_nat c = Some last /\
    outcome rng t c st off k cl last st' off' k'.
Proof.
  unfold clusterStep. intros H.
  destruct (cluster_read (clusters st) c) as [cl|] eqn:Ec; cbn [bind] in H; [|discriminate].
  apply cluster_read_Ok in Ec. destruct Ec as [Hc Hcl].
  destruct (lastUpdateTime st !! Z.to_nat c) as [last|] eqn:El; [|discriminate].
  exists cl, last. split; [exact Hc|]. split; [exact Hcl|]. split; [reflexivity|].
  destruct (notDue t last cl) eqn:Hdue.
  { injection H as <- <- <-. now apply Skipped. }
  destruct (Z.eqb_spec (pixels cl) 0) as [Hz|Hnz].
  { injection H as <- <- <-. now apply Empty. }
  destruct (findIsolated _ _ _ _ _) as [[[a sa] k1]|] eqn:Hi; cbn [bind] in H; [|discriminate].
  destruct (findTarget _ _ _ _ _) as [[[b sb] k2]|] eqn:Ht; cbn [bind] in H; [|discriminate].
  destruct (Z.eqb_spec a b) as [Hab|Hab]; cbn [negb] in H.
  - injection H as <- <- <-. eapply Stepped; eauto.
  - destruct (swapPixels _ a b) as [st2|] eqn:Hs; cbn [bind] in H; [|discriminate].
    injection H as <- <- <-. eapply Stepped; eauto.
Qed.

(** The index a pass returns lies in the cluster's range. *)
Lemma pass_in_range rng st cl off k a sa k1 :
  0 < pixels cl ->
  findIsolated rng st cl off k = Ok (a, sa, k1) ->
  off <= a < off + pixels cl.
Proof.
  intros Hpx H. unfold findIsolated in H.
  apply Sampling.isolated_loop in H. destruct H as [Hf _].
  pose proof (random_range (rng k) (pixels cl) Hpx) as Hr.
  destruct (Sampling.foldl_keepBest (Sampling.scoreOf st cl)
              (Sampling.draws rng off (pixels cl) (S k) (Z.to_nat (clustering cl)))
              (off + random (rng k) (pixels cl)) (-100)) as [[_ Heq]|(Hfm & _)].
  - cbv zeta in Heq. rewrite <- Hf in Heq. injection Heq as -> _. lia.
  - cbv zeta in Hfm. rewrite <- Hf in Hfm. cbn [fst] in Hfm.
    destruct Hfm as (j & Hj & _).
    pose proof (Sampling.draws_in_range rng off (pixels cl) (S k)
                  (Z.to_nat (clustering cl)) Hpx) as Hall.
    rewrite Forall_forall in Hall. apply Hall. apply list_elem_of_lookup. eauto.
Qed.

(** A pass that returns has kept the first sample of maximal score. *)
Lemma findIsolated_first_max rng st cluster off k best sc k' :
  0 < pixels cluster -> 1 <= clustering cluster ->
  findIsolated rng st cluster off k = Ok (best, sc, k') ->
  let n := Z.to_nat (clustering cluster) in
  let samples := Sampling.draws rng off (pixels cluster) (S k) n in
  k' = (S k + n)%nat /\
  Sampling.firstMax (Sampling.scoreOf st cluster) samples best /\
  sc = Sampling.scoreOf st cluster best /\ -8 <= sc.
Proof.
  intros Hpx Hcl Hiso n samples. unfold findIsolated in Hiso.
  apply Sampling.isolated_loop in Hiso. destruct Hiso as [Hfold ->].
  fold n in Hfold |- *. fold samples in Hfold.
  split; [reflexivity|].
  destruct (Sampling.foldl_keepBest (Sampling.scoreOf st cluster) samples
              (off + random (rng k) (pixels cluster)) (-100))
    as [[Hall _]|(Hfm & Hs & Hlt)].
  - exfalso. destruct samples as [|v rest] eqn:Hs.
    + assert (Hlen : length samples = n) by apply Sampling.draws_length.
      rewrite Hs in Hlen. cbn in Hlen. lia.
    + specialize (Hall v (or_introl eq_refl)).
      pose proof (Sampling.scoreAt_bounds (pixelClusterID st) (clusterID cluster)
                    (default 0 (pixelIndices st !! Z.to_nat v))) as Hb.
      unfold Sampling.scoreOf in Hall. lia.
  - cbv zeta in Hfm, Hs, Hlt. rewrite <- Hfold in Hfm, Hs, Hlt. cbn [fst snd] in *.
    split; [exact Hfm|]. split; [exact Hs|].
    rewrite Hs. apply Sampling.scoreAt_bounds.
Qed.

End Engine.

(** ** Cluster ranges and the consistency of grid and ordering *)

Module Layout.

(** Logical index at which the range of cluster [c] starts: the sum of the
    pixel counts of the clusters before it. *)
Definition offsetOf (cs : list ClusterData) (c : nat) : Z :=
  foldr Z.add 0 (map pixels (take c cs)).

(** The externally owned ordering is a permutation of the 104 positions. *)
Definition is_permutation (order : list Z) : Prop :=
  Permutation order identity_order.

(** The arrays have their declared sizes and element ranges, and the
    active descriptors have non-negative pixel counts. *)
Record wf_state (st : State) : Prop := {
  wf_clusters : length (clusters st) = 6%nat;
  wf_timers : length (lastUpdateTime st) = 6%nat;
  wf_num : 0 <= numClusters st <= MAX_CLUSTERS;
  wf_order_length : length (pixelIndices st) = 104%nat;
  wf_order_range : Forall (fun p => 0 <= p < TOTAL_PIXELS) (pixelIndices st);
  wf_grid : GridFacts.shaped (pixelClusterID st);
  wf_pixels : Forall (fun cl => 0 <= pixels cl)
                (take (Z.to_nat (numClusters st)) (clusters st))
}.

(** The pixel counts of the active clusters fit the ordering. *)
Definition fits (st : State) : Prop :=
  offsetOf (clusters st) (Z.to_nat (numClusters st)) <= TOTAL_PIXELS.

(** Every logical index in the range of an active cluster maps to a grid
    cell that holds the cluster's id. *)
Definition consistent (st : State) : Prop :=
  forall (c : nat) cl (i : nat) pos,
    (c < Z.to_nat (numClusters st))%nat ->
    clusters st !! c = Some cl ->
    offsetOf (clusters st) c <= Z.of_nat i < offsetOf (clusters st) c + pixels cl ->
    pixelIndices st !! i = Some pos ->
    grid_get (pixelClusterID st) (pos / MATRIX_WIDTH) (pos mod MATRIX_WIDTH)
      = Some (clusterID cl).

Lemma offsetOf_0 cs : offsetOf cs 0 = 0.
Proof. reflexivity. Qed.

Lemma offsetOf_S cs c cl :
  cs !! c = Some cl -> offsetOf cs (S c) = offsetOf cs c + pixels cl.
Proof.
  intros H. unfold offsetOf. rewrite (take_S_r _ _ _ H), map_app, foldr_app.
  cbn [map foldr]. generalize (map pixels (take c cs)). intros l.
  induction l as [|a l IH]; cbn [foldr]; [lia|]. rewrite IH. lia.
Qed.

Lemma offsetOf_mono cs n c c' :
  Forall (fun cl => 0 <= pixels cl) (take n cs) ->
  (c <= c' <= n)%nat -> (n <= length cs)%nat ->
  0 <= offsetOf cs c <= offsetOf cs c'.
Proof.
  intros Hnn Hc Hn.
  assert (Hstep : forall d, (d <= n)%nat -> 0 <= offsetOf cs d).
  { induction d as [|d IHd]; intros Hd; [rewrite offsetOf_0; lia|].
    destruct (lookup_lt_is_Some_2 cs d) as [cl Hcl]; [lia|].
    rewrite (offsetOf_S _ _ _ Hcl).
    rewrite Forall_forall in Hnn.
    assert (0 <= pixels cl).
    { apply Hnn. apply list_elem_of_lookup. exists d.
      rewrite lookup_take_lt by lia. exact Hcl. }
    specialize (IHd ltac:(lia)). lia. }
  split; [apply Hstep; lia|].
  destruct Hc as [Hc Hc']. induction Hc as [|c' Hle IH]; [lia|].
  destruct (lookup_lt_is_Some_2 cs c') as [cl Hcl]; [lia|].
  rewrite (offsetOf_S _ _ _ Hcl).
  rewrite Forall_forall in Hnn.
  assert (0 <= pixels cl).
  { apply Hnn. apply list_elem_of_lookup. exists c'.
    rewrite lookup_take_lt by lia. exact Hcl. }
  specialize (IH ltac:(lia)). lia.
Qed.

Lemma identity_order_lookup (i : nat) :
  (i < 104)%nat -> identity_order !! i = Some (Z.of_nat i).
Proof.
  intros H. unfold identity_order. rewrite list_lookup_fmap.
  rewrite lookup_seq_lt by exact H. reflexivity.
Qed.

Lemma identity_order_range : Forall (fun p => 0 <= p < TOTAL_PIXELS) identity_order.
Proof.
  unfold identity_order. apply Forall_forall. intros p Hp.
  apply list_elem_of_fmap in Hp. destruct Hp as (i & -> & Hi).
  apply elem_of_seq in Hi. unfold TOTAL_PIXELS. lia.
Qed.

Lemma identity_order_NoDup : NoDup identity_order.
Proof.
  unfold identity_order. apply NoDup_fmap; [intros a b; lia|apply NoDup_seq].
Qed.

Lemma is_permutation_facts order :
  is_permutation order ->
  length order = 104%nat /\
  Forall (fun p => 0 <= p < TOTAL_PIXELS) order /\ NoDup order.
Proof.
  unfold is_permutation. intros H. split; [|split].
  - rewrite (Permutation_length H). reflexivity.
  - rewrite H. apply identity_order_range.
  - rewrite H. apply identity_order_NoDup.
Qed.

(** Distinct positions below 104 have distinct cells. *)
Lemma cell_injective p q :
  0 <= p < TOTAL_PIXELS -> 0 <= q < TOTAL_PIXELS -> p <> q ->
  (Z.to_nat (p / MATRIX_WIDTH), Z.to_nat (p mod MATRIX_WIDTH))
  <> (Z.to_nat (q / MATRIX_WIDTH), Z.to_nat (q mod MATRIX_WIDTH)).
Proof.
  unfold TOTAL_PIXELS, MATRIX_WIDTH. intros Hp Hq Hne [= Hd Hm].
  pose proof (Z.div_pos p 13 ltac:(lia) ltac:(lia)).
  pose proof (Z.div_pos q 13 ltac:(lia) ltac:(lia)).
  pose proof (Z.mod_pos_bound p 13 ltac:(lia)).
  pose proof (Z.mod_pos_bound q 13 ltac:(lia)).
  pose proof (Z.div_mod p 13 ltac:(lia)).
  pose proof (Z.div_mod q 13 ltac:(lia)). lia.
Qed.


(** *** The assignment walk of [setPortfolioMode] *)

Lemma assignPixels_spec cid order : forall n g (idx : nat),
  length order = 104%nat ->
  Forall (fun p => 0 <= p < TOTAL_PIXELS) order -> NoDup order ->
  GridFacts.shaped g -> (idx + n <= 104)%nat ->
  exists g',
    assignPixels n cid order g (Z.of_nat idx) = Ok (g', Z.of_nat (idx + n)) /\
    GridFacts.shaped g' /\
    (forall (i : nat) pos, (idx <= i < idx + n)%nat -> order !! i = Some pos ->
       grid_get g' (pos / MATRIX_WIDTH) (pos mod MATRIX_WIDTH) = Some (to_uint8 cid)) /\
    (forall (i : nat) pos, ~ (idx <= i < idx + n)%nat -> order !! i = Some pos ->
       grid_get g' (pos / MATRIX_WIDTH) (pos mod MATRIX_WIDTH)
       = grid_get g (pos / MATRIX_WIDTH) (pos mod MATRIX_WIDTH)).
Proof.
  induction n as [|n IH]; intros g idx Hlen Hrange Hnd Hsh Hfit; cbn [assignPixels].
  { exists g. rewrite Nat.add_0_r. split; [reflexivity|]. split; [exact Hsh|].
    split; [intros i pos Hi; lia|reflexivity]. }
  destruct (Z.ltb_spec (Z.of_nat idx) TOTAL_PIXELS) as [Hlt|Hge];
    [|unfold TOTAL_PIXELS in Hge; lia].
  destruct (Sampling.order_read_in_range order (Z.of_nat idx) Hlen) as (p0 & Hread & Hp0).
  { unfold TOTAL_PIXELS in *. lia. }
  rewrite Nat2Z.id in Hp0. rewrite Hread. cbn [bind].
  assert (Hp0r : 0 <= p0 < TOTAL_PIXELS).
  { rewrite Forall_forall in Hrange. apply Hrange, list_elem_of_lookup. eauto. }
  pose proof (GridFacts.position_in_grid p0 Hp0r) as Hin.
  unfold grid_write. rewrite Hin. cbn [bind].
  destruct (GridFacts.shaped_get g _ _ Hsh Hin) as [old Hold].
  set (g1 := grid_set g (p0 / MATRIX_WIDTH) (p0 mod MATRIX_WIDTH) (to_uint8 cid)).
  destruct (IH g1 (S idx) Hlen Hrange Hnd (GridFacts.shaped_set _ _ _ _ Hsh) ltac:(lia))
    as (g' & Hrun & Hsh' & Hin' & Hout').
  exists g'.
  replace (Z.of_nat idx + 1) with (Z.of_nat (S idx)) by lia.
  replace (idx + S n)%nat with (S idx + n)%nat by lia.
  split; [exact Hrun|]. split; [exact Hsh'|]. split.
  - intros i pos Hi Hpos. destruct (decide (i = idx)) as [->|Hne].
    + assert (pos = p0) by congruence. subst pos.
      rewrite (Hout' idx p0 ltac:(lia) Hp0).
      unfold g1. eapply GridFacts.grid_get_set_eq. exact Hold.
    + apply (Hin' i pos ltac:(lia) Hpos).
  - intros i pos Hi Hpos.
    rewrite (Hout' i pos ltac:(lia) Hpos). unfold g1.
    apply GridFacts.grid_get_set_ne.
    assert (Hposr : 0 <= pos < TOTAL_PIXELS).
    { rewrite Forall_forall in Hrange. apply Hrange, list_elem_of_lookup. eauto. }
    apply cell_injective; [exact Hp0r|exact Hposr|].
    intros ->. assert (i = idx); [|lia].
    eapply NoDup_lookup; eassumption.
Qed.

(** What the walk leaves in the grid when the counts fit the ordering:
    the cells of the pixels of cluster [c] hold [c]'s id, converted to
    [uint8_t]. *)
Lemma assign_loop_spec cs order (n : nat) :
  length order = 104%nat ->
  Forall (fun p => 0 <= p < TOTAL_PIXELS) order -> NoDup order ->
  (n <= length cs)%nat ->
  Forall (fun cl => 0 <= pixels cl) (take n cs) ->
  offsetOf cs n <= TOTAL_PIXELS ->
  exists g,
    for_loop n 0 (assignCluster cs order) (empty_grid, 0) = Ok (g, offsetOf cs n) /\
    GridFacts.shaped g /\
    forall (c : nat) cl (i : nat) pos,
      (c < n)%nat -> cs !! c = Some cl ->
      offsetOf cs c <= Z.of_nat i < offsetOf cs c + pixels cl ->
      order !! i = Some pos ->
      grid_get g (pos / MATRIX_WIDTH) (pos mod MATRIX_WIDTH) = Some (to_uint8 (clusterID cl)).
Proof.
  intros Hlen Hrange Hnd Hn Hnn Hfit.
  destruct (Engine.for_loop_total (assignCluster cs order)
    (fun m acc =>
       snd acc = offsetOf cs m /\ GridFacts.shaped (fst acc) /\
       forall (c : nat) cl (i : nat) pos,
         (c < m)%nat -> cs !! c = Some cl ->
         offsetOf cs c <= Z.of_nat i < offsetOf cs c + pixels cl ->
         order !! i = Some pos ->
         grid_get (fst acc) (pos / MATRIX_WIDTH) (pos mod MATRIX_WIDTH)
           = Some (to_uint8 (clusterID cl)))
    n 0 (empty_grid, 0)) as ([g off] & Hrun & Hoff & Hsh & Hcells).
  - cbn [fst snd]. split; [reflexivity|]. split; [apply GridFacts.shaped_empty|].
    intros c cl i pos Hc. lia.
  - intros m [g off] Hm (Hoff & Hsh & Hcells). cbn [fst snd] in *. subst off.
    destruct (lookup_lt_is_Some_2 cs m) as [cl Hcl]; [lia|].
    pose proof (offsetOf_mono cs n m (S m) Hnn ltac:(lia) Hn) as Hm1.
    pose proof (offsetOf_mono cs n (S m) n Hnn ltac:(lia) Hn) as Hm2.
    rewrite (offsetOf_S _ _ _ Hcl) in Hm1, Hm2.
    unfold assignCluster, cluster_read. cbn [fst snd]. rewrite Z.add_0_l.
    destruct (Z.leb_spec 0 (Z.of_nat m)); [|lia].
    rewrite Nat2Z.id, Hcl. cbn [bind].
    destruct (assignPixels_spec (clusterID cl) order (Z.to_nat (pixels cl)) g
                (Z.to_nat (offsetOf cs m)) Hlen Hrange Hnd Hsh)
      as (g' & Hrun & Hsh' & Hin & Hout).
    { unfold TOTAL_PIXELS in *. lia. }
    rewrite Z2Nat.id in Hrun by lia.
    exists (g', offsetOf cs m + pixels cl). cbn [fst snd].
    split; [rewrite Hrun; f_equal; f_equal; lia|].
    split; [symmetry; apply offsetOf_S; exact Hcl|]. split; [exact Hsh'|].
    intros c cl' i pos Hc Hcl' Hi Hpos.
    destruct (decide (c = m)) as [->|Hne].
    + assert (cl' = cl) by congruence. subst cl'.
      apply (Hin i pos); [lia|exact Hpos].
    + rewrite (Hout i pos); [apply (Hcells c cl' i pos); [lia|assumption..]| |exact Hpos].
      pose proof (offsetOf_mono cs n (S c) m Hnn ltac:(lia) Hn) as Hcm.
      rewrite (offsetOf_S _ _ _ Hcl') in Hcm. lia.
  - exists g. cbn [fst snd] in *. subst off. split; [exact Hrun|]. split; assumption.
Qed.


(** *** One iteration of the cluster loop on a consistent state *)

Definition good (st : State) : Prop := wf_state st /\ fits st /\ consistent st.

Lemma order_read_lookup order idx p :
  0 <= idx < TOTAL_PIXELS -> order !! Z.to_nat idx = Some p ->
  order_read order idx = Ok p.
Proof.
  intros Hi Hp. unfold order_read.
  destruct (Z.leb_spec 0 idx); [|lia].
  destruct (Z.ltb_spec idx TOTAL_PIXELS); [|lia]. cbn [andb]. rewrite Hp. reflexivity.
Qed.

Lemma order_write_in order idx v :
  0 <= idx < TOTAL_PIXELS -> order_write order idx v = Ok (<[Z.to_nat idx := v]> order).
Proof.
  intros Hi. unfold order_write.
  destruct (Z.leb_spec 0 idx); [|lia].
  destruct (Z.ltb_spec idx TOTAL_PIXELS); [|lia]. reflexivity.
Qed.

Definition with_order (order : list Z) (st : State) : State :=
  {| inPortfolioMode := inPortfolioMode st; clusters := clusters st;
     numClusters := numClusters st; pixelClusterID := pixelClusterID st;
     pixelIndices := order; lastUpdateTime := lastUpdateTime st |}.

(** Swapping two pixels whose cells hold the same id moves no id. *)
Lemma swapPixels_same_cluster st a b pa pb cid :
  a <> b -> 0 <= a < TOTAL_PIXELS -> 0 <= b < TOTAL_PIXELS ->
  pixelIndices st !! Z.to_nat a = Some pa ->
  pixelIndices st !! Z.to_nat b = Some pb ->
  grid_get (pixelClusterID st) (pa / MATRIX_WIDTH) (pa mod MATRIX_WIDTH) = Some cid ->
  grid_get (pixelClusterID st) (pb / MATRIX_WIDTH) (pb mod MATRIX_WIDTH) = Some cid ->
  swapPixels st a b
  = Ok (with_order (<[Z.to_nat b := pa]> (<[Z.to_nat a := pb]> (pixelIndices st))) st).
Proof.
  intros Hab Ha Hb Hpa Hpb Hga Hgb. unfold swapPixels.
  rewrite (order_read_lookup _ _ _ Ha Hpa), (order_read_lookup _ _ _ Hb Hpb). cbn [bind].
  rewrite (order_write_in _ a pb Ha). cbn [bind].
  rewrite (order_write_in _ b pa Hb). cbn [bind].
  assert (Hla : (Z.to_nat a < length (pixelIndices st))%nat)
    by (eapply lookup_lt_Some; exact Hpa).
  assert (Hlb : (Z.to_nat b < length (pixelIndices st))%nat)
    by (eapply lookup_lt_Some; exact Hpb).
  rewrite (order_read_lookup _ a pb Ha).
  2:{ rewrite list_lookup_insert_ne by lia. apply list_lookup_insert_eq. exact Hla. }
  cbn [bind].
  rewrite (order_read_lookup _ b pa Hb).
  2:{ apply list_lookup_insert_eq. rewrite length_insert. exact Hlb. }
  cbn [bind]. unfold grid_read, grid_write. rewrite Hgb, Hga. cbn [bind].
  destruct (GridFacts.grid_get_Some _ _ _ _ Hga) as [Hina _].
  destruct (GridFacts.grid_get_Some _ _ _ _ Hgb) as [Hinb _].
  rewrite Hinb. cbn [bind]. rewrite (GridFacts.grid_set_same _ _ _ _ Hgb).
  rewrite Hina. cbn [bind]. rewrite (GridFacts.grid_set_same _ _ _ _ Hga).
  reflexivity.
Qed.

Lemma good_set_timer c t st : good st -> good (set_lastUpdateTime c t st).
Proof.
  intros ([H1 H2 H3 H4 H5 H6 H7] & Hfit & Hcons). split; [|split].
  - constructor; cbn [set_lastUpdateTime clusters lastUpdateTime numClusters
                      pixelIndices pixelClusterID]; try assumption.
    rewrite length_insert. exact H2.
  - exact Hfit.
  - exact Hcons.
Qed.

Lemma findIsolated_total rng st cl off k :
  0 < pixels cl -> 0 <= off -> off + pixels cl <= TOTAL_PIXELS ->
  length (pixelIndices st) = 104%nat ->
  exists a sa k1,
    findIsolated rng st cl off k = Ok (a, sa, k1) /\ off <= a < off + pixels cl.
Proof.
  intros Hpx Hoff Hend Hlen.
  destruct (Sampling.isolated_loop_total rng st cl off (Z.to_nat (clustering cl)) 0
              (off + random (rng k) (pixels cl), -100) (S k) Hlen) as [[[a sa] k1] Hrun].
  { eapply Forall_impl; [apply Sampling.draws_in_range; exact Hpx|].
    cbn beta. intros idx Hidx. lia. }
  exists a, sa, k1. split; [exact Hrun|].
  eapply Engine.pass_in_range; [exact Hpx|exact Hrun].
Qed.

Lemma good_swap st order' :
  good st -> length order' = 104%nat ->
  Forall (fun p => 0 <= p < TOTAL_PIXELS) order' ->
  (forall (c : nat) cl (i : nat) pos,
      (c < Z.to_nat (numClusters st))%nat -> clusters st !! c = Some cl ->
      offsetOf (clusters st) c <= Z.of_nat i < offsetOf (clusters st) c + pixels cl ->
      order' !! i = Some pos ->
      grid_get (pixelClusterID st) (pos / MATRIX_WIDTH) (pos mod MATRIX_WIDTH)
      = Some (clusterID cl)) ->
  good (with_order order' st).
Proof.
  intros ([H1 H2 H3 H4 H5 H6 H7] & Hfit & Hcons) Hlen Hrange Hnew. split; [|split].
  - constructor; cbn [with_order clusters lastUpdateTime numClusters
                      pixelIndices pixelClusterID]; assumption.
  - exact Hfit.
  - exact Hnew.
Qed.

Lemma step_good rng t st k (c : nat) :
  good st -> (c < Z.to_nat (numClusters st))%nat ->
  exists st' k',
    clusterStep rng t (Z.of_nat c) (st, offsetOf (clusters st) c, k)
    = Ok (st', offsetOf (clusters st) (S c), k') /\
    good st' /\ clusters st' = clusters st /\ numClusters st' = numClusters st.
Proof.
  intros Hgood Hc.
  pose proof Hgood as ([H1 H2 H3 H4 H5 H6 H7] & Hfit & Hcons).
  unfold MAX_CLUSTERS in H3.
  destruct (lookup_lt_is_Some_2 (clusters st) c) as [cl Hcl]; [lia|].
  destruct (lookup_lt_is_Some_2 (lastUpdateTime st) c) as [last Hlast]; [lia|].
  rewrite (offsetOf_S _ _ _ Hcl).
  assert (Hpx : 0 <= pixels cl).
  { rewrite Forall_forall in H7. apply H7, list_elem_of_lookup. exists c.
    rewrite lookup_take_lt by lia. exact Hcl. }
  pose proof (offsetOf_mono _ _ 0 c H7 ltac:(lia) ltac:(lia)) as Hlo.
  pose proof (offsetOf_mono _ _ (S c) (Z.to_nat (numClusters st)) H7 ltac:(lia) ltac:(lia))
    as Hhi.
  rewrite (offsetOf_S _ _ _ Hcl) in Hhi. unfold fits in Hfit.
  set (off := offsetOf (clusters st) c) in *.
  unfold clusterStep, cluster_read.
  destruct (Z.leb_spec 0 (Z.of_nat c)); [|lia].
  rewrite Nat2Z.id, Hcl, Hlast. cbn [bind].
  destruct (notDue t last cl).
  { exists st, k. split; [reflexivity|]. split; [exact Hgood|]. split; reflexivity. }
  pose proof (good_set_timer (Z.of_nat c) t st Hgood) as Hgood1.
  set (st1 := set_lastUpdateTime (Z.of_nat c) t st) in *.
  destruct (Z.eqb_spec (pixels cl) 0) as [Hz|Hnz].
  { exists st1, k. rewrite Hz, Z.add_0_r.
    split; [reflexivity|]. split; [exact Hgood1|]. split; reflexivity. }
  assert (Hlen1 : length (pixelIndices st1) = 104%nat) by exact H4.
  destruct (findIsolated_total rng st1 cl off k ltac:(lia) ltac:(lia) ltac:(lia) Hlen1)
    as (a & sa & k1 & Hiso & Ha).
  rewrite Hiso. cbn [bind].
  rewrite Sampling.findTarget_same.
  destruct (findIsolated_total rng st1 cl off k1 ltac:(lia) ltac:(lia) ltac:(lia) Hlen1)
    as (b & sb & k2 & Htar & Hb).
  rewrite Htar. cbn [bind].
  destruct (Z.eqb_spec a b) as [Hab|Hab]; cbn [negb].
  { exists st1, k2. split; [reflexivity|]. split; [exact Hgood1|]. split; reflexivity. }
  assert (Hna : (Z.to_nat a < 104)%nat) by (unfold TOTAL_PIXELS in *; lia).
  assert (Hnb : (Z.to_nat b < 104)%nat) by (unfold TOTAL_PIXELS in *; lia).
  destruct (lookup_lt_is_Some_2 (pixelIndices st) (Z.to_nat a)) as [pa Hpa]; [lia|].
  destruct (lookup_lt_is_Some_2 (pixelIndices st) (Z.to_nat b)) as [pb Hpb]; [lia|].
  assert (Hga : grid_get (pixelClusterID st) (pa / MATRIX_WIDTH) (pa mod MATRIX_WIDTH)
                = Some (clusterID cl)).
  { apply (Hcons c cl (Z.to_nat a) pa Hc Hcl); [fold off; lia|exact Hpa]. }
  assert (Hgb : grid_get (pixelClusterID st) (pb / MATRIX_WIDTH) (pb mod MATRIX_WIDTH)
                = Some (clusterID cl)).
  { apply (Hcons c cl (Z.to_nat b) pb Hc Hcl); [fold off; lia|exact Hpb]. }
  rewrite (swapPixels_same_cluster st1 a b pa pb (clusterID cl) Hab); try assumption;
    try lia.
  cbn [bind]. eexists _, k2. split; [reflexivity|].
  split; [|split; reflexivity].
  apply good_swap; [exact Hgood1| | |].
  - cbn [st1 set_lastUpdateTime pixelIndices]. rewrite !length_insert. exact H4.
  - cbn [st1 set_lastUpdateTime pixelIndices].
    rewrite Forall_forall in H5.
    apply Forall_insert; [apply Forall_insert; [apply Forall_forall; exact H5|]|].
    + apply H5, list_elem_of_lookup. eauto.
    + apply H5, list_elem_of_lookup. eauto.
  - cbn [st1 set_lastUpdateTime pixelIndices pixelClusterID clusters numClusters].
    intros c' cl' i pos Hc' Hcl' Hi Hpos.
    destruct (decide (i = Z.to_nat b)) as [->|Hib].
    + rewrite list_lookup_insert_eq in Hpos by (rewrite length_insert; lia).
      injection Hpos as <-.
      pose proof (Hcons c' cl' (Z.to_nat b) pb Hc' Hcl' Hi Hpb) as Hg'.
      rewrite Hgb in Hg'. injection Hg' as <-. exact Hga.
    + rewrite list_lookup_insert_ne in Hpos by lia.
      destruct (decide (i = Z.to_nat a)) as [->|Hia].
      * rewrite list_lookup_insert_eq in Hpos by lia. injection Hpos as <-.
        pose proof (Hcons c' cl' (Z.to_nat a) pa Hc' Hcl' Hi Hpa) as Hg'.
        rewrite Hga in Hg'. injection Hg' as <-. exact Hgb.
      * rewrite list_lookup_insert_ne in Hpos by lia.
        exact (Hcons c' cl' i pos Hc' Hcl' Hi Hpos).
Qed.


(** *** Whole calls *)

Lemma update_good rng t st k :
  good st ->
  exists st' k',
    updatePortfolioPattern rng t st k = Ok (st', k') /\ good st' /\
    clusters st' = clusters st /\ numClusters st' = numClusters st.
Proof.
  intros Hgood. unfold updatePortfolioPattern.
  destruct (Engine.for_loop_total (clusterStep rng t)
    (fun m fr =>
       good (fst (fst fr)) /\ clusters (fst (fst fr)) = clusters st /\
       numClusters (fst (fst fr)) = numClusters st /\
       snd (fst fr) = offsetOf (clusters st) m)
    (Z.to_nat (numClusters st)) 0 (st, 0, k))
    as ([[st' off'] k'] & Hrun & Hg & Hc & Hn & _).
  - cbn [fst snd]. repeat split; try reflexivity; apply Hgood.
  - intros m [[s off] j] Hm (Hg & Hc & Hn & Hoff). cbn [fst snd] in *. subst off.
    destruct (step_good rng t s j m Hg) as (s' & j' & Hstep & Hg' & Hc' & Hn').
    { rewrite Hn. exact Hm. }
    rewrite Hc in Hstep. rewrite Z.add_0_l.
    exists (s', offsetOf (clusters st) (S m), j'). cbn [fst snd].
    split; [exact Hstep|]. split; [exact Hg'|].
    split; [congruence|]. split; [congruence|reflexivity].
  - rewrite Hrun. cbn [bind fst snd] in *. exists st', k'.
    split; [reflexivity|]. split; [exact Hg|]. split; assumption.
Qed.

Lemma runUpdates_good rng ts : forall st k,
  good st ->
  exists st' k',
    runUpdates rng ts st k = Ok (st', k') /\ good st' /\
    clusters st' = clusters st /\ numClusters st' = numClusters st.
Proof.
  induction ts as [|t ts IH]; intros st k Hgood; cbn [runUpdates].
  { exists st, k. split; [reflexivity|]. split; [exact Hgood|]. split; reflexivity. }
  destruct (update_good rng t st k Hgood) as (s1 & k1 & Hrun & Hg1 & Hc1 & Hn1).
  rewrite Hrun. cbn [bind fst snd].
  destruct (IH s1 k1 Hg1) as (s2 & k2 & Hrun2 & Hg2 & Hc2 & Hn2).
  exists s2, k2. split; [exact Hrun2|]. split; [exact Hg2|].
  split; congruence.
Qed.

Lemma resetTimers_length timers : length (resetTimers timers) = length timers.
Proof.
  unfold resetTimers. generalize (seq 0 (Z.to_nat MAX_CLUSTERS)). intros l.
  revert timers. induction l as [|i l IH]; intros timers; cbn [foldl]; [reflexivity|].
  rewrite IH. apply length_insert.
Qed.

Lemma resetTimers_zero timers :
  length timers = 6%nat -> resetTimers timers = replicate 6 0.
Proof.
  intros H. do 7 (destruct timers as [|? timers]; try discriminate). reflexivity.
Qed.

(** What [parseClusterData] guarantees about the state it leaves. *)
Lemma parse_facts json st :
  length (clusters st) = 6%nat ->
  let st0 := parseClusterData json st in
  length (clusters st0) = 6%nat /\
  0 <= numClusters st0 <= MAX_CLUSTERS /\
  Forall Loader.clamped (take (Z.to_nat (numClusters st0)) (clusters st0)) /\
  inPortfolioMode st0 = inPortfolioMode st /\
  pixelClusterID st0 = pixelClusterID st /\
  pixelIndices st0 = pixelIndices st /\
  lastUpdateTime st0 = lastUpdateTime st.
Proof.
  intros Hlen st0. subst st0. rewrite (Loader.parseClusterData_spec json st Hlen).
  cbn [clusters numClusters inPortfolioMode pixelClusterID pixelIndices lastUpdateTime].
  pose proof (Loader.records_length json) as Hn.
  split.
  { rewrite length_app, length_drop. lia. }
  split; [unfold MAX_CLUSTERS; lia|].
  split; [|repeat split].
  rewrite Nat2Z.id, take_app_length. apply Loader.records_clamped.
Qed.

(** [setPortfolioMode] on a configuration that fits, with ids that fit
    [uint8_t], over an ordering that is a permutation. *)
Lemma set_good json st :
  length (clusters st) = 6%nat -> length (lastUpdateTime st) = 6%nat ->
  is_permutation (pixelIndices st) ->
  let st0 := parseClusterData json st in
  numClusters st0 <> 0 ->
  fits st0 ->
  Forall (fun cl => 0 <= clusterID cl < 256)
         (take (Z.to_nat (numClusters st0)) (clusters st0)) ->
  exists st1,
    setPortfolioMode json st = Ok st1 /\ good st1 /\
    inPortfolioMode st1 = true /\
    clusters st1 = clusters st0 /\ numClusters st1 = numClusters st0 /\
    pixelIndices st1 = pixelIndices st /\
    lastUpdateTime st1 = replicate 6 0.
Proof.
  intros Hlen Htim Hperm st0 Hnz Hfit Hids.
  destruct (parse_facts json st Hlen) as (Hl0 & Hn0 & Hcl0 & _ & _ & Ho0 & Ht0).
  fold st0 in Hl0, Hn0, Hcl0, Ho0, Ht0.
  destruct (is_permutation_facts _ Hperm) as (Holen & Horange & Hnd).
  assert (Hnn : Forall (fun cl => 0 <= pixels cl)
                  (take (Z.to_nat (numClusters st0)) (clusters st0))).
  { eapply Forall_impl; [exact Hcl0|]. intros cl (Hp & _). lia. }
  unfold setPortfolioMode. fold st0.
  destruct (Z.eqb_spec (numClusters st0) 0) as [|_]; [contradiction|].
  rewrite Ho0.
  destruct (assign_loop_spec (clusters st0) (pixelIndices st) (Z.to_nat (numClusters st0))
              Holen Horange Hnd) as (g & Hrun & Hsh & Hcells).
  { unfold MAX_CLUSTERS in Hn0. lia. }
  { exact Hnn. }
  { exact Hfit. }
  rewrite Hrun. cbn [bind fst snd].
  eexists. split; [reflexivity|].
  cbn [inPortfolioMode clusters numClusters pixelIndices lastUpdateTime].
  split; [|split; [reflexivity|split; [reflexivity|split; [reflexivity|split;
            [reflexivity|rewrite Ht0; apply resetTimers_zero; exact Htim]]]]].
  split; [|split].
  - constructor; cbn [inPortfolioMode clusters numClusters pixelIndices lastUpdateTime
                       pixelClusterID]; try assumption.
    rewrite resetTimers_length, Ht0. exact Htim.
  - exact Hfit.
  - intros c cl i pos Hc Hcl Hi Hpos.
    cbn [clusters numClusters pixelIndices pixelClusterID] in *.
    rewrite (Hcells c cl i pos Hc Hcl Hi Hpos). f_equal.
    unfold to_uint8. apply Z.mod_small.
    rewrite Forall_forall in Hids. apply Hids, list_elem_of_lookup. exists c.
    rewrite lookup_take_lt by exact Hc. exact Hcl.
Qed.

End Layout.

(** ** When the update step returns *)

Module Totality.
Import Layout.

Lemma wf_set_timer c t st : wf_state st -> wf_state (set_lastUpdateTime c t st).
Proof.
  intros [H1 H2 H3 H4 H5 H6 H7].
  constructor; cbn [set_lastUpdateTime clusters lastUpdateTime numClusters
                    pixelIndices pixelClusterID]; try assumption.
  rewrite length_insert. exact H2.
Qed.

(** On a well-formed state a swap of two indices below 104 returns. *)
Lemma swapPixels_total st a b :
  wf_state st -> 0 <= a < TOTAL_PIXELS -> 0 <= b < TOTAL_PIXELS ->
  exists st',
    swapPixels st a b = Ok st' /\ wf_state st' /\
    clusters st' = clusters st /\ numClusters st' = numClusters st.
Proof.
  intros [H1 H2 H3 H4 H5 H6 H7] Ha Hb.
  assert (Hna : (Z.to_nat a < 104)%nat) by (unfold TOTAL_PIXELS in *; lia).
  assert (Hnb : (Z.to_nat b < 104)%nat) by (unfold TOTAL_PIXELS in *; lia).
  destruct (lookup_lt_is_Some_2 (pixelIndices st) (Z.to_nat a)) as [pa Hpa]; [lia|].
  destruct (lookup_lt_is_Some_2 (pixelIndices st) (Z.to_nat b)) as [pb Hpb]; [lia|].
  set (order2 := <[Z.to_nat b := pa]> (<[Z.to_nat a := pb]> (pixelIndices st))).
  assert (Hlen2 : length order2 = 104%nat).
  { unfold order2. rewrite !length_insert. exact H4. }
  assert (Hrange2 : Forall (fun p => 0 <= p < TOTAL_PIXELS) order2).
  { unfold order2. rewrite Forall_forall in H5.
    apply Forall_insert; [apply Forall_insert; [apply Forall_forall; exact H5|]|];
      apply H5, list_elem_of_lookup; eauto. }
  destruct (lookup_lt_is_Some_2 order2 (Z.to_nat a)) as [pos1 Hp1]; [lia|].
  destruct (lookup_lt_is_Some_2 order2 (Z.to_nat b)) as [pos2 Hp2]; [lia|].
  assert (Hr1 : 0 <= pos1 < TOTAL_PIXELS).
  { rewrite Forall_forall in Hrange2. apply Hrange2, list_elem_of_lookup. eauto. }
  assert (Hr2 : 0 <= pos2 < TOTAL_PIXELS).
  { rewrite Forall_forall in Hrange2. apply Hrange2, list_elem_of_lookup. eauto. }
  pose proof (GridFacts.position_in_grid pos1 Hr1) as Hin1.
  pose proof (GridFacts.position_in_grid pos2 Hr2) as Hin2.
  destruct (GridFacts.shaped_get _ _ _ H6 Hin1) as [v1 Hv1].
  destruct (GridFacts.shaped_get _ _ _ H6 Hin2) as [v2 Hv2].
  unfold swapPixels.
  rewrite (order_read_lookup _ _ _ Ha Hpa), (order_read_lookup _ _ _ Hb Hpb). cbn [bind].
  rewrite (order_write_in _ a pb Ha). cbn [bind].
  rewrite (order_write_in _ b pa Hb). cbn [bind]. fold order2.
  rewrite (order_read_lookup _ a pos1 Ha Hp1), (order_read_lookup _ b pos2 Hb Hp2).
  cbn [bind]. unfold grid_read, grid_write. rewrite Hv1, Hv2. cbn [bind].
  rewrite Hin1. cbn [bind]. rewrite Hin2. cbn [bind].
  eexists. split; [reflexivity|]. split; [|split; reflexivity].
  constructor; cbn [clusters lastUpdateTime numClusters pixelIndices pixelClusterID];
    try assumption.
  apply GridFacts.shaped_set, GridFacts.shaped_set. exact H6.
Qed.

Lemma step_total rng t st k (c : nat) :
  wf_state st -> fits st -> (c < Z.to_nat (numClusters st))%nat ->
  exists st' k',
    clusterStep rng t (Z.of_nat c) (st, offsetOf (clusters st) c, k)
    = Ok (st', offsetOf (clusters st) (S c), k') /\
    wf_state st' /\ clusters st' = clusters st /\ numClusters st' = numClusters st.
Proof.
  intros Hwf Hfit Hc.
  pose proof Hwf as [H1 H2 H3 H4 H5 H6 H7].
  unfold MAX_CLUSTERS in H3.
  destruct (lookup_lt_is_Some_2 (clusters st) c) as [cl Hcl]; [lia|].
  destruct (lookup_lt_is_Some_2 (lastUpdateTime st) c) as [last Hlast]; [lia|].
  rewrite (offsetOf_S _ _ _ Hcl).
  assert (Hpx : 0 <= pixels cl).
  { rewrite Forall_forall in H7. apply H7, list_elem_of_lookup. exists c.
    rewrite lookup_take_lt by lia. exact Hcl. }
  pose proof (offsetOf_mono _ _ 0 c H7 ltac:(lia) ltac:(lia)) as Hlo.
  pose proof (offsetOf_mono _ _ (S c) (Z.to_nat (numClusters st)) H7 ltac:(lia) ltac:(lia))
    as Hhi.
  rewrite (offsetOf_S _ _ _ Hcl) in Hhi. unfold fits in Hfit.
  set (off := offsetOf (clusters st) c) in *.
  unfold clusterStep, cluster_read.
  destruct (Z.leb_spec 0 (Z.of_nat c)); [|lia].
  rewrite Nat2Z.id, Hcl, Hlast. cbn [bind].
  destruct (notDue t last cl).
  { exists st, k. split; [reflexivity|]. split; [exact Hwf|]. split; reflexivity. }
  pose proof (wf_set_timer (Z.of_nat c) t st Hwf) as Hwf1.
  set (st1 := set_lastUpdateTime (Z.of_nat c) t st) in *.
  destruct (Z.eqb_spec (pixels cl) 0) as [Hz|Hnz].
  { exists st1, k. rewrite Hz, Z.add_0_r.
    split; [reflexivity|]. split; [exact Hwf1|]. split; reflexivity. }
  assert (Hlen1 : length (pixelIndices st1) = 104%nat) by exact H4.
  destruct (findIsolated_total rng st1 cl off k ltac:(lia) ltac:(lia) ltac:(lia) Hlen1)
    as (a & sa & k1 & Hiso & Ha).
  rewrite Hiso. cbn [bind].
  rewrite Sampling.findTarget_same.
  destruct (findIsolated_total rng st1 cl off k1 ltac:(lia) ltac:(lia) ltac:(lia) Hlen1)
    as (b & sb & k2 & Htar & Hb).
  rewrite Htar. cbn [bind].
  destruct (Z.eqb_spec a b) as [Hab|Hab]; cbn [negb].
  { exists st1, k2. split; [reflexivity|]. split; [exact Hwf1|]. split; reflexivity. }
  destruct (swapPixels_total st1 a b Hwf1 ltac:(lia) ltac:(lia))
    as (st2 & Hsw & Hwf2 & Hc2 & Hn2).
  rewrite Hsw. cbn [bind]. exists st2, k2.
  split; [reflexivity|]. split; [exact Hwf2|]. split; assumption.
Qed.

(** A call of [updatePortfolioPattern] returns on every well-formed state
    whose pixel counts fit the ordering. *)
Lemma update_total rng t st k :
  wf_state st -> fits st ->
  exists st' k',
    updatePortfolioPattern rng t st k = Ok (st', k') /\ wf_state st' /\
    clusters st' = clusters st /\ numClusters st' = numClusters st.
Proof.
  intros Hwf Hfit. unfold updatePortfolioPattern.
  destruct (Engine.for_loop_total (clusterStep rng t)
    (fun m fr =>
       wf_state (fst (fst fr)) /\ clusters (fst (fst fr)) = clusters st /\
       numClusters (fst (fst fr)) = numClusters st /\
       snd (fst fr) = offsetOf (clusters st) m)
    (Z.to_nat (numClusters st)) 0 (st, 0, k))
    as ([[st' off'] k'] & Hrun & Hg & Hc & Hn & _).
  - cbn [fst snd]. split; [exact Hwf|]. repeat split.
  - intros m [[s off] j] Hm (Hg & Hc & Hn & Hoff). cbn [fst snd] in *. subst off.
    destruct (step_total rng t s j m Hg) as (s' & j' & Hstep & Hg' & Hc' & Hn').
    { unfold fits. rewrite Hc, Hn. exact Hfit. }
    { rewrite Hn. exact Hm. }
    rewrite Hc in Hstep. rewrite Z.add_0_l.
    exists (s', offsetOf (clusters st) (S m), j'). cbn [fst snd].
    split; [exact Hstep|]. split; [exact Hg'|].
    split; [congruence|]. split; [congruence|reflexivity].
  - rewrite Hrun. cbn [bind fst snd] in *. exists st', k'.
    split; [reflexivity|]. split; [exact Hg|]. split; assumption.
Qed.

End Totality.

(** ** Configurations and states used in the examples *)

Definition bright_json : string :=
  json_of "[{'cluster_id':1,'pixels':20,'brightness':300,'clustering':3,'speed':100,'symbol':'AAPL'}]".

Definition overrun_json : string :=
  json_of "[{'cluster_id':1,'pixels':104,'brightness':180,'clustering':3,'speed':500,'symbol':'AAPL'},{'cluster_id':2,'pixels':104,'brightness':180,'clustering':3,'speed':10,'symbol':'MSFT'}]".

Definition fitting_json : string :=
  json_of "[{'cluster_id':1,'pixels':20,'brightness':180,'clustering':3,'speed':100,'symbol':'AAPL'},{'cluster_id':2,'pixels':30,'brightness':150,'clustering':5,'speed':40,'symbol':'MSFT'},{'cluster_id':0,'pixels':54,'brightness':90,'clustering':2,'speed':250}]".

Definition striped_grid : Grid :=
  replicate 8 [1; 2; 1; 2; 1; 2; 1; 2; 1; 2; 1; 2; 1].

Definition busy_state : State :=
  {| inPortfolioMode := true;
     clusters := replicate 6 (mkCluster 1 10 200 3 50 "X");
     numClusters := 2;
     pixelClusterID := replicate 8 (replicate 13 1);
     pixelIndices := rev identity_order;
     lastUpdateTime := [700; 650; 0; 0; 0; 0] |}.

Definition overrun_state : State :=
  Eval vm_compute in
    match setPortfolioMode overrun_json initial_state with
    | Ok st => st
    | Fault _ => initial_state
    end.

Definition demo_after : State :=
  Eval vm_compute in
    match updatePortfolioPattern demo_rng 1000 demo_state 0 with
    | Ok r => fst r
    | Fault _ => demo_state
    end.

Definition fit_state : State :=
  Eval vm_compute in
    match setPortfolioMode fitting_json initial_state with
    | Ok st => st
    | Fault _ => initial_state
    end.

Definition fit_after : State :=
  Eval vm_compute in
    match updatePortfolioPattern demo_rng 60 fit_state 0 with
    | Ok r => fst r
    | Fault _ => fit_state
    end.

Definition idle_state : State :=
  Eval vm_compute in
    match setPortfolioMode "[]" demo_after with
    | Ok s => s
    | Fault _ => demo_after
    end.

Definition fit_again : State :=
  Eval vm_compute in
    match setPortfolioMode fitting_json demo_after with
    | Ok s => s
    | Fault _ => demo_after
    end.

(** * The properties of the specification *)

(** ** Neighbour counts *)

(** C10. [countClusterNeighbors] and [countOtherClusterNeighbors] count
    exactly those of the eight surrounding coordinates that are cells of
    the matrix and satisfy their test (a coordinate outside the matrix
    adds to neither, and nothing wraps around); hence, for every cluster id,
    both are at most 3 at a corner cell, at most 5 at an edge cell that is
    not a corner, and at most 8 at an interior cell. *)
Theorem neighbor_counts_bounded (g : Grid) (x y id : Z) :
  0 <= x < MATRIX_WIDTH -> 0 <= y < MATRIX_HEIGHT ->
  let same := countClusterNeighbors g x y id in
  let other := countOtherClusterNeighbors g x y id in
  same = Scorer.tally (Scorer.isSame g id) (Scorer.gridNeighbors x y) /\
  other = Scorer.tally (Scorer.isOther g id) (Scorer.gridNeighbors x y) /\
  (forall p, In p (Scorer.gridNeighbors x y) ->
     In p (Scorer.surrounding x y) /\ in_grid (fst p) (snd p) = true) /\
  (Scorer.is_corner x y -> 0 <= same <= 3 /\ 0 <= other <= 3) /\
  (Scorer.is_edge x y -> 0 <= same <= 5 /\ 0 <= other <= 5) /\
  (Scorer.is_interior x y -> 0 <= same <= 8 /\ 0 <= other <= 8).
Proof.
  intros Hx Hy same other.
  assert (Hs : same = Scorer.tally (Scorer.isSame g id) (Scorer.gridNeighbors x y))
    by apply Scorer.countClusterNeighbors_tally.
  assert (Ho : other = Scorer.tally (Scorer.isOther g id) (Scorer.gridNeighbors x y))
    by apply Scorer.countOtherClusterNeighbors_tally.
  pose proof (Scorer.tally_bounds (Scorer.isSame g id) (Scorer.gridNeighbors x y)) as Bs.
  pose proof (Scorer.tally_bounds (Scorer.isOther g id) (Scorer.gridNeighbors x y)) as Bo.
  destruct (Scorer.gridNeighbors_count x y Hx Hy) as (Hc & He & Hi).
  split; [exact Hs|]. split; [exact Ho|]. split.
  { intros p Hp. unfold Scorer.gridNeighbors in Hp.
    apply list_elem_of_In, list_elem_of_filter in Hp. destruct Hp as [Hin Hel].
    split; [apply list_elem_of_In; exact Hel|exact Hin]. }
  rewrite Hs, Ho.
  split; [|split]; intros Hk.
  - rewrite (Hc Hk) in Bs, Bo. lia.
  - rewrite (He Hk) in Bs, Bo. lia.
  - rewrite (Hi Hk) in Bs, Bo. lia.
Qed.

Lemma neighbor_counts_bounded_witness :
  0 <= 0 < MATRIX_WIDTH /\ 0 <= 7 < MATRIX_HEIGHT /\
  countClusterNeighbors striped_grid 0 7 1 <= 3 /\
  countOtherClusterNeighbors striped_grid 0 7 1 <= 3.
Proof.
  assert (Hx : 0 <= 0 < MATRIX_WIDTH) by (unfold MATRIX_WIDTH; lia).
  assert (Hy : 0 <= 7 < MATRIX_HEIGHT) by (unfold MATRIX_HEIGHT; lia).
  split; [exact Hx|]. split; [exact Hy|].
  destruct (neighbor_counts_bounded striped_grid 0 7 1 Hx Hy)
    as (_ & _ & _ & Hc & _).
  destruct Hc as [Hs Ho]; [unfold Scorer.is_corner; lia|].
  split; [apply Hs|apply Ho].
Defined.

(** ** Loading a configuration *)

(** C5. A raw brightness of 300 is converted to [uint8_t] before it is
    constrained: the scanner reads 300, whose clamp to [80,220] is 220, and
    stores 80. *)
Theorem brightness_300_stored_as_80 :
  let st := parseClusterData bright_json initial_state in
  numClusters st = 1 /\
  extractInt bright_json "brightness" = 300 /\
  constrain 300 80 220 = 220 /\
  brightness <$> (clusters st !! 0%nat) = Some 80.
Proof. vm_compute. repeat split; reflexivity. Qed.

Lemma parseCluster_brightness objBuf :
  brightness (parseCluster objBuf)
  = constrain (extractInt objBuf "brightness" mod 256) 80 220.
Proof. reflexivity. Qed.

(** C2, as stated, fails: two records that each ask for 104 pixels are both
    kept at 104, and the sum is 208. *)
Lemma pixel_sum_exceeds_capacity :
  ~ (forall json st, sumPixels (parseClusterData json st) <= TOTAL_PIXELS).
Proof.
  intros H. specialize (H overrun_json initial_state).
  vm_compute in H. apply H. reflexivity.
Qed.

Lemma sum_clamped_pixels (l : list ClusterData) :
  Forall Loader.clamped l ->
  0 <= foldr Z.add 0 (map pixels l) <= TOTAL_PIXELS * Z.of_nat (length l).
Proof.
  induction 1 as [|cl l Hcl _ IH]; cbn [map foldr length]; [lia|].
  destruct Hcl as [Hp _]. unfold TOTAL_PIXELS in *. lia.
Qed.

(** C2, amended. After [parseClusterData] on any input, at most
    [MAX_CLUSTERS] clusters are parsed, each of them has its [pixels] field
    within [0, 104], and so the sum of the fields is at most 104 times the
    number of clusters (624 at most); the clamp is per record. *)
Theorem pixel_sum_bounded_per_cluster (json : string) (st : State) :
  length (clusters st) = 6%nat ->
  let st' := parseClusterData json st in
  0 <= numClusters st' <= MAX_CLUSTERS /\
  (forall c cl, (c < Z.to_nat (numClusters st'))%nat ->
     clusters st' !! c = Some cl -> 0 <= pixels cl <= TOTAL_PIXELS) /\
  0 <= sumPixels st' <= TOTAL_PIXELS * numClusters st' /\
  sumPixels st' <= 624.
Proof.
  intros Hlen st'. subst st'. rewrite (Loader.parseClusterData_spec json st Hlen).
  unfold sumPixels. cbn [numClusters clusters].
  pose proof (Loader.records_length json) as Hn.
  pose proof (Loader.records_clamped json) as Hc.
  rewrite Nat2Z.id, take_app_length.
  pose proof (sum_clamped_pixels _ Hc) as Hs.
  unfold MAX_CLUSTERS, TOTAL_PIXELS in *.
  split; [lia|]. split; [|lia].
  intros c cl Hlt Hlk. rewrite lookup_app_l in Hlk by exact Hlt.
  rewrite Forall_forall in Hc. apply (Hc cl).
  apply list_elem_of_lookup. eauto.
Qed.

Lemma pixel_sum_bounded_per_cluster_witness :
  length (clusters initial_state) = 6%nat /\
  sumPixels (parseClusterData overrun_json initial_state) <= 624.
Proof.
  split; [reflexivity|].
  apply (pixel_sum_bounded_per_cluster overrun_json initial_state). reflexivity.
Defined.

Lemma parseClusterData_none (json : string) (st : State) :
  numClusters (parseClusterData json st) = 0 ->
  parseClusterData json st = set_numClusters 0 st.
Proof.
  unfold parseClusterData. destruct (strchr json "[") as [pos|]; [|reflexivity].
  intros H. apply Loader.parseLoop_numClusters. exact H.
Qed.

(** C7. When parsing yields no cluster, [setPortfolioMode] turns the mode
    off and leaves the assignment grid, the pixel ordering, the timers (and
    the stored descriptors) as they were; every later sequence of
    [updatePortfolioPattern] calls returns the state it was given and draws
    no random number. *)
Theorem empty_configuration_disables (json : string) (st : State) :
  numClusters (parseClusterData json st) = 0 ->
  exists st',
    setPortfolioMode json st = Ok st' /\
    inPortfolioMode st' = false /\
    numClusters st' = 0 /\
    clusters st' = clusters st /\
    pixelClusterID st' = pixelClusterID st /\
    pixelIndices st' = pixelIndices st /\
    lastUpdateTime st' = lastUpdateTime st /\
    forall rng ts k, runUpdates rng ts st' k = Ok (st', k).
Proof.
  intros H0. unfold setPortfolioMode.
  rewrite (parseClusterData_none json st H0).
  cbn [set_numClusters numClusters clusters pixelClusterID pixelIndices
       lastUpdateTime Z.eqb].
  eexists. split; [reflexivity|].
  cbn [inPortfolioMode numClusters clusters pixelClusterID pixelIndices lastUpdateTime].
  repeat (split; [reflexivity|]).
  intros rng ts k. induction ts as [|t ts IH]; [reflexivity|].
  cbn [runUpdates]. unfold updatePortfolioPattern at 1.
  cbn [numClusters Z.to_nat for_loop bind fst snd]. exact IH.
Qed.

Lemma empty_configuration_disables_witness :
  numClusters (parseClusterData "[]" busy_state) = 0 /\
  exists st',
    setPortfolioMode "[]" busy_state = Ok st' /\
    inPortfolioMode st' = false /\
    lastUpdateTime st' = [700; 650; 0; 0; 0; 0] /\
    runUpdates (fun _ => 5%N) [800; 900] st' 0 = Ok (st', 0%nat).
Proof.
  split; [reflexivity|].
  destruct (empty_configuration_disables "[]" busy_state eq_refl)
    as (st' & Hset & Hmode & _ & _ & _ & _ & Ht & Hrun).
  exists st'. repeat split; [exact Hset|exact Hmode|exact Ht|apply Hrun].
Defined.

(** ** Indexing the pixel ordering *)

(** C1. The update step can index past the pixel ordering. The
    configuration [overrun_json] (two records of 104 pixels each) is
    accepted by [setPortfolioMode]; at time 100 the first cluster is not
    due, so [pixelOffset] reaches 104, the second is due, and its first
    sample reads [pixelIndices] at an index that is at least 104, whatever
    the random source returns. *)
Theorem update_indexes_past_ordering (rng : Rng) (k : nat) :
  exists st idx,
    setPortfolioMode overrun_json initial_state = Ok st /\
    sumPixels st = 208 /\
    updatePortfolioPattern rng 100 st k = Fault (PixelIndexOutOfRange idx) /\
    TOTAL_PIXELS <= idx.
Proof.
  exists overrun_state, (104 + random (rng (S k)) 104).
  split; [vm_compute; reflexivity|].
  split; [vm_compute; reflexivity|].
  pose proof (random_range (rng (S k)) 104 ltac:(lia)) as Hr.
  split; [|unfold TOTAL_PIXELS; lia].
  unfold updatePortfolioPattern.
  change (Z.to_nat (numClusters overrun_state)) with 2%nat.
  cbn [for_loop].
  assert (E1 : clusterStep rng 100 0 (overrun_state, 0, k) = Ok (overrun_state, 104, k))
    by reflexivity.
  rewrite E1. cbn [bind].
  unfold clusterStep.
  set (cl2 := mkCluster 2 104 180 3 10 "MSFT").
  change (cluster_read (clusters overrun_state) (0 + 1)) with (Ok cl2).
  cbn [bind].
  change (lastUpdateTime overrun_state !! Z.to_nat (0 + 1)) with (Some 0).
  change (notDue 100 0 cl2) with false.
  change (pixels cl2 =? 0) with false. cbn iota.
  unfold findIsolated.
  change (Z.to_nat (clustering cl2)) with 3%nat.
  cbn [for_loop]. unfold isolatedBody at 1.
  change (pixels cl2) with 104.
  rewrite order_read_past by (unfold TOTAL_PIXELS; lia).
  reflexivity.
Qed.

(** ** The selection passes *)

(** C4. For a cluster with [pixels > 0] and [clustering >= 1], each of the
    two selection passes draws [clustering] logical indices, one call of
    [random(pixels)] each (so with replacement), all inside the cluster's
    range; whenever a pass returns, its result is the first drawn index whose
    score [same - other] is the maximum over the drawn indices, the score it
    reports is at least -8, and the fallback drawn before the loop plays no
    part. The isolation pass is the same function as the target pass, so it
    maximises the very same score. A pass returns whenever the range lies
    inside the ordering. In the iteration of [updatePortfolioPattern] for
    such a cluster, when it is due, the two indices handed to the swap are
    these first maxima of the two runs of samples. *)
Theorem passes_keep_first_maximum (rng : Rng) (st : State)
    (cluster : ClusterData) (pixelOffset : Z) (k : nat) :
  0 < pixels cluster -> 1 <= clustering cluster ->
  let n := Z.to_nat (clustering cluster) in
  let samples := Sampling.draws rng pixelOffset (pixels cluster) (S k) n in
  length samples = n /\
  Forall (fun idx => pixelOffset <= idx < pixelOffset + pixels cluster) samples /\
  findIsolated rng st cluster pixelOffset k = findTarget rng st cluster pixelOffset k /\
  (forall pass, pass = findIsolated \/ pass = findTarget ->
   forall best sc k', pass rng st cluster pixelOffset k = Ok (best, sc, k') ->
     k' = (S k + n)%nat /\
     Sampling.firstMax (Sampling.scoreOf st cluster) samples best /\
     sc = Sampling.scoreOf st cluster best /\ -8 <= sc) /\
  (0 <= pixelOffset -> pixelOffset + pixels cluster <= TOTAL_PIXELS ->
   length (pixelIndices st) = 104%nat ->
   exists r, findIsolated rng st cluster pixelOffset k = Ok r) /\
  (forall t c last st' off' k',
     clusters st !! Z.to_nat c = Some cluster ->
     lastUpdateTime st !! Z.to_nat c = Some last ->
     notDue t last cluster = false ->
     clusterStep rng t c (st, pixelOffset, k) = Ok (st', off', k') ->
     let st1 := set_lastUpdateTime c t st in
     let k1 := (S k + n)%nat in
     exists bestIsolatedIdx bestTargetIdx,
       Sampling.firstMax (Sampling.scoreOf st1 cluster) samples bestIsolatedIdx /\
       Sampling.firstMax (Sampling.scoreOf st1 cluster)
         (Sampling.draws rng pixelOffset (pixels cluster) (S k1) n) bestTargetIdx /\
       k' = (S k1 + n)%nat /\
       (bestIsolatedIdx = bestTargetIdx /\ st' = st1 \/
        bestIsolatedIdx <> bestTargetIdx /\
        swapPixels st1 bestIsolatedIdx bestTargetIdx = Ok st')).
Proof.
  intros Hpx Hcl n samples.
  split; [apply Sampling.draws_length|].
  split; [apply Sampling.draws_in_range; exact Hpx|].
  split; [reflexivity|]. split; [|split].
  - intros pass Hpass best sc k' Hrun.
    assert (Hiso : findIsolated rng st cluster pixelOffset k = Ok (best, sc, k')).
    { destruct Hpass as [->| ->]; exact Hrun. }
    exact (Engine.findIsolated_first_max _ _ _ _ _ _ _ _ Hpx Hcl Hiso).
  - intros Hoff Hend Hlen. unfold findIsolated.
    apply Sampling.isolated_loop_total; [exact Hlen|].
    eapply Forall_impl; [apply Sampling.draws_in_range; exact Hpx|].
    cbn beta. intros idx Hidx. lia.
  - intros t c last st' off' k' Hc Hlast Hdue Hstep st1 k1.
    apply Engine.clusterStep_Ok in Hstep.
    destruct Hstep as (cl & last' & _ & Hc' & Hlast' & Hout).
    assert (cl = cluster) by congruence. assert (last' = last) by congruence.
    subst cl last'.
    destruct Hout as [Hd _ _ _|_ Hz _ _ _|a sa ka b sb _ _ Hiso Htar _ Hsw];
      [congruence|lia|].
    fold st1 in Hiso, Htar, Hsw.
    destruct (Engine.findIsolated_first_max _ _ _ _ _ _ _ _ Hpx Hcl Hiso)
      as (Hka & Hfa & _).
    rewrite Sampling.findTarget_same in Htar.
    destruct (Engine.findIsolated_first_max _ _ _ _ _ _ _ _ Hpx Hcl Htar)
      as (Hkb & Hfb & _).
    fold n in Hka, Hfa, Hkb, Hfb. subst ka. fold k1 in Hkb, Hfb.
    exists a, b. split; [exact Hfa|]. split; [exact Hfb|]. split; [exact Hkb|exact Hsw].
Qed.

Lemma passes_keep_first_maximum_witness :
  0 < pixels demo_cluster /\ 1 <= clustering demo_cluster /\
  findIsolated demo_rng demo_state demo_cluster 0 0 = Ok (15, 2, 4%nat) /\
  Sampling.firstMax (Sampling.scoreOf demo_state demo_cluster) [11; 15; 13] 15.
Proof.
  assert (H1 : 0 < pixels demo_cluster) by (cbn; lia).
  assert (H2 : 1 <= clustering demo_cluster) by (cbn; lia).
  assert (Hrun : findIsolated demo_rng demo_state demo_cluster 0 0 = Ok (15, 2, 4%nat))
    by (vm_compute; reflexivity).
  destruct (passes_keep_first_maximum demo_rng demo_state demo_cluster 0 0 H1 H2)
    as (_ & _ & _ & Hp & _ & _).
  destruct (Hp findIsolated (or_introl eq_refl) 15 2 4%nat Hrun) as (_ & Hfm & _).
  repeat split; assumption.
Defined.

(** ** The multiset of cluster ids on the grid *)

(** C8. A call of [updatePortfolioPattern] leaves the multiset of the
    values stored in the assignment grid as it was: whenever the call
    returns, the flattened grid afterwards is a permutation of the flattened
    grid before, and for every cluster id the number of cells that hold it
    is the same (a swap exchanges the contents of two cells). The call
    returns on every state whose arrays are well formed and whose pixel
    counts fit the ordering. *)
Theorem update_preserves_grid_multiset (rng : Rng) (t : Z) (st : State) (k : nat) :
  (forall st' k',
     updatePortfolioPattern rng t st k = Ok (st', k') ->
     Permutation (concat (pixelClusterID st')) (concat (pixelClusterID st)) /\
     forall id, GridFacts.cellsWith (pixelClusterID st') id
                = GridFacts.cellsWith (pixelClusterID st) id) /\
  (Layout.wf_state st -> Layout.fits st ->
   exists st' k', updatePortfolioPattern rng t st k = Ok (st', k')).
Proof.
  split.
  2:{ intros Hwf Hfit.
      destruct (Totality.update_total rng t st k Hwf Hfit) as (st' & k' & Hrun & _).
      eauto. }
  intros st' k' Hrun.
  assert (Hcount : forall id, GridFacts.cellsWith (pixelClusterID st') id
                              = GridFacts.cellsWith (pixelClusterID st) id).
  { unfold updatePortfolioPattern in Hrun.
    destruct (for_loop _ _ _ _) as [[[st1 off1] k1]|] eqn:Hloop; cbn [bind] in Hrun;
      [|discriminate].
    cbn [fst snd] in Hrun. injection Hrun as <- <-.
    refine (Engine.for_loop_inv (clusterStep rng t)
             (fun _ fr => forall id, GridFacts.cellsWith (pixelClusterID (fst (fst fr))) id
                                     = GridFacts.cellsWith (pixelClusterID st) id)
             _ _ _ (st1, off1, k1) _ _ Hloop); [reflexivity|].
    intros m [[s off] j] [[s2 off2] j2] _ IH Hstep. cbn [fst] in *.
    apply Engine.clusterStep_Ok in Hstep.
    destruct Hstep as (cl & last & _ & _ & _ & Hout).
    intros id. rewrite <- (IH id).
    destruct Hout as [_ -> _ _|_ _ -> _ _|a sa ka b sb _ _ _ _ _ [[_ ->]|[_ Hswap]]];
      try reflexivity.
    apply Engine.swapPixels_Ok in Hswap.
    destruct Hswap as (pa & pb & pos1 & pos2 & v1 & v2 & _ & _ & _ & _ & _ & _ & H1 & H2 & ->).
    cbn [pixelClusterID set_lastUpdateTime] in *.
    apply GridFacts.cellsWith_exchange; assumption. }
  split; [|exact Hcount].
  apply (Permutation_count_occ Z.eq_dec). exact Hcount.
Qed.

Lemma fit_state_well_formed : Layout.wf_state fit_state /\ Layout.fits fit_state.
Proof.
  split.
  - constructor; try reflexivity.
    + vm_compute. split; discriminate.
    + apply Forall_forall. intros p Hp. apply list_elem_of_In in Hp.
      vm_compute in Hp. unfold TOTAL_PIXELS.
      repeat (destruct Hp as [<-|Hp]; [lia|]). contradiction.
    + split; [reflexivity|]. vm_compute. repeat constructor.
    + vm_compute. repeat constructor; discriminate.
  - vm_compute. discriminate.
Qed.

Lemma update_preserves_grid_multiset_witness :
  Layout.wf_state fit_state /\ Layout.fits fit_state /\
  updatePortfolioPattern demo_rng 60 fit_state 0 = Ok (fit_after, 12%nat) /\
  pixelIndices fit_after <> pixelIndices fit_state /\
  Permutation (concat (pixelClusterID fit_after)) (concat (pixelClusterID fit_state)) /\
  exists st' k', updatePortfolioPattern demo_rng 60 fit_state 0 = Ok (st', k').
Proof.
  destruct fit_state_well_formed as [Hwf Hfit].
  assert (Hrun : updatePortfolioPattern demo_rng 60 fit_state 0 = Ok (fit_after, 12%nat))
    by (vm_compute; reflexivity).
  destruct (update_preserves_grid_multiset demo_rng 60 fit_state 0) as [Hkeep Htotal].
  split; [exact Hwf|]. split; [exact Hfit|]. split; [exact Hrun|].
  split; [vm_compute; discriminate|].
  split; [apply (Hkeep _ _ Hrun)|apply (Htotal Hwf Hfit)].
Defined.

(** ** Consistency of the grid with the pixel ordering *)

(** C3. Let the pixel ordering be a permutation of the 104 positions, and
    let the parsed configuration have at least one cluster, cluster ids in
    0..5 and pixel counts that sum to at most 104. Then [setPortfolioMode]
    returns a state in which, for every active cluster and every logical
    index in its range, the grid cell of the position at that index holds
    the cluster's id; every later sequence of [updatePortfolioPattern] calls
    returns, and the same holds in the state it leaves. *)
Theorem grid_consistent_with_ordering (json : string) (st : State) :
  length (clusters st) = 6%nat -> length (lastUpdateTime st) = 6%nat ->
  Layout.is_permutation (pixelIndices st) ->
  let st0 := parseClusterData json st in
  1 <= numClusters st0 ->
  (forall (c : nat) cl, (c < Z.to_nat (numClusters st0))%nat ->
     clusters st0 !! c = Some cl -> 0 <= clusterID cl <= 5) ->
  sumPixels st0 <= TOTAL_PIXELS ->
  exists st1,
    setPortfolioMode json st = Ok st1 /\
    Layout.consistent st1 /\
    forall rng ts k, exists st2 k',
      runUpdates rng ts st1 k = Ok (st2, k') /\ Layout.consistent st2.
Proof.
  intros Hlen Htim Hperm st0 Hnum Hids Hsum.
  destruct (Layout.set_good json st Hlen Htim Hperm) as (st1 & Hset & Hgood & _).
  - fold st0. lia.
  - exact Hsum.
  - fold st0. apply Forall_forall. intros cl Hcl.
    apply list_elem_of_lookup in Hcl. destruct Hcl as [c Hc].
    pose proof (lookup_lt_Some _ _ _ Hc) as Hlt. rewrite length_take in Hlt.
    rewrite lookup_take_lt in Hc by lia.
    specialize (Hids c cl ltac:(lia) Hc). lia.
  - exists st1. split; [exact Hset|]. split; [apply Hgood|].
    intros rng ts k.
    destruct (Layout.runUpdates_good rng ts st1 k Hgood) as (st2 & k' & Hrun & Hg2 & _).
    exists st2, k'. split; [exact Hrun|apply Hg2].
Qed.

Lemma grid_consistent_with_ordering_witness :
  exists st1,
    setPortfolioMode fitting_json initial_state = Ok st1 /\
    Layout.consistent st1 /\
    exists st2 k',
      runUpdates demo_rng [1000; 1030; 1100] st1 0 = Ok (st2, k') /\
      Layout.consistent st2.
Proof.
  destruct (grid_consistent_with_ordering fitting_json initial_state)
    as (st1 & Hset & Hc1 & Hrun).
  - reflexivity.
  - reflexivity.
  - apply Permutation_refl.
  - vm_compute. discriminate.
  - intros c cl Hc Hl. vm_compute in Hc.
    destruct c as [|[|[|c]]]; [| | |lia];
      vm_compute in Hl; injection Hl as <-; cbn; lia.
  - vm_compute. discriminate.
  - exists st1. split; [exact Hset|]. split; [exact Hc1|].
    apply (Hrun demo_rng [1000; 1030; 1100] 0%nat).
Defined.

(** ** The frame scheduler *)

Lemma insert_two_elsewhere (order : list Z) (a b i : nat) (pa pb : Z) :
  i <> a -> i <> b -> <[b := pa]> (<[a := pb]> order) !! i = order !! i.
Proof.
  intros Ha Hb. rewrite list_lookup_insert_ne by lia.
  apply list_lookup_insert_ne. lia.
Qed.

(** C6. In a call of [updatePortfolioPattern] at time [t] that returns,
    whether an active cluster is due is decided by [t], its own timer and
    its own speed as they were when the call began. A cluster that is not
    due keeps its timer and every entry of its logical range of the pixel
    ordering, and its iteration of the loop returns the state it was given
    (so no grid cell changes on its account) and draws no random number; a
    cluster that is due has its timer set to [t], and its iteration sets
    the timer first: the cohesion step runs on the state whose timer is
    already [t]. *)
Theorem not_due_clusters_are_skipped (rng : Rng) (t : Z) (st : State) (k : nat)
    (st' : State) (k' : nat) :
  (Z.to_nat (numClusters st) <= length (clusters st))%nat ->
  Forall (fun cl => 0 <= pixels cl) (take (Z.to_nat (numClusters st)) (clusters st)) ->
  updatePortfolioPattern rng t st k = Ok (st', k') ->
  clusters st' = clusters st /\ numClusters st' = numClusters st /\
  forall (c : nat) cl last,
    (c < Z.to_nat (numClusters st))%nat ->
    clusters st !! c = Some cl -> lastUpdateTime st !! c = Some last ->
    (notDue t last cl = true ->
       lastUpdateTime st' !! c = Some last /\
       (forall i : nat,
          Layout.offsetOf (clusters st) c <= Z.of_nat i
            < Layout.offsetOf (clusters st) c + pixels cl ->
          pixelIndices st' !! i = pixelIndices st !! i) /\
       (forall s off j,
          clusters s !! c = Some cl -> lastUpdateTime s !! c = Some last ->
          clusterStep rng t (Z.of_nat c) (s, off, j) = Ok (s, off + pixels cl, j))) /\
    (notDue t last cl = false ->
       lastUpdateTime st' !! c = Some t /\
       (forall s off j s2 off2 j2,
          clusters s !! c = Some cl -> lastUpdateTime s !! c = Some last ->
          clusterStep rng t (Z.of_nat c) (s, off, j) = Ok (s2, off2, j2) ->
          lastUpdateTime s2 = <[c := t]> (lastUpdateTime s) /\
          (pixels cl <> 0 ->
           exists a sa j1,
             findIsolated rng (set_lastUpdateTime (Z.of_nat c) t s) cl off j
             = Ok (a, sa, j1)))).
Proof.
  intros Hn Hnn Hrun. unfold updatePortfolioPattern in Hrun.
  destruct (for_loop _ _ _ _) as [[[st1 off1] k1]|] eqn:Hloop; cbn [bind] in Hrun;
    [|discriminate].
  cbn [fst snd] in Hrun. injection Hrun as <- <-.
  set (cs := clusters st) in *. set (n := Z.to_nat (numClusters st)) in *.
  pose (P := fun (m : nat) (fr : Frame) =>
    let s := fst (fst fr) in
    clusters s = cs /\ numClusters s = numClusters st /\
    snd (fst fr) = Layout.offsetOf cs m /\
    (forall c : nat, (m <= c)%nat -> lastUpdateTime s !! c = lastUpdateTime st !! c) /\
    (forall (c : nat) cl last, (c < m)%nat -> cs !! c = Some cl ->
       lastUpdateTime st !! c = Some last ->
       lastUpdateTime s !! c = Some (if notDue t last cl then last else t)) /\
    (forall i : nat, Layout.offsetOf cs m <= Z.of_nat i ->
       pixelIndices s !! i = pixelIndices st !! i) /\
    (forall (c : nat) cl last, (c < m)%nat -> cs !! c = Some cl ->
       lastUpdateTime st !! c = Some last -> notDue t last cl = true ->
       forall i : nat,
         Layout.offsetOf cs c <= Z.of_nat i < Layout.offsetOf cs c + pixels cl ->
         pixelIndices s !! i = pixelIndices st !! i)).
  assert (HP : P n (st1, off1, k1)).
  { refine (Engine.for_loop_inv (clusterStep rng t) P _ _ _ _ _ _ Hloop).
    { unfold P. cbn [fst snd]. repeat split; try reflexivity; intros; lia. }
    intros m [[s off] j] [[s2 off2] j2] Hm HPm Hstep.
    destruct HPm as (Hcs & Hnum & Hoff & Hlater & Hdone & Hhigh & Hskip).
    cbn [fst snd] in Hcs, Hnum, Hoff, Hlater, Hdone, Hhigh, Hskip.
    rewrite Z.add_0_l in Hstep.
    apply Engine.clusterStep_Ok in Hstep.
    destruct Hstep as (cl & last & _ & Hcl & Hlast & Hout).
    rewrite Nat2Z.id in Hcl, Hlast. rewrite Hcs in Hcl.
    rewrite (Hlater m ltac:(lia)) in Hlast.
    assert (Hpx : 0 <= pixels cl).
    { rewrite Forall_forall in Hnn. apply Hnn, list_elem_of_lookup. exists m.
      rewrite lookup_take_lt by exact Hm. exact Hcl. }
    pose proof (Layout.offsetOf_S cs m cl Hcl) as HoffS.
    assert (Hbelow : forall (c : nat) clc, (c < m)%nat -> cs !! c = Some clc ->
              Layout.offsetOf cs c + pixels clc <= Layout.offsetOf cs m).
    { intros c clc Hc Hclc. rewrite <- (Layout.offsetOf_S cs c clc Hclc).
      apply (Layout.offsetOf_mono cs n (S c) m Hnn); lia. }
    assert (Hoff0 : 0 <= off).
    { rewrite Hoff. apply (Layout.offsetOf_mono cs n 0 m Hnn); lia. }
    assert (Htimer : forall s0, clusters s0 = cs -> numClusters s0 = numClusters st ->
              lastUpdateTime s0 = <[m := t]> (lastUpdateTime s) ->
              notDue t last cl = false ->
              (forall c : nat, (S m <= c)%nat ->
                 lastUpdateTime s0 !! c = lastUpdateTime st !! c) /\
              (forall (c : nat) clc lc, (c < S m)%nat -> cs !! c = Some clc ->
                 lastUpdateTime st !! c = Some lc ->
                 lastUpdateTime s0 !! c = Some (if notDue t lc clc then lc else t))).
    { intros s0 _ _ Ht Hdue. rewrite Ht. split.
      - intros c Hc. rewrite list_lookup_insert_ne by lia. apply Hlater. lia.
      - intros c clc lc Hc Hclc Hlc. destruct (decide (c = m)) as [->|Hne].
        + assert (clc = cl) by congruence. assert (lc = last) by congruence. subst.
          rewrite Hdue. apply list_lookup_insert_eq.
          rewrite <- (Hlater m ltac:(lia)) in Hlast.
          eapply lookup_lt_Some. exact Hlast.
        + rewrite list_lookup_insert_ne by lia. apply (Hdone c clc lc); [lia|assumption..]. }
    unfold P. cbn [fst snd].
    destruct Hout as [Hdue -> -> _|Hdue Hz -> -> _|a sa ka b sb Hdue Hnz Hiso Htar -> Hsw].
    - (* not due *)
      split; [exact Hcs|]. split; [exact Hnum|]. split; [lia|].
      split; [intros c Hc; apply Hlater; lia|]. split.
      { intros c clc lc Hc Hclc Hlc. destruct (decide (c = m)) as [->|Hne].
        - assert (clc = cl) by congruence. assert (lc = last) by congruence. subst.
          rewrite Hdue. rewrite (Hlater m ltac:(lia)). exact Hlast.
        - apply (Hdone c clc lc); [lia|assumption..]. }
      split; [intros i Hi; apply Hhigh; lia|].
      intros c clc lc Hc Hclc Hlc Hd i Hi. destruct (decide (c = m)) as [->|Hne].
      + apply Hhigh. lia.
      + apply (Hskip c clc lc); [lia|assumption..].
    - (* due, no pixels *)
      destruct (Htimer (set_lastUpdateTime (Z.of_nat m) t s) Hcs Hnum) as [Hl' Hd'];
        [cbn [set_lastUpdateTime lastUpdateTime]; rewrite Nat2Z.id; reflexivity|exact Hdue|].
      cbn [set_lastUpdateTime clusters numClusters pixelIndices] in *.
      split; [exact Hcs|]. split; [exact Hnum|]. split; [lia|].
      split; [exact Hl'|]. split; [exact Hd'|].
      split; [intros i Hi; apply Hhigh; lia|].
      intros c clc lc Hc Hclc Hlc Hd i Hi. destruct (decide (c = m)) as [->|Hne].
      + assert (lc = last) by congruence. assert (clc = cl) by congruence. subst.
        congruence.
      + apply (Hskip c clc lc); [lia|assumption..].
    - (* due, one step of the cohesion engine *)
      assert (Hpos : 0 < pixels cl) by lia.
      pose proof (Engine.pass_in_range _ _ _ _ _ _ _ _ Hpos Hiso) as Ha.
      rewrite Sampling.findTarget_same in Htar.
      pose proof (Engine.pass_in_range _ _ _ _ _ _ _ _ Hpos Htar) as Hb.
      assert (Hfacts : clusters s2 = cs /\ numClusters s2 = numClusters st /\
                lastUpdateTime s2 = <[m := t]> (lastUpdateTime s) /\
                forall i : nat, ~ (off <= Z.of_nat i < off + pixels cl) ->
                  pixelIndices s2 !! i = pixelIndices s !! i).
      { destruct Hsw as [[_ ->]|[_ Hswap]].
        - cbn [set_lastUpdateTime clusters numClusters pixelIndices lastUpdateTime].
          rewrite Nat2Z.id. repeat split; try assumption; reflexivity.
        - apply Engine.swapPixels_Ok in Hswap.
          destruct Hswap as (pa & pb & p1 & p2 & v1 & v2 & _ & _ & _ & _ & _ & _ & _ & _ & ->).
          cbn [set_lastUpdateTime clusters numClusters pixelIndices lastUpdateTime].
          rewrite Nat2Z.id. repeat split; try assumption; try reflexivity.
          intros i Hi. apply insert_two_elsewhere; lia. }
      destruct Hfacts as (Hcs2 & Hnum2 & Ht2 & Hord2).
      destruct (Htimer s2 Hcs2 Hnum2 Ht2 Hdue) as [Hl' Hd'].
      split; [exact Hcs2|]. split; [exact Hnum2|]. split; [lia|].
      split; [exact Hl'|]. split; [exact Hd'|].
      split.
      { intros i Hi. rewrite Hord2 by lia. apply Hhigh. lia. }
      intros c clc lc Hc Hclc Hlc Hd i Hi. destruct (decide (c = m)) as [->|Hne].
      + assert (lc = last) by congruence. assert (clc = cl) by congruence. subst.
        congruence.
      + specialize (Hbelow c clc ltac:(lia) Hclc).
        rewrite Hord2 by lia. apply (Hskip c clc lc); [lia|assumption..]. }
  destruct HP as (Hcs & Hnum & _ & _ & Hdone & _ & Hskip). cbn [fst snd] in *.
  split; [exact Hcs|]. split; [exact Hnum|].
  intros c cl last Hc Hcl Hlast. split.
  - intros Hdue. split; [|split].
    + rewrite (Hdone c cl last Hc Hcl Hlast), Hdue. reflexivity.
    + intros i Hi. apply (Hskip c cl last Hc Hcl Hlast Hdue i Hi).
    + intros s off j Hs Hl. unfold clusterStep, cluster_read.
      destruct (Z.leb_spec 0 (Z.of_nat c)); [|lia].
      rewrite Nat2Z.id, Hs, Hl. cbn [bind]. rewrite Hdue. reflexivity.
  - intros Hdue. split.
    { rewrite (Hdone c cl last Hc Hcl Hlast), Hdue. reflexivity. }
    intros s off j s2 off2 j2 Hs Hl Hstep.
    apply Engine.clusterStep_Ok in Hstep.
    destruct Hstep as (cl' & last' & _ & Hcl' & Hlast' & Hout).
    rewrite Nat2Z.id in Hcl', Hlast'.
    assert (cl' = cl) by congruence. assert (last' = last) by congruence. subst cl' last'.
    destruct Hout as [Hd _ _ _|_ Hz -> _ _|a sa ka b sb _ Hnz Hiso _ _ Hsw].
    + congruence.
    + cbn [set_lastUpdateTime lastUpdateTime]. rewrite Nat2Z.id.
      split; [reflexivity|]. intros Hne. contradiction.
    + split; [|intros _; eauto].
      destruct Hsw as [[_ ->]|[_ Hswap]].
      * cbn [set_lastUpdateTime lastUpdateTime]. rewrite Nat2Z.id. reflexivity.
      * apply Engine.swapPixels_Ok in Hswap.
        destruct Hswap as (pa & pb & p1 & p2 & v1 & v2 & _ & _ & _ & _ & _ & _ & _ & _ & ->).
        cbn [set_lastUpdateTime lastUpdateTime]. rewrite Nat2Z.id. reflexivity.
Qed.

Lemma not_due_clusters_are_skipped_witness :
  (Z.to_nat (numClusters fit_state) <= length (clusters fit_state))%nat /\
  Forall (fun cl => 0 <= pixels cl)
         (take (Z.to_nat (numClusters fit_state)) (clusters fit_state)) /\
  updatePortfolioPattern demo_rng 60 fit_state 0 = Ok (fit_after, 12%nat) /\
  lastUpdateTime fit_after !! 0%nat = Some 0 /\
  lastUpdateTime fit_after !! 1%nat = Some 60 /\
  take 20 (pixelIndices fit_after) = take 20 (pixelIndices fit_state).
Proof.
  assert (H1 : (Z.to_nat (numClusters fit_state) <= length (clusters fit_state))%nat)
    by (vm_compute; lia).
  assert (H2 : Forall (fun cl => 0 <= pixels cl)
                 (take (Z.to_nat (numClusters fit_state)) (clusters fit_state)))
    by (vm_compute; repeat constructor; discriminate).
  assert (H3 : updatePortfolioPattern demo_rng 60 fit_state 0 = Ok (fit_after, 12%nat))
    by (vm_compute; reflexivity).
  destruct (not_due_clusters_are_skipped demo_rng 60 fit_state 0 fit_after 12 H1 H2 H3)
    as (_ & _ & Hall).
  destruct (Hall 0%nat (mkCluster 1 20 180 3 100 "AAPL") 0 ltac:(vm_compute; lia)
              eq_refl eq_refl) as [Hskip _].
  destruct (Hall 1%nat (mkCluster 2 30 150 5 40 "MSFT") 0 ltac:(vm_compute; lia)
              eq_refl eq_refl) as [_ Hdue].
  destruct (Hskip eq_refl) as (Ht0 & _ & _).
  destruct (Hdue eq_refl) as (Ht1 & _).
  split; [exact H1|]. split; [exact H2|]. split; [exact H3|].
  split; [exact Ht0|]. split; [exact Ht1|].
  vm_compute. reflexivity.
Defined.

(** ** Applying the same configuration twice *)

(** The claim as stated: the second call leaves the grid, the descriptors
    and the timers of the first, and those timers are all zero. *)
Definition reapplied_with_zero_timers (json : string) (st : State) : Prop :=
  forall st1 st2,
    setPortfolioMode json st = Ok st1 -> setPortfolioMode json st1 = Ok st2 ->
    pixelClusterID st2 = pixelClusterID st1 /\
    clusters st2 = clusters st1 /\
    lastUpdateTime st2 = lastUpdateTime st1 /\
    lastUpdateTime st2 = replicate 6 0.

(** C9, as stated, fails for an input without clusters: after a
    configuration has run ([demo_after] is the start-up state after
    [sample_json] and one update at time 1000), applying "[]" twice leaves
    the timers at 1000, not at zero. *)
Lemma empty_configuration_keeps_timers :
  ~ reapplied_with_zero_timers "[]" demo_after.
Proof.
  intros H.
  destruct (H idle_state idle_state eq_refl eq_refl) as (_ & _ & _ & Hz).
  vm_compute in Hz. discriminate.
Qed.

Lemma parse_again (json : string) (st : State) :
  length (clusters st) = 6%nat ->
  let st0 := parseClusterData json st in
  forall st1,
    clusters st1 = clusters st0 -> numClusters st1 = numClusters st0 ->
    parseClusterData json st1 = st1.
Proof.
  intros Hlen st0 st1 Hc Hn.
  destruct (Layout.parse_facts json st Hlen) as (Hl0 & _).
  fold st0 in Hl0.
  rewrite (Loader.parseClusterData_spec json st1) by congruence.
  subst st0. rewrite (Loader.parseClusterData_spec json st Hlen) in Hc, Hn.
  cbn [clusters numClusters] in Hc, Hn.
  destruct st1 as [m cs n g o t]. cbn [clusters numClusters inPortfolioMode
    pixelClusterID pixelIndices lastUpdateTime] in *.
  subst cs n. f_equal.
  rewrite drop_app_length. reflexivity.
Qed.

(** C9, amended. When [setPortfolioMode] returns, calling it again with the
    same input and no update in between returns the very same state: the
    same grid, descriptors, timers (and mode flag, count and ordering). The
    timers are all zero when at least one cluster was parsed; with no
    cluster they, and the grid, are those from before the first call. *)
Theorem setPortfolioMode_twice (json : string) (st st1 : State) :
  length (clusters st) = 6%nat -> length (lastUpdateTime st) = 6%nat ->
  setPortfolioMode json st = Ok st1 ->
  setPortfolioMode json st1 = Ok st1 /\
  (numClusters st1 <> 0 -> lastUpdateTime st1 = replicate 6 0) /\
  (numClusters st1 = 0 ->
     lastUpdateTime st1 = lastUpdateTime st /\ pixelClusterID st1 = pixelClusterID st).
Proof.
  intros Hlen Htim Hset.
  destruct (Layout.parse_facts json st Hlen) as (_ & _ & _ & _ & Hg0 & Ho0 & Ht0).
  set (st0 := parseClusterData json st) in *.
  assert (Hframe : clusters st1 = clusters st0 /\ numClusters st1 = numClusters st0 /\
            pixelIndices st1 = pixelIndices st0).
  { unfold setPortfolioMode in Hset. fold st0 in Hset.
    destruct (numClusters st0 =? 0).
    - injection Hset as <-. repeat split.
    - destruct (for_loop _ _ _ _) as [gp|]; cbn [bind] in Hset; [|discriminate].
      injection Hset as <-. repeat split. }
  destruct Hframe as (Hc & Hn & Ho).
  pose proof (parse_again json st Hlen st1 Hc Hn) as Hagain.
  unfold setPortfolioMode in Hset |- *. fold st0 in Hset. rewrite Hagain, Hn.
  destruct (Z.eqb_spec (numClusters st0) 0) as [Hz|Hnz].
  - injection Hset as <-. cbn [inPortfolioMode clusters numClusters pixelClusterID
      pixelIndices lastUpdateTime]. split; [reflexivity|].
    split; [intros Hne; contradiction|]. intros _. split; assumption.
  - rewrite Hc, Ho.
    destruct (for_loop _ _ _ _) as [gp|]; cbn [bind] in Hset |- *; [|discriminate].
    injection Hset as <-. cbn [inPortfolioMode clusters numClusters pixelClusterID
      pixelIndices lastUpdateTime].
    assert (Hz : resetTimers (lastUpdateTime st0) = replicate 6 0).
    { apply Layout.resetTimers_zero. rewrite Ht0. exact Htim. }
    rewrite Hz. split; [reflexivity|]. split; [reflexivity|]. intros; contradiction.
Qed.

Lemma setPortfolioMode_twice_witness :
  length (clusters demo_after) = 6%nat /\ length (lastUpdateTime demo_after) = 6%nat /\
  setPortfolioMode fitting_json demo_after = Ok fit_again /\
  setPortfolioMode fitting_json fit_again = Ok fit_again /\
  lastUpdateTime fit_again = replicate 6 0.
Proof.
  assert (H1 : length (clusters demo_after) = 6%nat) by reflexivity.
  assert (H2 : length (lastUpdateTime demo_after) = 6%nat) by reflexivity.
  assert (H3 : setPortfolioMode fitting_json demo_after = Ok fit_again)
    by (vm_compute; reflexivity).
  destruct (setPortfolioMode_twice fitting_json demo_after fit_again H1 H2 H3)
    as (Hagain & Hzero & _).
  split; [exact H1|]. split; [exact H2|]. split; [exact H3|].
  split; [exact Hagain|]. apply Hzero. vm_compute. discriminate.
Defined.

(** * Further properties of the code *)

(** ** The scanner helpers *)

Module ScannerFacts.

Lemma copy_until_quote_length room pos :
  (String.length (copy_until_quote room pos) <= room)%nat.
Proof.
  revert pos. induction room as [|room IH]; intros pos; cbn [copy_until_quote].
  { destruct pos; cbn; lia. }
  destruct pos as [|a rest]; [cbn; lia|].
  destruct (Ascii.eqb a dquote); cbn [String.length]; [lia|].
  specialize (IH rest). lia.
Qed.

Lemma copy_until_quote_no_quote room pos :
  strchr (copy_until_quote room pos) dquote = None.
Proof.
  revert pos. induction room as [|room IH]; intros pos; cbn [copy_until_quote].
  { destruct pos; reflexivity. }
  destruct pos as [|a rest]; [reflexivity|].
  destruct (Ascii.eqb a dquote) eqn:Ha; [reflexivity|].
  cbn [strchr]. rewrite Ha. apply IH.
Qed.

(** The copy loop stops at the first quote: text without a quote, followed
    by a quote, is copied whole when it fits. *)
Lemma copy_until_quote_exact room (s rest : string) :
  strchr s dquote = None -> (String.length s <= room)%nat ->
  copy_until_quote room (s ++ String dquote rest) = s.
Proof.
  revert room. induction s as [|a s IH]; intros room Hq Hlen.
  - destruct room; cbn; [reflexivity|]. rewrite Ascii.eqb_refl. reflexivity.
  - cbn [String.length] in Hlen. destruct room as [|room]; [lia|].
    cbn [strchr] in Hq. destruct (Ascii.eqb a dquote) eqn:Ha; [discriminate|].
    cbn [append copy_until_quote]. rewrite Ha. f_equal. apply IH; [exact Hq|lia].
Qed.

Lemma saturate_range v : INT_MIN <= saturate v <= INT_MAX.
Proof. unfold saturate, INT_MIN, INT_MAX. lia. Qed.

Lemma atoi_range s : INT_MIN <= atoi s <= INT_MAX.
Proof.
  unfold atoi. destruct (skip_while isspace s) as [|a rest]; [apply saturate_range|].
  destruct a as [[] [] [] [] [] [] [] []]; apply saturate_range.
Qed.

Lemma extractInt_range json key : INT_MIN <= extractInt json key <= INT_MAX.
Proof.
  unfold extractInt. destruct (strstr json (searchStr_int key)); [apply atoi_range|].
  unfold INT_MIN, INT_MAX. lia.
Qed.

(** Every scanned record is [parseCluster] of some record text. *)
Lemma scanRecords_parsed slots pos :
  Forall (fun cl => exists objBuf, cl = parseCluster objBuf)
         (Loader.scanRecords slots pos).
Proof.
  revert pos. induction slots as [|n IH]; intros pos; cbn [Loader.scanRecords];
    [constructor|].
  destruct (strchr pos "{") as [objStart|]; [|constructor].
  destruct (strchr objStart "}") as [objEnd|]; [|constructor].
  destruct (256 <=? _); constructor; [eauto|apply IH].
Qed.

Lemma records_parsed json :
  Forall (fun cl => exists objBuf, cl = parseCluster objBuf) (Loader.records json).
Proof.
  unfold Loader.records. destruct (strchr json "["); [|constructor].
  apply scanRecords_parsed.
Qed.

Lemma extractString_length json key maxLen :
  strlen (extractString json key maxLen) <= Z.max 0 (maxLen - 1).
Proof.
  unfold extractString, strlen.
  destruct (strstr json (searchStr_string key)) as [pos|]; [|cbn; lia].
  pose proof (copy_until_quote_length (Z.to_nat (maxLen - 1))
                (advance (String.length (searchStr_string key)) pos)). lia.
Qed.

End ScannerFacts.

(** X1. [extractString] never writes more than [maxLen - 1] characters
    before the terminator, whatever the input, and what it writes holds no
    double quote. *)
Theorem extractString_fits_buffer (json key : string) (maxLen : Z) :
  strlen (extractString json key maxLen) <= Z.max 0 (maxLen - 1) /\
  strchr (extractString json key maxLen) dquote = None.
Proof.
  split; [apply ScannerFacts.extractString_length|].
  unfold extractString.
  destruct (strstr json (searchStr_string key)) as [pos|]; [|reflexivity].
  apply ScannerFacts.copy_until_quote_no_quote.
Qed.

(** X2. Whatever the input, every descriptor [parseClusterData] loads has
    its brightness in [80,220], clustering strength in [1,10], speed in
    [10,500], pixel count in [0,104], a cluster id in the range of [int],
    and a symbol of at most 9 characters. *)
Theorem loaded_descriptors_in_bounds (json : string) (st : State) (c : nat)
    (cl : ClusterData) :
  length (clusters st) = 6%nat ->
  let st' := parseClusterData json st in
  (c < Z.to_nat (numClusters st'))%nat -> clusters st' !! c = Some cl ->
  80 <= brightness cl <= 220 /\ 1 <= clustering cl <= 10 /\
  10 <= speed cl <= 500 /\ 0 <= pixels cl <= TOTAL_PIXELS /\
  INT_MIN <= clusterID cl <= INT_MAX /\ strlen (symbol cl) <= 9.
Proof.
  intros Hlen st'. subst st'. rewrite (Loader.parseClusterData_spec json st Hlen).
  cbn [numClusters clusters]. rewrite Nat2Z.id. intros Hc Hcl.
  rewrite lookup_app_l in Hcl by exact Hc.
  pose proof (ScannerFacts.records_parsed json) as Hp.
  rewrite Forall_forall in Hp.
  destruct (Hp cl) as [objBuf ->]; [apply list_elem_of_lookup; eauto|].
  destruct (Loader.parseCluster_clamped objBuf) as (H1 & H2 & H3 & H4).
  split; [exact H2|]. split; [exact H3|]. split; [exact H4|]. split; [exact H1|].
  cbn [parseCluster clusterID symbol]. split; [apply ScannerFacts.extractInt_range|].
  pose proof (ScannerFacts.extractString_length objBuf "symbol" 10). lia.
Qed.

Lemma loaded_descriptors_in_bounds_witness :
  length (clusters initial_state) = 6%nat /\
  (1 < Z.to_nat (numClusters (parseClusterData sample_json initial_state)))%nat /\
  let cl := mkCluster 2 104 220 1 500 "MICROSOFT" in
  clusters (parseClusterData sample_json initial_state) !! 1%nat = Some cl /\
  80 <= brightness cl <= 220 /\ strlen (symbol cl) <= 9.
Proof.
  assert (H1 : length (clusters initial_state) = 6%nat) by reflexivity.
  assert (H2 : (1 < Z.to_nat (numClusters (parseClusterData sample_json initial_state)))%nat)
    by (vm_compute; lia).
  assert (H3 : clusters (parseClusterData sample_json initial_state) !! 1%nat
               = Some (mkCluster 2 104 220 1 500 "MICROSOFT")) by reflexivity.
  destruct (loaded_descriptors_in_bounds sample_json initial_state 1
              (mkCluster 2 104 220 1 500 "MICROSOFT") H1 H2 H3) as (Hb & _ & _ & _ & _ & Hs).
  split; [exact H1|]. split; [exact H2|]. cbv zeta.
  split; [exact H3|]. split; [exact Hb|exact Hs].
Defined.

(** X3. [parseClusterData] writes the descriptor slots below the new
    [numClusters] and nothing else: the slots from [numClusters] on keep
    the descriptors they held, and the mode flag, the grid, the pixel
    ordering and the timers are left as they were. *)
Theorem parse_writes_only_parsed_slots (json : string) (st : State) :
  length (clusters st) = 6%nat ->
  let st' := parseClusterData json st in
  length (clusters st') = 6%nat /\
  (forall c : nat, (Z.to_nat (numClusters st') <= c)%nat ->
     clusters st' !! c = clusters st !! c) /\
  inPortfolioMode st' = inPortfolioMode st /\
  pixelClusterID st' = pixelClusterID st /\
  pixelIndices st' = pixelIndices st /\
  lastUpdateTime st' = lastUpdateTime st.
Proof.
  intros Hlen st'. subst st'. rewrite (Loader.parseClusterData_spec json st Hlen).
  cbn [numClusters clusters inPortfolioMode pixelClusterID pixelIndices lastUpdateTime].
  pose proof (Loader.records_length json) as Hn.
  split; [rewrite length_app, length_drop; lia|].
  split; [|repeat split].
  intros c Hc. rewrite Nat2Z.id in Hc.
  rewrite lookup_app_r by exact Hc. rewrite lookup_drop. f_equal. lia.
Qed.

Lemma parse_writes_only_parsed_slots_witness :
  length (clusters busy_state) = 6%nat /\
  clusters (parseClusterData bright_json busy_state) !! 3%nat
  = Some (mkCluster 1 10 200 3 50 "X") /\
  lastUpdateTime (parseClusterData bright_json busy_state) = [700; 650; 0; 0; 0; 0].
Proof.
  assert (H1 : length (clusters busy_state) = 6%nat) by reflexivity.
  destruct (parse_writes_only_parsed_slots bright_json busy_state H1)
    as (_ & Hstale & _ & _ & _ & Ht).
  split; [exact H1|]. split; [|exact Ht].
  rewrite (Hstale 3%nat); [reflexivity|vm_compute; lia].
Defined.

(** ** The assignment walk on any configuration *)

Module Walk.
Import Layout.

(** Every cell of the grid satisfies [P]. *)
Definition cells_in (P : Z -> Prop) (g : Grid) : Prop := Forall (Forall P) g.

Lemma cells_in_set P g y x v : P v -> cells_in P g -> cells_in P (grid_set g y x v).
Proof.
  intros Hv Hg. unfold cells_in, grid_set.
  apply Forall_alter; [exact Hg|].
  intros row _ Hrow. apply Forall_insert; assumption.
Qed.

Lemma cells_in_impl (P Q : Z -> Prop) g :
  (forall v, P v -> Q v) -> cells_in P g -> cells_in Q g.
Proof.
  intros H Hg. unfold cells_in in *.
  eapply Forall_impl; [exact Hg|]. intros row Hrow.
  eapply Forall_impl; [exact Hrow|exact H].
Qed.

Lemma cells_in_empty (P : Z -> Prop) : P 0 -> cells_in P empty_grid.
Proof. intros H. unfold cells_in. repeat constructor; exact H. Qed.

(** The inner loop returns on every well-formed ordering, stops at 104, and
    writes nothing but the id. *)
Lemma assignPixels_safe cid order (P : Z -> Prop) : forall n g (idx : Z),
  length order = 104%nat ->
  Forall (fun p => 0 <= p < TOTAL_PIXELS) order ->
  GridFacts.shaped g -> cells_in P g -> P (to_uint8 cid) -> 0 <= idx <= TOTAL_PIXELS ->
  exists g' idx',
    assignPixels n cid order g idx = Ok (g', idx') /\
    GridFacts.shaped g' /\ cells_in P g' /\ idx <= idx' <= TOTAL_PIXELS.
Proof.
  induction n as [|n IH]; intros g idx Hlen Hrange Hsh HP Hcid Hidx; cbn [assignPixels].
  { exists g, idx. split; [reflexivity|]. split; [exact Hsh|]. split; [exact HP|lia]. }
  destruct (Z.ltb_spec idx TOTAL_PIXELS) as [Hlt|Hge].
  2:{ exists g, idx. split; [reflexivity|]. split; [exact Hsh|]. split; [exact HP|lia]. }
  destruct (Sampling.order_read_in_range order idx Hlen ltac:(lia)) as (p0 & Hread & Hp0).
  rewrite Hread. cbn [bind].
  assert (Hp0r : 0 <= p0 < TOTAL_PIXELS).
  { rewrite Forall_forall in Hrange. apply Hrange, list_elem_of_lookup. eauto. }
  unfold grid_write. rewrite (GridFacts.position_in_grid p0 Hp0r). cbn [bind].
  destruct (IH (grid_set g (p0 / MATRIX_WIDTH) (p0 mod MATRIX_WIDTH) (to_uint8 cid))
              (idx + 1) Hlen Hrange (GridFacts.shaped_set _ _ _ _ Hsh)
              (cells_in_set P _ _ _ _ Hcid HP) Hcid ltac:(lia))
    as (g' & idx' & Hrun & Hsh' & HP' & Hidx').
  exists g', idx'. split; [exact Hrun|]. split; [exact Hsh'|]. split; [exact HP'|lia].
Qed.

(** The value a grid cell may hold after the walk over the first [n]
    descriptors of [cs]. *)
Definition assignable (cs : list ClusterData) (n : nat) (v : Z) : Prop :=
  v = 0 \/ exists (c : nat) cl, (c < n)%nat /\ cs !! c = Some cl /\ v = to_uint8 (clusterID cl).

Lemma assign_loop_safe cs order (n : nat) :
  length order = 104%nat ->
  Forall (fun p => 0 <= p < TOTAL_PIXELS) order ->
  (n <= length cs)%nat ->
  exists g idx,
    for_loop n 0 (assignCluster cs order) (empty_grid, 0) = Ok (g, idx) /\
    GridFacts.shaped g /\ cells_in (assignable cs n) g /\ 0 <= idx <= TOTAL_PIXELS.
Proof.
  intros Hlen Hrange Hn.
  destruct (Engine.for_loop_total (assignCluster cs order)
    (fun m acc =>
       GridFacts.shaped (fst acc) /\ cells_in (assignable cs m) (fst acc) /\
       0 <= snd acc <= TOTAL_PIXELS)
    n 0 (empty_grid, 0)) as ([g idx] & Hrun & Hsh & HP & Hidx).
  - cbn [fst snd]. split; [apply GridFacts.shaped_empty|].
    split; [apply cells_in_empty; left; reflexivity|unfold TOTAL_PIXELS; lia].
  - intros m [g idx] Hm (Hsh & HP & Hidx). cbn [fst snd] in *.
    destruct (lookup_lt_is_Some_2 cs m) as [cl Hcl]; [lia|].
    unfold assignCluster, cluster_read. cbn [fst snd]. rewrite Z.add_0_l.
    destruct (Z.leb_spec 0 (Z.of_nat m)); [|lia].
    rewrite Nat2Z.id, Hcl. cbn [bind].
    destruct (assignPixels_safe (clusterID cl) order (assignable cs (S m))
                (Z.to_nat (pixels cl)) g idx Hlen Hrange Hsh)
      as (g' & idx' & Hrun & Hsh' & HP' & Hidx').
    + eapply cells_in_impl; [|exact HP]. intros v [->|(c & cl' & Hc & Hcl' & ->)].
      * left. reflexivity.
      * right. exists c, cl'. split; [lia|]. split; [exact Hcl'|reflexivity].
    + right. exists m, cl. split; [lia|]. split; [exact Hcl|reflexivity].
    + exact Hidx.
    + exists (g', idx'). cbn [fst snd]. split; [exact Hrun|].
      split; [exact Hsh'|]. split; [exact HP'|lia].
  - exists g, idx. cbn [fst snd] in *. split; [exact Hrun|].
    split; [exact Hsh|]. split; [exact HP|exact Hidx].
Qed.

End Walk.

(** X4. [setPortfolioMode] never indexes outside its arrays: whatever the
    configuration, also one whose pixel counts exceed 104, it returns when
    the pixel ordering has 104 entries below 104. The mode flag is set
    exactly when at least one cluster was parsed, and then the grid is 8 by
    13, every cell holds 0 or the id (as [uint8_t]) of an active cluster,
    and all timers are zero. *)
Theorem setPortfolioMode_safe (json : string) (st : State) :
  length (clusters st) = 6%nat -> length (lastUpdateTime st) = 6%nat ->
  length (pixelIndices st) = 104%nat ->
  Forall (fun p => 0 <= p < TOTAL_PIXELS) (pixelIndices st) ->
  exists st1,
    setPortfolioMode json st = Ok st1 /\
    inPortfolioMode st1 = negb (numClusters st1 =? 0) /\
    numClusters st1 = numClusters (parseClusterData json st) /\
    clusters st1 = clusters (parseClusterData json st) /\
    pixelIndices st1 = pixelIndices st /\
    (numClusters st1 <> 0 ->
       GridFacts.shaped (pixelClusterID st1) /\
       Walk.cells_in (Walk.assignable (clusters st1) (Z.to_nat (numClusters st1)))
                     (pixelClusterID st1) /\
       lastUpdateTime st1 = replicate 6 0).
Proof.
  intros Hlen Htim Holen Horange.
  destruct (Layout.parse_facts json st Hlen) as (Hl0 & Hn0 & _ & _ & _ & Ho0 & Ht0).
  set (st0 := parseClusterData json st) in *.
  unfold setPortfolioMode. fold st0.
  destruct (Z.eqb_spec (numClusters st0) 0) as [Hz|Hnz].
  - eexists. split; [reflexivity|].
    cbn [inPortfolioMode numClusters clusters pixelIndices].
    rewrite Hz. split; [reflexivity|]. split; [reflexivity|]. split; [reflexivity|].
    split; [exact Ho0|]. intros Hne. contradiction.
  - rewrite Ho0.
    destruct (Walk.assign_loop_safe (clusters st0) (pixelIndices st)
                (Z.to_nat (numClusters st0)) Holen Horange) as (g & idx & Hrun & Hsh & HP & _).
    { unfold MAX_CLUSTERS in Hn0. lia. }
    rewrite Hrun. cbn [bind fst snd]. eexists. split; [reflexivity|].
    cbn [inPortfolioMode numClusters clusters pixelIndices pixelClusterID lastUpdateTime].
    destruct (Z.eqb_spec (numClusters st0) 0) as [|_]; [contradiction|].
    split; [reflexivity|]. split; [reflexivity|]. split; [reflexivity|].
    split; [reflexivity|]. intros _. split; [exact Hsh|]. split; [exact HP|].
    rewrite Ht0. apply Layout.resetTimers_zero. exact Htim.
Qed.

Lemma setPortfolioMode_safe_witness :
  length (clusters initial_state) = 6%nat /\
  length (lastUpdateTime initial_state) = 6%nat /\
  length (pixelIndices initial_state) = 104%nat /\
  Forall (fun p => 0 <= p < TOTAL_PIXELS) (pixelIndices initial_state) /\
  exists st1,
    setPortfolioMode overrun_json initial_state = Ok st1 /\ inPortfolioMode st1 = true.
Proof.
  assert (H1 : length (clusters initial_state) = 6%nat) by reflexivity.
  assert (H2 : length (lastUpdateTime initial_state) = 6%nat) by reflexivity.
  assert (H3 : length (pixelIndices initial_state) = 104%nat) by reflexivity.
  assert (H4 : Forall (fun p => 0 <= p < TOTAL_PIXELS) (pixelIndices initial_state))
    by apply Layout.identity_order_range.
  destruct (setPortfolioMode_safe overrun_json initial_state H1 H2 H3 H4)
    as (st1 & Hset & Hmode & Hn & _).
  split; [exact H1|]. split; [exact H2|]. split; [exact H3|]. split; [exact H4|].
  exists st1. split; [exact Hset|]. rewrite Hmode, Hn. reflexivity.
Defined.

(** ** The assignment walk over a permutation *)

Module Truncation.
Import Layout.

Lemma empty_grid_get y x : in_grid y x = true -> grid_get empty_grid y x = Some 0.
Proof.
  intros Hin. unfold grid_get. rewrite Hin.
  apply GridFacts.in_grid_range in Hin. unfold MATRIX_WIDTH, MATRIX_HEIGHT in Hin.
  unfold empty_grid.
  rewrite lookup_replicate_2 by (unfold MATRIX_HEIGHT; lia).
  apply lookup_replicate_2. unfold MATRIX_WIDTH. lia.
Qed.

(** The inner loop over a permutation: it writes the id at the logical
    indices from [idx] on, as many as the count allows and the ordering
    has, and leaves the other cells. *)
Lemma assignPixels_trunc cid order : forall n g (idx : nat),
  length order = 104%nat ->
  Forall (fun p => 0 <= p < TOTAL_PIXELS) order -> NoDup order ->
  GridFacts.shaped g -> (idx <= 104)%nat ->
  exists g',
    assignPixels n cid order g (Z.of_nat idx) = Ok (g', Z.of_nat (Nat.min (idx + n) 104)) /\
    GridFacts.shaped g' /\
    (forall (i : nat) pos, (idx <= i < idx + n)%nat -> order !! i = Some pos ->
       grid_get g' (pos / MATRIX_WIDTH) (pos mod MATRIX_WIDTH) = Some (to_uint8 cid)) /\
    (forall (i : nat) pos, ~ (idx <= i < idx + n)%nat -> order !! i = Some pos ->
       grid_get g' (pos / MATRIX_WIDTH) (pos mod MATRIX_WIDTH)
       = grid_get g (pos / MATRIX_WIDTH) (pos mod MATRIX_WIDTH)).
Proof.
  induction n as [|n IH]; intros g idx Hlen Hrange Hnd Hsh Hidx; cbn [assignPixels].
  { exists g. rewrite Nat.add_0_r, Nat.min_l by lia. split; [reflexivity|].
    split; [exact Hsh|]. split; [intros i pos Hi; lia|reflexivity]. }
  destruct (Z.ltb_spec (Z.of_nat idx) TOTAL_PIXELS) as [Hlt|Hge]; unfold TOTAL_PIXELS in *.
  - destruct (Sampling.order_read_in_range order (Z.of_nat idx) Hlen) as (p0 & Hread & Hp0).
    { unfold TOTAL_PIXELS. lia. }
    rewrite Nat2Z.id in Hp0. rewrite Hread. cbn [bind].
    assert (Hp0r : 0 <= p0 < TOTAL_PIXELS).
    { rewrite Forall_forall in Hrange. apply Hrange, list_elem_of_lookup. eauto. }
    pose proof (GridFacts.position_in_grid p0 Hp0r) as Hin.
    unfold grid_write. rewrite Hin. cbn [bind].
    destruct (GridFacts.shaped_get g _ _ Hsh Hin) as [old Hold].
    set (g1 := grid_set g (p0 / MATRIX_WIDTH) (p0 mod MATRIX_WIDTH) (to_uint8 cid)).
    destruct (IH g1 (S idx) Hlen Hrange Hnd (GridFacts.shaped_set _ _ _ _ Hsh) ltac:(lia))
      as (g' & Hrun & Hsh' & Hin' & Hout').
    exists g'.
    replace (Z.of_nat idx + 1) with (Z.of_nat (S idx)) by lia.
    replace (idx + S n)%nat with (S idx + n)%nat by lia.
    split; [exact Hrun|]. split; [exact Hsh'|]. split.
    + intros i pos Hi Hpos. destruct (decide (i = idx)) as [->|Hne].
      * assert (pos = p0) by congruence. subst pos.
        rewrite (Hout' idx p0 ltac:(lia) Hp0).
        unfold g1. eapply GridFacts.grid_get_set_eq. exact Hold.
      * apply (Hin' i pos ltac:(lia) Hpos).
    + intros i pos Hi Hpos.
      rewrite (Hout' i pos ltac:(lia) Hpos). unfold g1.
      apply GridFacts.grid_get_set_ne.
      assert (Hposr : 0 <= pos < TOTAL_PIXELS).
      { rewrite Forall_forall in Hrange. apply Hrange, list_elem_of_lookup. eauto. }
      apply cell_injective; [exact Hp0r|exact Hposr|].
      intros ->. assert (i = idx); [|lia].
      eapply NoDup_lookup; eassumption.
  - exists g. rewrite Nat.min_r by lia. assert (idx = 104%nat) by lia. subst idx.
    split; [reflexivity|]. split; [exact Hsh|]. split; [|reflexivity].
    intros i pos Hi Hpos. apply lookup_lt_Some in Hpos. lia.
Qed.

Lemma assign_loop_trunc cs order (n : nat) :
  length order = 104%nat ->
  Forall (fun p => 0 <= p < TOTAL_PIXELS) order -> NoDup order ->
  (n <= length cs)%nat ->
  Forall (fun cl => 0 <= pixels cl) (take n cs) ->
  exists g idx,
    for_loop n 0 (assignCluster cs order) (empty_grid, 0) = Ok (g, idx) /\
    idx = Z.min (offsetOf cs n) TOTAL_PIXELS /\
    (forall (c : nat) cl (i : nat) pos,
       (c < n)%nat -> cs !! c = Some cl ->
       offsetOf cs c <= Z.of_nat i < offsetOf cs c + pixels cl ->
       order !! i = Some pos ->
       grid_get g (pos / MATRIX_WIDTH) (pos mod MATRIX_WIDTH)
       = Some (to_uint8 (clusterID cl))) /\
    (forall (i : nat) pos,
       offsetOf cs n <= Z.of_nat i -> order !! i = Some pos ->
       grid_get g (pos / MATRIX_WIDTH) (pos mod MATRIX_WIDTH) = Some 0).
Proof.
  intros Hlen Hrange Hnd Hn Hnn.
  destruct (Engine.for_loop_total (assignCluster cs order)
    (fun m acc =>
       snd acc = Z.min (offsetOf cs m) TOTAL_PIXELS /\ GridFacts.shaped (fst acc) /\
       (forall (c : nat) cl (i : nat) pos,
          (c < m)%nat -> cs !! c = Some cl ->
          offsetOf cs c <= Z.of_nat i < offsetOf cs c + pixels cl ->
          order !! i = Some pos ->
          grid_get (fst acc) (pos / MATRIX_WIDTH) (pos mod MATRIX_WIDTH)
          = Some (to_uint8 (clusterID cl))) /\
       (forall (i : nat) pos,
          offsetOf cs m <= Z.of_nat i -> order !! i = Some pos ->
          grid_get (fst acc) (pos / MATRIX_WIDTH) (pos mod MATRIX_WIDTH) = Some 0))
    n 0 (empty_grid, 0)) as ([g idx] & Hrun & Hidx & _ & Hin & Hout).
  - cbn [fst snd]. split; [reflexivity|]. split; [apply GridFacts.shaped_empty|].
    split; [intros c cl i pos Hc; lia|].
    intros i pos _ Hpos. apply empty_grid_get, GridFacts.position_in_grid.
    rewrite Forall_forall in Hrange. apply Hrange, list_elem_of_lookup. eauto.
  - intros m [g idx] Hm (Hidx & Hsh & Hin & Hout). cbn [fst snd] in *. subst idx.
    destruct (lookup_lt_is_Some_2 cs m) as [cl Hcl]; [lia|].
    pose proof (offsetOf_mono cs n 0 m Hnn ltac:(lia) Hn) as Hm0.
    pose proof (offsetOf_mono cs n m (S m) Hnn ltac:(lia) Hn) as Hm1.
    pose proof (offsetOf_S cs m cl Hcl) as HS. rewrite HS in Hm1.
    unfold assignCluster, cluster_read. cbn [fst snd]. rewrite Z.add_0_l.
    destruct (Z.leb_spec 0 (Z.of_nat m)); [|lia].
    rewrite Nat2Z.id, Hcl. cbn [bind].
    set (o := offsetOf cs m) in *.
    destruct (assignPixels_trunc (clusterID cl) order (Z.to_nat (pixels cl)) g
                (Nat.min (Z.to_nat o) 104) Hlen Hrange Hnd Hsh ltac:(lia))
      as (g' & Hrun & Hsh' & Hin' & Hout').
    replace (Z.of_nat (Nat.min (Z.to_nat o) 104)) with (Z.min o TOTAL_PIXELS) in Hrun
      by (unfold TOTAL_PIXELS; lia).
    rewrite Hrun. eexists (_, _). split; [reflexivity|]. cbn [fst snd].
    split; [rewrite HS; unfold TOTAL_PIXELS; lia|]. split; [exact Hsh'|]. split.
    + intros c cl' i pos Hc Hcl' Hi Hpos.
      pose proof (lookup_lt_Some _ _ _ Hpos) as Hi104.
      destruct (decide (c = m)) as [->|Hne].
      * assert (cl' = cl) by congruence. subst cl'.
        apply (Hin' i pos); [fold o in Hi; lia|exact Hpos].
      * pose proof (offsetOf_mono cs n (S c) m Hnn ltac:(lia) Hn) as Hcm.
        rewrite (offsetOf_S _ _ _ Hcl') in Hcm. fold o in Hcm.
        rewrite (Hout' i pos); [apply (Hin c cl' i pos); [lia|assumption..]|lia|exact Hpos].
    + intros i pos Hi Hpos. rewrite HS in Hi.
      rewrite (Hout' i pos); [apply (Hout i pos); [lia|exact Hpos]|lia|exact Hpos].
  - exists g, idx. cbn [fst snd] in *. repeat split; assumption.
Qed.

End Truncation.

(** X5. Over an ordering that is a permutation, [setPortfolioMode] lays the
    clusters out in descriptor order and truncates at 104, for every
    configuration with at least one cluster: the cell of the position at a
    logical index in a cluster's range (and below 104) holds that cluster's
    id as [uint8_t], a cluster whose range starts at or beyond 104 gets no
    cell, and the cell of every position at an index from the sum of the
    counts on holds 0. *)
Theorem setPortfolioMode_layout (json : string) (st : State) :
  length (clusters st) = 6%nat ->
  Layout.is_permutation (pixelIndices st) ->
  numClusters (parseClusterData json st) <> 0 ->
  exists st1,
    setPortfolioMode json st = Ok st1 /\
    (forall (c : nat) cl (i : nat) pos,
       (c < Z.to_nat (numClusters st1))%nat -> clusters st1 !! c = Some cl ->
       Layout.offsetOf (clusters st1) c <= Z.of_nat i
         < Layout.offsetOf (clusters st1) c + pixels cl ->
       pixelIndices st1 !! i = Some pos ->
       grid_get (pixelClusterID st1) (pos / MATRIX_WIDTH) (pos mod MATRIX_WIDTH)
       = Some (to_uint8 (clusterID cl))) /\
    (forall (i : nat) pos,
       sumPixels st1 <= Z.of_nat i -> pixelIndices st1 !! i = Some pos ->
       grid_get (pixelClusterID st1) (pos / MATRIX_WIDTH) (pos mod MATRIX_WIDTH) = Some 0).
Proof.
  intros Hlen Hperm Hnz.
  destruct (Layout.parse_facts json st Hlen) as (Hl0 & Hn0 & Hcl0 & _ & _ & Ho0 & _).
  set (st0 := parseClusterData json st) in *.
  destruct (Layout.is_permutation_facts _ Hperm) as (Holen & Horange & Hnd).
  assert (Hnn : Forall (fun cl => 0 <= pixels cl)
                  (take (Z.to_nat (numClusters st0)) (clusters st0))).
  { eapply Forall_impl; [exact Hcl0|]. intros cl (Hp & _). lia. }
  unfold setPortfolioMode. fold st0.
  destruct (Z.eqb_spec (numClusters st0) 0) as [|_]; [contradiction|].
  rewrite Ho0.
  destruct (Truncation.assign_loop_trunc (clusters st0) (pixelIndices st)
              (Z.to_nat (numClusters st0)) Holen Horange Hnd) as (g & idx & Hrun & _ & Hin & Hout).
  { unfold MAX_CLUSTERS in Hn0. lia. }
  { exact Hnn. }
  rewrite Hrun. cbn [bind fst snd]. eexists. split; [reflexivity|].
  cbn [numClusters clusters pixelIndices pixelClusterID]. split; [exact Hin|exact Hout].
Qed.

Lemma setPortfolioMode_layout_witness :
  length (clusters initial_state) = 6%nat /\
  Layout.is_permutation (pixelIndices initial_state) /\
  numClusters (parseClusterData sample_json initial_state) <> 0 /\
  grid_get (pixelClusterID demo_state) (103 / MATRIX_WIDTH) (103 mod MATRIX_WIDTH) = Some 2.
Proof.
  assert (H1 : length (clusters initial_state) = 6%nat) by reflexivity.
  assert (H2 : Layout.is_permutation (pixelIndices initial_state)) by apply Permutation_refl.
  assert (H3 : numClusters (parseClusterData sample_json initial_state) <> 0)
    by (vm_compute; discriminate).
  destruct (setPortfolioMode_layout sample_json initial_state H1 H2 H3)
    as (st1 & Hset & Hin & _).
  assert (Hd : setPortfolioMode sample_json initial_state = Ok demo_state)
    by (vm_compute; reflexivity).
  rewrite Hd in Hset. injection Hset as <-.
  split; [exact H1|]. split; [exact H2|]. split; [exact H3|].
  apply (Hin 1%nat (mkCluster 2 104 220 1 500 "MICROSOFT") 103%nat 103);
    [vm_compute; lia|reflexivity|vm_compute; split; [discriminate|reflexivity]|reflexivity].
Defined.

(** ** More on the neighbour scorer *)

Module Neighbourhood.

Lemma tally_ext {A} (p q : A -> bool) (l : list A) :
  (forall a, In a l -> p a = q a) -> Scorer.tally p l = Scorer.tally q l.
Proof.
  induction l as [|a l IH]; intros H; cbn [Scorer.tally]; [reflexivity|].
  rewrite (H a (or_introl eq_refl)), IH; [reflexivity|].
  intros b Hb. apply H. right. exact Hb.
Qed.

Lemma tally_split3 {A} (p q r : A -> bool) (l : list A) :
  (forall a, (if p a then 1 else 0) + (if q a then 1 else 0) + (if r a then 1 else 0) = 1) ->
  Scorer.tally p l + Scorer.tally q l + Scorer.tally r l = Z.of_nat (length l).
Proof.
  intros H. induction l as [|a l IH]; cbn [Scorer.tally length]; [reflexivity|].
  specialize (H a). lia.
Qed.

Lemma tally_split2 {A} (p q : A -> bool) (l : list A) :
  (forall a, (if p a then 1 else 0) + (if q a then 1 else 0) = 1) ->
  Scorer.tally p l + Scorer.tally q l = Z.of_nat (length l).
Proof.
  intros H. induction l as [|a l IH]; cbn [Scorer.tally length]; [reflexivity|].
  specialize (H a). lia.
Qed.

(** The cell itself is not one of its neighbours. *)
Lemma centre_not_neighbour x y : ~ In (y, x) (Scorer.gridNeighbors x y).
Proof.
  intros H. unfold Scorer.gridNeighbors in H.
  apply list_elem_of_In, list_elem_of_filter in H. destruct H as [_ H].
  apply list_elem_of_In in H. unfold Scorer.surrounding in H. cbn [In] in H.
  repeat (destruct H as [H|H]; [injection H as Hy Hx; lia|]). exact H.
Qed.

Lemma cell_set_other g y' x' v y x :
  0 <= y' -> 0 <= x' -> in_grid y x = true -> (y, x) <> (y', x') ->
  cell (grid_set g y' x' v) y x = cell g y x.
Proof.
  intros Hy' Hx' Hin Hne. unfold cell. f_equal.
  apply GridFacts.grid_get_set_ne.
  apply GridFacts.in_grid_range in Hin. intros [= Ha Hb]. apply Hne. f_equal; lia.
Qed.

End Neighbourhood.

(** X6. Around any cell, each surrounding cell of the matrix is counted
    exactly once by the scorer: for a cluster id other than 0, the
    neighbours of that cluster, the neighbours of other clusters and the
    background neighbours add up to the number of surrounding cells inside
    the matrix; background cells are never counted as another cluster. *)
Theorem neighbours_are_partitioned (g : Grid) (x y id : Z) :
  id <> 0 ->
  countClusterNeighbors g x y id + countOtherClusterNeighbors g x y id
    + countClusterNeighbors g x y 0
  = Z.of_nat (length (Scorer.gridNeighbors x y)) /\
  countClusterNeighbors g x y 0 + countOtherClusterNeighbors g x y 0
  = Z.of_nat (length (Scorer.gridNeighbors x y)) /\
  countClusterNeighbors g x y id + countOtherClusterNeighbors g x y id <= 8.
Proof.
  intros Hid.
  rewrite !Scorer.countClusterNeighbors_tally, !Scorer.countOtherClusterNeighbors_tally.
  assert (H3 : Scorer.tally (Scorer.isSame g id) (Scorer.gridNeighbors x y)
               + Scorer.tally (Scorer.isOther g id) (Scorer.gridNeighbors x y)
               + Scorer.tally (Scorer.isSame g 0) (Scorer.gridNeighbors x y)
               = Z.of_nat (length (Scorer.gridNeighbors x y))).
  { apply Neighbourhood.tally_split3. intros p. unfold Scorer.isSame, Scorer.isOther.
    destruct (Z.eqb_spec (cell g (fst p) (snd p)) id) as [He|He];
      destruct (Z.eqb_spec (cell g (fst p) (snd p)) 0) as [Hz|Hz]; cbn; lia. }
  split; [exact H3|]. split.
  - apply Neighbourhood.tally_split2. intros p. unfold Scorer.isSame, Scorer.isOther.
    destruct (Z.eqb_spec (cell g (fst p) (snd p)) 0); cbn; lia.
  - pose proof (Scorer.tally_bounds (Scorer.isSame g 0) (Scorer.gridNeighbors x y)).
    pose proof (Sampling.gridNeighbors_at_most_8 x y). lia.
Qed.

Lemma neighbours_are_partitioned_witness :
  1 <> 0 /\
  countClusterNeighbors striped_grid 5 0 1 + countOtherClusterNeighbors striped_grid 5 0 1
    + countClusterNeighbors striped_grid 5 0 0 = 5.
Proof.
  assert (H : 1 <> 0) by discriminate.
  split; [exact H|].
  destruct (neighbours_are_partitioned striped_grid 5 0 1 H) as (Hp & _).
  exact Hp.
Defined.

(** X7. The two counts at a cell depend on the grid only through the
    surrounding cells inside the matrix: grids that agree there give the
    same counts, and writing the cell itself, or any other cell that is not
    one of them, changes neither count. *)
Theorem neighbour_counts_are_local (g : Grid) (x y id : Z) :
  (forall g',
     (forall p, In p (Scorer.gridNeighbors x y) ->
        cell g' (fst p) (snd p) = cell g (fst p) (snd p)) ->
     countClusterNeighbors g' x y id = countClusterNeighbors g x y id /\
     countOtherClusterNeighbors g' x y id = countOtherClusterNeighbors g x y id) /\
  (forall y' x' v,
     0 <= y' -> 0 <= x' -> ~ In (y', x') (Scorer.gridNeighbors x y) ->
     countClusterNeighbors (grid_set g y' x' v) x y id = countClusterNeighbors g x y id /\
     countOtherClusterNeighbors (grid_set g y' x' v) x y id
     = countOtherClusterNeighbors g x y id) /\
  (forall v,
     0 <= y -> 0 <= x ->
     countClusterNeighbors (grid_set g y x v) x y id = countClusterNeighbors g x y id /\
     countOtherClusterNeighbors (grid_set g y x v) x y id
     = countOtherClusterNeighbors g x y id).
Proof.
  assert (Hlocal : forall g',
     (forall p, In p (Scorer.gridNeighbors x y) ->
        cell g' (fst p) (snd p) = cell g (fst p) (snd p)) ->
     countClusterNeighbors g' x y id = countClusterNeighbors g x y id /\
     countOtherClusterNeighbors g' x y id = countOtherClusterNeighbors g x y id).
  { intros g' Hagree.
    rewrite !Scorer.countClusterNeighbors_tally, !Scorer.countOtherClusterNeighbors_tally.
    split; apply Neighbourhood.tally_ext; intros p Hp;
      unfold Scorer.isSame, Scorer.isOther; rewrite (Hagree p Hp); reflexivity. }
  assert (Hwrite : forall y' x' v,
     0 <= y' -> 0 <= x' -> ~ In (y', x') (Scorer.gridNeighbors x y) ->
     countClusterNeighbors (grid_set g y' x' v) x y id = countClusterNeighbors g x y id /\
     countOtherClusterNeighbors (grid_set g y' x' v) x y id
     = countOtherClusterNeighbors g x y id).
  { intros y' x' v Hy' Hx' Hnot. apply Hlocal. intros p Hp.
    apply Neighbourhood.cell_set_other; [exact Hy'|exact Hx'| |].
    - apply (Scorer.gridNeighbors_in_grid x y p Hp).
    - intros He. apply Hnot. destruct p as [py px]. cbn [fst snd] in He.
      rewrite <- He. exact Hp. }
  split; [exact Hlocal|]. split; [exact Hwrite|].
  intros v Hy Hx. apply Hwrite; [exact Hy|exact Hx|apply Neighbourhood.centre_not_neighbour].
Qed.

Lemma neighbour_counts_are_local_witness :
  0 <= 3 /\ 0 <= 4 /\
  countClusterNeighbors (grid_set striped_grid 3 4 9) 4 3 1
  = countClusterNeighbors striped_grid 4 3 1.
Proof.
  assert (Hy : 0 <= 3) by lia. assert (Hx : 0 <= 4) by lia.
  destruct (neighbour_counts_are_local striped_grid 4 3 1) as (_ & _ & Hc).
  split; [exact Hy|]. split; [exact Hx|].
  apply (Hc 9 Hy Hx).
Defined.

(** ** More on the update step *)

Module UpdateFacts.

(** Exchanging two entries of a list permutes it. *)
Lemma swap_entries_permutation (l : list Z) (a b : nat) (pa pb : Z) :
  l !! a = Some pa -> l !! b = Some pb ->
  Permutation (<[b := pa]> (<[a := pb]> l)) l.
Proof.
  intros Ha Hb. apply (Permutation_count_occ Z.eq_dec). intros v.
  assert (Hb' : <[a := pb]> l !! b = Some pb).
  { destruct (decide (a = b)) as [->|Hne].
    - apply list_lookup_insert_eq. eapply lookup_lt_Some. exact Hb.
    - rewrite list_lookup_insert_ne by exact Hne. exact Hb. }
  pose proof (GridFacts.count_occ_insert l a pa pb v Ha).
  pose proof (GridFacts.count_occ_insert _ b pb pa v Hb'). lia.
Qed.

(** The timers after a call that returns. *)
Lemma update_timers rng t st k st' k' :
  updatePortfolioPattern rng t st k = Ok (st', k') ->
  clusters st' = clusters st /\ numClusters st' = numClusters st /\
  forall (c : nat) cl last,
    (c < Z.to_nat (numClusters st))%nat ->
    clusters st !! c = Some cl -> lastUpdateTime st !! c = Some last ->
    lastUpdateTime st' !! c = Some (if notDue t last cl then last else t).
Proof.
  intros Hrun. unfold updatePortfolioPattern in Hrun.
  destruct (for_loop _ _ _ _) as [[[st1 off1] k1]|] eqn:Hloop; cbn [bind] in Hrun;
    [|discriminate].
  cbn [fst snd] in Hrun. injection Hrun as <- <-.
  pose (P := fun (m : nat) (fr : Frame) =>
    let s := fst (fst fr) in
    clusters s = clusters st /\ numClusters s = numClusters st /\
    (forall c : nat, (m <= c)%nat -> lastUpdateTime s !! c = lastUpdateTime st !! c) /\
    (forall (c : nat) cl last, (c < m)%nat -> clusters st !! c = Some cl ->
       lastUpdateTime st !! c = Some last ->
       lastUpdateTime s !! c = Some (if notDue t last cl then last else t))).
  assert (HP : P (Z.to_nat (numClusters st)) (st1, off1, k1)).
  { refine (Engine.for_loop_inv (clusterStep rng t) P _ _ _ _ _ _ Hloop).
    { unfold P. cbn [fst snd]. repeat split; try reflexivity; intros; lia. }
    intros m [[s off] j] [[s2 off2] j2] Hm (Hcs & Hnum & Hlater & Hdone) Hstep.
    cbn [fst snd] in Hcs, Hnum, Hlater, Hdone. rewrite Z.add_0_l in Hstep.
    apply Engine.clusterStep_Ok in Hstep.
    destruct Hstep as (cl & last & _ & Hcl & Hlast & Hout).
    rewrite Nat2Z.id in Hcl, Hlast. rewrite Hcs in Hcl.
    pose proof Hlast as Hlast0. rewrite (Hlater m ltac:(lia)) in Hlast0.
    assert (Hfacts : clusters s2 = clusters s /\ numClusters s2 = numClusters s /\
              lastUpdateTime s2
              = if notDue t last cl then lastUpdateTime s else <[m := t]> (lastUpdateTime s)).
    { destruct Hout as [Hdue -> _ _|Hdue _ -> _ _|a sa ka b sb Hdue _ _ _ _ Hsw];
        rewrite Hdue; cbn [set_lastUpdateTime clusters numClusters lastUpdateTime];
        rewrite ?Nat2Z.id; try (repeat split; reflexivity).
      destruct Hsw as [[_ ->]|[_ Hswap]].
      - cbn [set_lastUpdateTime clusters numClusters lastUpdateTime].
        rewrite Nat2Z.id. repeat split; reflexivity.
      - apply Engine.swapPixels_Ok in Hswap.
        destruct Hswap as (pa & pb & p1 & p2 & v1 & v2 & _ & _ & _ & _ & _ & _ & _ & _ & ->).
        cbn [set_lastUpdateTime clusters numClusters lastUpdateTime].
        rewrite Nat2Z.id. repeat split; reflexivity. }
    destruct Hfacts as (Hc2 & Hn2 & Ht2).
    unfold P. cbn [fst snd]. split; [congruence|]. split; [congruence|]. split.
    - intros c Hc. rewrite Ht2. destruct (notDue t last cl).
      + apply Hlater. lia.
      + rewrite list_lookup_insert_ne by lia. apply Hlater. lia.
    - intros c clc lc Hc Hclc Hlc. rewrite Ht2.
      destruct (decide (c = m)) as [->|Hne].
      + assert (clc = cl) by congruence. assert (lc = last) by congruence. subst.
        destruct (notDue t last cl); [exact Hlast|].
        apply list_lookup_insert_eq. eapply lookup_lt_Some. exact Hlast.
      + assert (Hold : lastUpdateTime s !! c
                       = Some (if notDue t lc clc then lc else t))
          by (apply Hdone; [lia|assumption..]).
        destruct (notDue t last cl); [exact Hold|].
        rewrite list_lookup_insert_ne by lia. exact Hold. }
  destruct HP as (Hcs & Hnum & _ & Hdone). cbn [fst snd] in *.
  split; [exact Hcs|]. split; [exact Hnum|].
  intros c cl last Hc. apply Hdone. exact Hc.
Qed.

Lemma elapsed_after_rollover last d :
  0 <= d < ULONG_MODULUS -> ((last + d) mod ULONG_MODULUS - last) mod ULONG_MODULUS = d.
Proof.
  intros Hd. rewrite Zminus_mod_idemp_l.
  replace (last + d - last) with d by lia. apply Z.mod_small. exact Hd.
Qed.

End UpdateFacts.

(** X8. A call of [updatePortfolioPattern] that returns leaves the pixel
    ordering a rearrangement of what it was (so an ordering that is a
    permutation of the 104 positions stays one), and leaves the cluster
    descriptors, their number and the mode flag alone. *)
Theorem update_keeps_ordering_permutation (rng : Rng) (t : Z) (st : State) (k : nat)
    (st' : State) (k' : nat) :
  updatePortfolioPattern rng t st k = Ok (st', k') ->
  Permutation (pixelIndices st') (pixelIndices st) /\
  (Layout.is_permutation (pixelIndices st) -> Layout.is_permutation (pixelIndices st')) /\
  clusters st' = clusters st /\ numClusters st' = numClusters st /\
  inPortfolioMode st' = inPortfolioMode st.
Proof.
  intros Hrun. unfold updatePortfolioPattern in Hrun.
  destruct (for_loop _ _ _ _) as [[[st1 off1] k1]|] eqn:Hloop; cbn [bind] in Hrun;
    [|discriminate].
  cbn [fst snd] in Hrun. injection Hrun as <- <-.
  assert (HP : Permutation (pixelIndices st1) (pixelIndices st) /\
               clusters st1 = clusters st /\ numClusters st1 = numClusters st /\
               inPortfolioMode st1 = inPortfolioMode st).
  { refine (Engine.for_loop_inv (clusterStep rng t)
      (fun _ fr =>
         Permutation (pixelIndices (fst (fst fr))) (pixelIndices st) /\
         clusters (fst (fst fr)) = clusters st /\
         numClusters (fst (fst fr)) = numClusters st /\
         inPortfolioMode (fst (fst fr)) = inPortfolioMode st)
      _ _ _ (st1, off1, k1) _ _ Hloop).
    { cbn [fst]. repeat split; reflexivity. }
    intros m [[s off] j] [[s2 off2] j2] _ (Hperm & Hcs & Hnum & Hmode) Hstep.
    cbn [fst] in *. apply Engine.clusterStep_Ok in Hstep.
    destruct Hstep as (cl & last & _ & _ & _ & Hout).
    destruct Hout as [_ -> _ _|_ _ -> _ _|a sa ka b sb _ _ _ _ _ [[_ ->]|[_ Hswap]]];
      cbn [set_lastUpdateTime pixelIndices clusters numClusters inPortfolioMode];
      try (repeat split; assumption).
    apply Engine.swapPixels_Ok in Hswap.
    destruct Hswap as (pa & pb & p1 & p2 & v1 & v2 & _ & _ & Hpa & Hpb & _ & _ & _ & _ & ->).
    cbn [set_lastUpdateTime pixelIndices clusters numClusters inPortfolioMode] in *.
    split; [|repeat split; assumption].
    etransitivity; [|exact Hperm].
    apply UpdateFacts.swap_entries_permutation; assumption. }
  destruct HP as (Hperm & Hcs & Hnum & Hmode).
  split; [exact Hperm|]. split; [|repeat split; assumption].
  unfold Layout.is_permutation. intros H. etransitivity; [exact Hperm|exact H].
Qed.

Lemma update_keeps_ordering_permutation_witness :
  updatePortfolioPattern demo_rng 60 fit_state 0 = Ok (fit_after, 12%nat) /\
  Permutation (pixelIndices fit_after) (pixelIndices fit_state).
Proof.
  assert (Hrun : updatePortfolioPattern demo_rng 60 fit_state 0 = Ok (fit_after, 12%nat))
    by (vm_compute; reflexivity).
  split; [exact Hrun|].
  destruct (update_keeps_ordering_permutation _ _ _ _ _ _ Hrun) as (Hperm & _).
  exact Hperm.
Defined.

(** X9. The due test measures elapsed time correctly across the wrap of
    the millisecond counter: when [d] milliseconds (fewer than 2^32) have
    passed since a cluster's timer was set, the cluster is skipped exactly
    when [d] is less than its speed, also when the counter has wrapped
    around in between. *)
Theorem due_test_survives_rollover (last d : Z) (cl : ClusterData) :
  0 <= d < ULONG_MODULUS -> 0 <= speed cl < ULONG_MODULUS ->
  notDue ((last + d) mod ULONG_MODULUS) last cl = (d <? speed cl).
Proof.
  intros Hd Hs. unfold notDue.
  rewrite (UpdateFacts.elapsed_after_rollover last d Hd).
  rewrite (Z.mod_small (speed cl)) by exact Hs. reflexivity.
Qed.

Lemma due_test_survives_rollover_witness :
  0 <= 30 < ULONG_MODULUS /\ 0 <= speed demo_cluster < ULONG_MODULUS /\
  notDue 19 4294967285 demo_cluster = true.
Proof.
  assert (Hd : 0 <= 30 < ULONG_MODULUS) by (unfold ULONG_MODULUS; lia).
  assert (Hs : 0 <= speed demo_cluster < ULONG_MODULUS)
    by (unfold ULONG_MODULUS; cbn; lia).
  split; [exact Hd|]. split; [exact Hs|].
  exact (due_test_survives_rollover 4294967285 30 demo_cluster Hd Hs).
Defined.

(** ** Updates of a consistent state *)

Module ConsistentUpdate.
Import Layout.

(** On a consistent state an iteration of the cluster loop leaves the
    grid: the two cells a swap exchanges hold the same id. *)
Lemma step_keeps_grid rng t s j (c : nat) s' off' j' :
  good s -> (c < Z.to_nat (numClusters s))%nat ->
  clusterStep rng t (Z.of_nat c) (s, offsetOf (clusters s) c, j) = Ok (s', off', j') ->
  pixelClusterID s' = pixelClusterID s.
Proof.
  intros ([H1 H2 H3 H4 H5 H6 H7] & Hfit & Hcons) Hc Hstep.
  apply Engine.clusterStep_Ok in Hstep.
  destruct Hstep as (cl & last & _ & Hcl & _ & Hout). rewrite Nat2Z.id in Hcl.
  destruct Hout as [_ -> _ _|_ _ -> _ _|a sa ka b sb _ Hnz Hiso Htar _ [[_ ->]|[Hab Hswap]]];
    try reflexivity.
  assert (Hpx : 0 < pixels cl).
  { rewrite Forall_forall in H7.
    assert (0 <= pixels cl); [|lia].
    apply H7, list_elem_of_lookup. exists c. rewrite lookup_take_lt by lia. exact Hcl. }
  pose proof (Engine.pass_in_range _ _ _ _ _ _ _ _ Hpx Hiso) as Ha.
  rewrite Sampling.findTarget_same in Htar.
  pose proof (Engine.pass_in_range _ _ _ _ _ _ _ _ Hpx Htar) as Hb.
  pose proof Hswap as Hinv. apply Engine.swapPixels_Ok in Hinv.
  destruct Hinv as (pa & pb & _ & _ & _ & _ & Ha104 & Hb104 & Hpa & Hpb & _).
  cbn [set_lastUpdateTime pixelIndices] in Hpa, Hpb.
  assert (Hga : grid_get (pixelClusterID s) (pa / MATRIX_WIDTH) (pa mod MATRIX_WIDTH)
                = Some (clusterID cl)).
  { apply (Hcons c cl (Z.to_nat a) pa Hc Hcl); [lia|exact Hpa]. }
  assert (Hgb : grid_get (pixelClusterID s) (pb / MATRIX_WIDTH) (pb mod MATRIX_WIDTH)
                = Some (clusterID cl)).
  { apply (Hcons c cl (Z.to_nat b) pb Hc Hcl); [lia|exact Hpb]. }
  rewrite (swapPixels_same_cluster (set_lastUpdateTime (Z.of_nat c) t s) a b pa pb
             (clusterID cl) Hab Ha104 Hb104 Hpa Hpb Hga Hgb) in Hswap.
  injection Hswap as <-. reflexivity.
Qed.

End ConsistentUpdate.

(** X10. On a state whose grid is consistent with the pixel ordering (array
    shapes as declared, pixel counts summing to at most 104, every index of
    a cluster's range mapped to a cell that holds the cluster's id), a call
    of [updatePortfolioPattern] returns and leaves the assignment grid
    exactly as it was: a swap exchanges two cells that hold the same id, so
    only the pixel ordering and the timers change. *)
Theorem update_leaves_grid_when_consistent (rng : Rng) (t : Z) (st : State) (k : nat) :
  Layout.wf_state st -> Layout.fits st -> Layout.consistent st ->
  exists st' k',
    updatePortfolioPattern rng t st k = Ok (st', k') /\
    pixelClusterID st' = pixelClusterID st /\
    Layout.wf_state st' /\ Layout.consistent st'.
Proof.
  intros Hwf Hfit Hcons.
  assert (Hgood : Layout.good st) by (split; [exact Hwf|split; assumption]).
  unfold updatePortfolioPattern.
  destruct (Engine.for_loop_total (clusterStep rng t)
    (fun m fr =>
       Layout.good (fst (fst fr)) /\ clusters (fst (fst fr)) = clusters st /\
       numClusters (fst (fst fr)) = numClusters st /\
       snd (fst fr) = Layout.offsetOf (clusters st) m /\
       pixelClusterID (fst (fst fr)) = pixelClusterID st)
    (Z.to_nat (numClusters st)) 0 (st, 0, k))
    as ([[st' off'] k'] & Hrun & Hg & _ & _ & _ & Hgrid).
  - cbn [fst snd]. split; [exact Hgood|]. repeat split.
  - intros m [[s off] j] Hm (Hg & Hc & Hn & Hoff & Hgrid). cbn [fst snd] in *. subst off.
    destruct (Layout.step_good rng t s j m Hg) as (s' & j' & Hstep & Hg' & Hc' & Hn').
    { rewrite Hn. exact Hm. }
    pose proof (ConsistentUpdate.step_keeps_grid rng t s j m _ _ _ Hg
                  ltac:(rewrite Hn; exact Hm) Hstep) as Hsame.
    rewrite Hc in Hstep. rewrite Z.add_0_l.
    exists (s', Layout.offsetOf (clusters st) (S m), j'). cbn [fst snd].
    split; [exact Hstep|]. split; [exact Hg'|].
    split; [congruence|]. split; [congruence|]. split; [reflexivity|congruence].
  - rewrite Hrun. cbn [bind fst snd] in *. exists st', k'.
    split; [reflexivity|]. split; [exact Hgrid|]. split; apply Hg.
Qed.

Lemma update_leaves_grid_when_consistent_witness :
  Layout.wf_state fit_state /\ Layout.fits fit_state /\ Layout.consistent fit_state /\
  updatePortfolioPattern demo_rng 60 fit_state 0 = Ok (fit_after, 12%nat) /\
  pixelIndices fit_after <> pixelIndices fit_state /\
  pixelClusterID fit_after = pixelClusterID fit_state.
Proof.
  destruct fit_state_well_formed as [Hwf Hfit].
  assert (Hcons : Layout.consistent fit_state).
  { destruct (Layout.set_good fitting_json initial_state eq_refl eq_refl
                (Permutation_refl _)) as (st1 & Hset & Hgood & _).
    - vm_compute. discriminate.
    - vm_compute. discriminate.
    - vm_compute. repeat constructor; discriminate.
    - assert (Hd : setPortfolioMode fitting_json initial_state = Ok fit_state)
        by (vm_compute; reflexivity).
      rewrite Hd in Hset. injection Hset as <-. apply Hgood. }
  assert (Hrun : updatePortfolioPattern demo_rng 60 fit_state 0 = Ok (fit_after, 12%nat))
    by (vm_compute; reflexivity).
  destruct (update_leaves_grid_when_consistent demo_rng 60 fit_state 0 Hwf Hfit Hcons)
    as (st' & k' & Hrun' & Hgrid & _).
  rewrite Hrun in Hrun'. injection Hrun' as <- <-.
  split; [exact Hwf|]. split; [exact Hfit|]. split; [exact Hcons|].
  split; [exact Hrun|]. split; [vm_compute; discriminate|exact Hgrid].
Defined.

(** ** Rate limiting and the cost of a call *)

(** X11. A cluster the update step has processed at time [t] is not
    processed again until its speed has elapsed: in a later call at a time
    [t2] with [(t2 - t) mod 2^32] below the cluster's speed the cluster is
    skipped, so its timer still reads [t] afterwards. *)
Theorem processed_cluster_waits (rng : Rng) (t t2 : Z) (st st1 st2 : State)
    (k k1 k2 : nat) (c : nat) (cl : ClusterData) (last : Z) :
  updatePortfolioPattern rng t st k = Ok (st1, k1) ->
  updatePortfolioPattern rng t2 st1 k1 = Ok (st2, k2) ->
  (c < Z.to_nat (numClusters st))%nat ->
  clusters st !! c = Some cl -> lastUpdateTime st !! c = Some last ->
  notDue t last cl = false ->
  (t2 - t) mod ULONG_MODULUS < speed cl mod ULONG_MODULUS ->
  lastUpdateTime st1 !! c = Some t /\
  notDue t2 t cl = true /\
  lastUpdateTime st2 !! c = Some t.
Proof.
  intros Hrun1 Hrun2 Hc Hcl Hlast Hdue Hwait.
  destruct (UpdateFacts.update_timers _ _ _ _ _ _ Hrun1) as (Hcs1 & Hn1 & Ht1).
  destruct (UpdateFacts.update_timers _ _ _ _ _ _ Hrun2) as (_ & _ & Ht2).
  pose proof (Ht1 c cl last Hc Hcl Hlast) as Hnow. rewrite Hdue in Hnow.
  assert (Hskip : notDue t2 t cl = true).
  { unfold notDue. apply Z.ltb_lt. exact Hwait. }
  split; [exact Hnow|]. split; [exact Hskip|].
  rewrite (Ht2 c cl t); [rewrite Hskip; reflexivity|congruence|congruence|exact Hnow].
Qed.

Lemma processed_cluster_waits_witness :
  exists st2 k2,
    updatePortfolioPattern demo_rng 60 fit_state 0 = Ok (fit_after, 12%nat) /\
    updatePortfolioPattern demo_rng 90 fit_after 12 = Ok (st2, k2) /\
    lastUpdateTime st2 !! 1%nat = Some 60.
Proof.
  assert (Hrun1 : updatePortfolioPattern demo_rng 60 fit_state 0 = Ok (fit_after, 12%nat))
    by (vm_compute; reflexivity).
  destruct (Totality.update_total demo_rng 90 fit_after 12) as (st2 & k2 & Hrun2 & _).
  { destruct (Totality.update_total demo_rng 60 fit_state 0) as (s & j & Hs & Hwf & _);
      [apply fit_state_well_formed..|].
    rewrite Hrun1 in Hs. injection Hs as <- <-. exact Hwf. }
  { vm_compute. discriminate. }
  exists st2, k2. split; [exact Hrun1|]. split; [exact Hrun2|].
  apply (processed_cluster_waits demo_rng 60 90 fit_state fit_after st2 0 12 k2 1
           (mkCluster 2 30 150 5 40 "MSFT") 0 Hrun1 Hrun2); try reflexivity.
  vm_compute. lia.
Defined.

(** X12. A call of [updatePortfolioPattern] that returns draws a bounded
    number of random numbers: with clustering strengths of at most 10, as
    loaded descriptors have, at most 22 for each active cluster (two
    fallbacks and twice the strength), and never moves the cursor back. *)
Theorem update_draw_budget (rng : Rng) (t : Z) (st : State) (k : nat)
    (st' : State) (k' : nat) :
  Forall (fun cl => clustering cl <= 10)
         (take (Z.to_nat (numClusters st)) (clusters st)) ->
  updatePortfolioPattern rng t st k = Ok (st', k') ->
  (k <= k' <= k + 22 * Z.to_nat (numClusters st))%nat.
Proof.
  intros Hcl Hrun. unfold updatePortfolioPattern in Hrun.
  destruct (for_loop _ _ _ _) as [[[st1 off1] k1]|] eqn:Hloop; cbn [bind] in Hrun;
    [|discriminate].
  cbn [fst snd] in Hrun. injection Hrun as <- <-.
  assert (HP : clusters st1 = clusters st /\
               (k <= k1 <= k + 22 * Z.to_nat (numClusters st))%nat); [|apply HP].
  refine (Engine.for_loop_inv (clusterStep rng t)
    (fun m fr => clusters (fst (fst fr)) = clusters st /\ (k <= snd fr <= k + 22 * m)%nat)
    _ _ _ (st1, off1, k1) _ _ Hloop).
  { cbn [fst snd]. split; [reflexivity|lia]. }
  intros m [[s off] j] [[s2 off2] j2] Hm (Hcs & Hj) Hstep. cbn [fst snd] in *.
  rewrite Z.add_0_l in Hstep. apply Engine.clusterStep_Ok in Hstep.
  destruct Hstep as (cl & last & _ & Hc & _ & Hout).
  rewrite Nat2Z.id, Hcs in Hc.
  assert (Hstrength : clustering cl <= 10).
  { rewrite Forall_forall in Hcl. apply Hcl, list_elem_of_lookup. exists m.
    rewrite lookup_take_lt by exact Hm. exact Hc. }
  destruct Hout as [_ -> _ ->|_ _ -> _ ->|a sa ka b sb _ _ Hiso Htar _ Hsw].
  - split; [exact Hcs|lia].
  - split; [exact Hcs|lia].
  - unfold findIsolated in Hiso. apply Sampling.isolated_loop in Hiso.
    rewrite Sampling.findTarget_same in Htar.
    unfold findIsolated in Htar. apply Sampling.isolated_loop in Htar.
    destruct Hiso as [_ ->], Htar as [_ ->]. split; [|lia].
    destruct Hsw as [[_ ->]|[_ Hswap]]; [exact Hcs|].
    apply Engine.swapPixels_Ok in Hswap.
    destruct Hswap as (pa & pb & p1 & p2 & v1 & v2 & _ & _ & _ & _ & _ & _ & _ & _ & ->).
    exact Hcs.
Qed.

Lemma update_draw_budget_witness :
  Forall (fun cl => clustering cl <= 10)
         (take (Z.to_nat (numClusters fit_state)) (clusters fit_state)) /\
  updatePortfolioPattern demo_rng 60 fit_state 0 = Ok (fit_after, 12%nat) /\
  (0 <= 12 <= 0 + 22 * Z.to_nat (numClusters fit_state))%nat.
Proof.
  assert (H1 : Forall (fun cl => clustering cl <= 10)
                 (take (Z.to_nat (numClusters fit_state)) (clusters fit_state)))
    by (vm_compute; repeat constructor; discriminate).
  assert (H2 : updatePortfolioPattern demo_rng 60 fit_state 0 = Ok (fit_after, 12%nat))
    by (vm_compute; reflexivity).
  split; [exact H1|]. split; [exact H2|].
  exact (update_draw_budget demo_rng 60 fit_state 0 fit_after 12 H1 H2).
Defined.

(** ** Writing descriptors in the expected format *)

Module Render.

Definition digit_char (d : Z) : ascii := ascii_of_nat (48 + Z.to_nat d).

(** Decimal digits of a number below [10 ^ fuel], most significant first. *)
Fixpoint dec_nat (fuel : nat) (n : Z) : string :=
  match fuel with
  | O => EmptyString
  | S f =>
      if n <? 10 then String (digit_char n) EmptyString
      else dec_nat f (n / 10) ++ String (digit_char (n mod 10)) EmptyString
  end.

(** Decimal text of an [int]. *)
Definition dec (n : Z) : string :=
  if n <? 0 then String "-" (dec_nat 10 (- n)) else dec_nat 10 n.

Fixpoint ndigits (fuel : nat) (n : Z) : nat :=
  match fuel with
  | O => 0
  | S f => if n <? 10 then 1 else S (ndigits f (n / 10))
  end.

Fixpoint all_chars (p : ascii -> bool) (s : string) : bool :=
  match s with
  | EmptyString => true
  | String a rest => p a && all_chars p rest
  end.

Definition is_numchar (c : ascii) : bool :=
  Ascii.eqb c "-" || match digit_value c with Some _ => true | None => false end.

Lemma append_assoc (a b c : string) : ((a ++ b) ++ c = a ++ (b ++ c))%string.
Proof. induction a as [|x a IH]; cbn; [reflexivity|]. now rewrite IH. Qed.

Lemma append_length (a b : string) :
  String.length (a ++ b) = (String.length a + String.length b)%nat.
Proof. induction a as [|x a IH]; cbn; [reflexivity|]. now rewrite IH. Qed.

Lemma all_chars_app p (a b : string) :
  all_chars p (a ++ b) = all_chars p a && all_chars p b.
Proof.
  induction a as [|x a IH]; cbn; [reflexivity|]. rewrite IH. apply andb_assoc.
Qed.

Lemma all_chars_impl (p q : ascii -> bool) (s : string) :
  (forall c, p c = true -> q c = true) -> all_chars p s = true -> all_chars q s = true.
Proof.
  intros H. induction s as [|x s IH]; cbn; [reflexivity|].
  rewrite !andb_true_iff. intros [Hx Hs]. split; [apply H; exact Hx|apply IH; exact Hs].
Qed.

Lemma digit_cases (d : Z) :
  0 <= d <= 9 ->
  d = 0 \/ d = 1 \/ d = 2 \/ d = 3 \/ d = 4 \/ d = 5 \/ d = 6 \/ d = 7 \/ d = 8 \/ d = 9.
Proof. lia. Qed.

Ltac each_digit H :=
  apply digit_cases in H;
  repeat (destruct H as [H|H]; [subst|]); subst.

Lemma digit_value_char d : 0 <= d <= 9 -> digit_value (digit_char d) = Some d.
Proof. intros H. each_digit H; reflexivity. Qed.

Lemma digit_char_numchar d : 0 <= d <= 9 -> is_numchar (digit_char d) = true.
Proof. intros H. each_digit H; reflexivity. Qed.

Lemma pow10_pos (k : nat) : 0 < 10 ^ Z.of_nat k.
Proof. apply Z.pow_pos_nonneg; lia. Qed.

Lemma pow10_S (k : nat) : 10 ^ Z.of_nat (S k) = 10 * 10 ^ Z.of_nat k.
Proof. rewrite Nat2Z.inj_succ, Z.pow_succ_r by lia. reflexivity. Qed.

(** Reading back the digits that [dec_nat] wrote. *)
Lemma read_digits_dec_nat : forall f n rest a,
  0 <= n < 10 ^ Z.of_nat f ->
  read_digits (dec_nat f n ++ rest) a
  = read_digits rest (a * 10 ^ Z.of_nat (ndigits f n) + n).
Proof.
  induction f as [|f IH]; intros n rest a Hn.
  { cbn in Hn. assert (n = 0) by lia. subst n. cbn [dec_nat ndigits append].
    f_equal. cbn. lia. }
  cbn [dec_nat ndigits]. rewrite pow10_S in Hn.
  destruct (Z.ltb_spec n 10) as [Hlt|Hge].
  - cbn [append read_digits]. rewrite digit_value_char by lia. f_equal.
    change (Z.of_nat 1) with 1. lia.
  - rewrite append_assoc. cbn [append].
    assert (Hq : 0 <= n / 10 < 10 ^ Z.of_nat f).
    { split; [apply Z.div_pos; lia|apply Z.div_lt_upper_bound; lia]. }
    rewrite (IH (n / 10) _ a Hq). cbn [read_digits].
    pose proof (Z.mod_pos_bound n 10 ltac:(lia)) as Hm.
    rewrite digit_value_char by lia. f_equal.
    rewrite pow10_S. pose proof (Z.div_mod n 10 ltac:(lia)). lia.
Qed.

Lemma dec_nat_numchars : forall f n,
  0 <= n -> all_chars is_numchar (dec_nat f n) = true.
Proof.
  induction f as [|f IH]; intros n Hn; cbn [dec_nat]; [reflexivity|].
  destruct (Z.ltb_spec n 10) as [Hlt|Hge].
  - cbn [all_chars]. rewrite digit_char_numchar by lia. reflexivity.
  - rewrite all_chars_app, IH by (apply Z.div_pos; lia). cbn [all_chars andb].
    pose proof (Z.mod_pos_bound n 10 ltac:(lia)).
    rewrite digit_char_numchar by lia. reflexivity.
Qed.

Lemma dec_nat_starts_with_digit : forall f n,
  0 <= n -> exists d s, 0 <= d <= 9 /\ dec_nat (S f) n = String (digit_char d) s.
Proof.
  induction f as [|f IH]; intros n Hn; cbn [dec_nat].
  - destruct (Z.ltb_spec n 10); [exists n, EmptyString; split; [lia|reflexivity]|].
    cbn [append]. exists (n mod 10), EmptyString.
    pose proof (Z.mod_pos_bound n 10 ltac:(lia)). split; [lia|reflexivity].
  - destruct (Z.ltb_spec n 10) as [Hlt|Hge];
      [exists n, EmptyString; split; [lia|reflexivity]|].
    destruct (IH (n / 10) ltac:(apply Z.div_pos; lia)) as (d & s & Hd & He).
    cbn [dec_nat] in He. rewrite He. cbn [append]. eauto.
Qed.

Lemma dec_nat_length : forall f n, (String.length (dec_nat f n) <= f)%nat.
Proof.
  induction f as [|f IH]; intros n; cbn [dec_nat]; [cbn; lia|].
  destruct (n <? 10); [cbn; lia|].
  rewrite append_length. cbn [String.length]. specialize (IH (n / 10)). lia.
Qed.

Lemma dec_numchars n : all_chars is_numchar (dec n) = true.
Proof.
  unfold dec. destruct (Z.ltb_spec n 0).
  - cbn [all_chars]. rewrite dec_nat_numchars by lia. reflexivity.
  - apply dec_nat_numchars. lia.
Qed.

Lemma dec_length n : (String.length (dec n) <= 11)%nat.
Proof.
  unfold dec. pose proof (dec_nat_length 10 n). pose proof (dec_nat_length 10 (- n)).
  destruct (n <? 0); cbn [String.length]; lia.
Qed.

Lemma atoi_digit_start d s :
  0 <= d <= 9 ->
  atoi (String (digit_char d) s) = saturate (read_digits (String (digit_char d) s) 0).
Proof. intros H. each_digit H; reflexivity. Qed.

Lemma atoi_minus s : atoi (String "-" s) = saturate (- read_digits s 0).
Proof. reflexivity. Qed.

(** Text that cannot continue a number: the end, or a character that is
    not a digit. *)
Definition ends_number (rest : string) : bool :=
  match rest with
  | EmptyString => true
  | String c _ => match digit_value c with Some _ => false | None => true end
  end.

Lemma read_digits_stop rest a : ends_number rest = true -> read_digits rest a = a.
Proof.
  destruct rest as [|c rest]; [reflexivity|]. cbn [ends_number read_digits].
  destruct (digit_value c); [discriminate|reflexivity].
Qed.

(** [atoi] reads back the decimal text of any [int]. *)
Lemma atoi_dec n rest :
  INT_MIN <= n <= INT_MAX -> ends_number rest = true -> atoi (dec n ++ rest) = n.
Proof.
  unfold INT_MIN, INT_MAX. intros Hn Hrest. unfold dec.
  destruct (Z.ltb_spec n 0) as [Hneg|Hpos].
  - cbn [append]. rewrite atoi_minus.
    rewrite read_digits_dec_nat by (change (10 ^ Z.of_nat 10) with 10000000000; lia).
    rewrite read_digits_stop by exact Hrest.
    unfold saturate, INT_MIN, INT_MAX. lia.
  - destruct (dec_nat_starts_with_digit 9 n Hpos) as (d & s & Hd & He).
    pose proof (read_digits_dec_nat 10 n rest 0
                  ltac:(change (10 ^ Z.of_nat 10) with 10000000000; lia)) as Hread.
    rewrite He in Hread |- *. cbn [append] in Hread |- *.
    rewrite (atoi_digit_start d _ Hd), Hread.
    rewrite read_digits_stop by exact Hrest.
    unfold saturate, INT_MIN, INT_MAX. lia.
Qed.


(** *** Scanning over rendered text *)

Lemma prefix_nil s : String.prefix EmptyString s = true.
Proof. destruct s; reflexivity. Qed.

Lemma prefix_cons a s1 s2 : String.prefix (String a s1) (String a s2) = String.prefix s1 s2.
Proof. cbn [String.prefix]. destruct (ascii_dec a a); [reflexivity|congruence]. Qed.

Lemma strstr_found s needle : String.prefix needle s = true -> strstr s needle = Some s.
Proof. intros H. destruct s; cbn [strstr]; rewrite H; reflexivity. Qed.

Lemma strstr_cons_skip c s needle :
  String.prefix needle (String c s) = false -> strstr (String c s) needle = strstr s needle.
Proof. intros H. cbn [strstr]. rewrite H. reflexivity. Qed.

Lemma strstr_skip_chars pre s q needle :
  all_chars (fun c => negb (Ascii.eqb c q)) pre = true ->
  strstr (pre ++ s) (String q needle) = strstr s (String q needle).
Proof.
  induction pre as [|c pre IH]; intros H; [reflexivity|].
  cbn [all_chars] in H. apply andb_true_iff in H. destruct H as [Hc Hpre].
  cbn [append]. rewrite strstr_cons_skip; [apply IH; exact Hpre|].
  cbn [String.prefix]. destruct (ascii_dec q c) as [->|_]; [|reflexivity].
  rewrite Ascii.eqb_refl in Hc. discriminate.
Qed.

Lemma strchr_skip_chars pre s x :
  all_chars (fun c => negb (Ascii.eqb c x)) pre = true ->
  strchr (pre ++ s) x = strchr s x.
Proof.
  induction pre as [|c pre IH]; intros H; [reflexivity|].
  cbn [all_chars] in H. apply andb_true_iff in H. destruct H as [Hc Hpre].
  cbn [append strchr]. destruct (Ascii.eqb c x); [discriminate|]. apply IH. exact Hpre.
Qed.

Lemma strchr_all_chars s x :
  strchr s x = None -> all_chars (fun c => negb (Ascii.eqb c x)) s = true.
Proof.
  induction s as [|c s IH]; [reflexivity|]. cbn [strchr all_chars].
  destruct (Ascii.eqb c x); [discriminate|]. exact IH.
Qed.

Lemma numchar_not (x : ascii) :
  is_numchar x = false ->
  forall c, is_numchar c = true -> negb (Ascii.eqb c x) = true.
Proof.
  intros Hx c Hc. destruct (Ascii.eqb_spec c x) as [->|]; [congruence|reflexivity].
Qed.

Lemma dec_avoids n (x : ascii) :
  is_numchar x = false -> all_chars (fun c => negb (Ascii.eqb c x)) (dec n) = true.
Proof.
  intros Hx. eapply all_chars_impl; [apply numchar_not; exact Hx|apply dec_numchars].
Qed.

Lemma skip_blank_numchars s rest :
  all_chars is_numchar s = true -> s <> EmptyString ->
  skip_while is_blank (s ++ rest) = (s ++ rest)%string.
Proof.
  destruct s as [|c s]; [congruence|]. cbn [all_chars append skip_while].
  intros H _. apply andb_true_iff in H. destruct H as [Hc _].
  destruct (is_blank c) eqn:Hb; [|reflexivity].
  unfold is_blank in Hb. apply Ascii.eqb_eq in Hb. subst c. discriminate.
Qed.

Lemma dec_not_empty n : dec n <> EmptyString.
Proof.
  unfold dec. destruct (Z.ltb_spec n 0); [discriminate|].
  destruct (dec_nat_starts_with_digit 9 n ltac:(lia)) as (d & s & _ & ->). discriminate.
Qed.

(** What [extractInt] does once the scan has reached the key: it reads the
    number that follows. *)
Lemma read_field n rest :
  INT_MIN <= n <= INT_MAX -> ends_number rest = true ->
  atoi (skip_while is_blank (dec n ++ rest)) = n.
Proof.
  intros Hn Hrest.
  rewrite skip_blank_numchars by (apply dec_numchars || apply dec_not_empty).
  apply atoi_dec; assumption.
Qed.

(** *** The expected format *)

(** The text of one descriptor, as the comment above [parseClusterData]
    gives it:
    [{"cluster_id":1,"pixels":20,"brightness":180,"clustering":3,"speed":100,"symbol":"AAPL"}]. *)
Definition render (cl : ClusterData) : string :=
  String "{" (String dquote ("cluster_id" ++ String dquote (String ":" (dec (clusterID cl) ++
  String "," (String dquote ("pixels" ++ String dquote (String ":" (dec (pixels cl) ++
  String "," (String dquote ("brightness" ++ String dquote (String ":" (dec (brightness cl) ++
  String "," (String dquote ("clustering" ++ String dquote (String ":" (dec (clustering cl) ++
  String "," (String dquote ("speed" ++ String dquote (String ":" (dec (speed cl) ++
  String "," (String dquote ("symbol" ++ String dquote (String ":" (String dquote
    (symbol cl ++ String dquote (String "}" EmptyString)))))))))))))))))))))))))).

(** A descriptor the format can carry: the numbers as the loader clamps
    them, the id an [int], the symbol at most 9 characters without a double
    quote. *)
Definition storable (cl : ClusterData) : Prop :=
  INT_MIN <= clusterID cl <= INT_MAX /\ Loader.clamped cl /\
  (String.length (symbol cl) <= 9)%nat /\ strchr (symbol cl) dquote = None.

Ltac scan_step :=
  first
    [ rewrite strstr_cons_skip by reflexivity
    | rewrite (strstr_skip_chars (dec _)) by (apply dec_avoids; reflexivity) ].

Ltac scan_to_key :=
  repeat scan_step;
  rewrite strstr_found by (repeat rewrite prefix_cons; apply prefix_nil).

Lemma extractInt_cluster_id cl :
  INT_MIN <= clusterID cl <= INT_MAX ->
  extractInt (render cl) "cluster_id" = clusterID cl.
Proof.
  intros H. unfold extractInt.
  change (searchStr_int "cluster_id")
    with (String dquote ("cluster_id" ++ String dquote (String ":" EmptyString))).
  unfold render. cbn [append]. scan_to_key.
  cbn [String.length advance]. apply read_field; [exact H|reflexivity].
Qed.


Lemma extractInt_pixels cl :
  INT_MIN <= pixels cl <= INT_MAX -> extractInt (render cl) "pixels" = pixels cl.
Proof.
  intros H. unfold extractInt.
  change (searchStr_int "pixels")
    with (String dquote ("pixels" ++ String dquote (String ":" EmptyString))).
  unfold render. cbn [append]. scan_to_key.
  cbn [String.length advance]. apply read_field; [exact H|reflexivity].
Qed.

Lemma extractInt_brightness cl :
  INT_MIN <= brightness cl <= INT_MAX ->
  extractInt (render cl) "brightness" = brightness cl.
Proof.
  intros H. unfold extractInt.
  change (searchStr_int "brightness")
    with (String dquote ("brightness" ++ String dquote (String ":" EmptyString))).
  unfold render. cbn [append]. scan_to_key.
  cbn [String.length advance]. apply read_field; [exact H|reflexivity].
Qed.

Lemma extractInt_clustering cl :
  INT_MIN <= clustering cl <= INT_MAX ->
  extractInt (render cl) "clustering" = clustering cl.
Proof.
  intros H. unfold extractInt.
  change (searchStr_int "clustering")
    with (String dquote ("clustering" ++ String dquote (String ":" EmptyString))).
  unfold render. cbn [append]. scan_to_key.
  cbn [String.length advance]. apply read_field; [exact H|reflexivity].
Qed.

Lemma extractInt_speed cl :
  INT_MIN <= speed cl <= INT_MAX -> extractInt (render cl) "speed" = speed cl.
Proof.
  intros H. unfold extractInt.
  change (searchStr_int "speed")
    with (String dquote ("speed" ++ String dquote (String ":" EmptyString))).
  unfold render. cbn [append]. scan_to_key.
  cbn [String.length advance]. apply read_field; [exact H|reflexivity].
Qed.

Lemma extractString_symbol cl :
  (String.length (symbol cl) <= 9)%nat -> strchr (symbol cl) dquote = None ->
  extractString (render cl) "symbol" 10 = symbol cl.
Proof.
  intros Hlen Hq. unfold extractString.
  change (searchStr_string "symbol")
    with (String dquote ("symbol" ++ String dquote (String ":" (String dquote EmptyString)))).
  unfold render. cbn [append]. scan_to_key.
  cbn [String.length advance].
  change (Z.to_nat (10 - 1)) with 9%nat.
  apply ScannerFacts.copy_until_quote_exact; assumption.
Qed.

Lemma parseCluster_render cl : storable cl -> parseCluster (render cl) = cl.
Proof.
  intros (Hid & (Hp & Hb & Hc & Hs) & Hlen & Hq).
  unfold parseCluster. unfold TOTAL_PIXELS, INT_MIN, INT_MAX in *.
  rewrite extractInt_cluster_id, extractInt_pixels, extractInt_brightness,
    extractInt_clustering, extractInt_speed, extractString_symbol
    by (assumption || (unfold INT_MIN, INT_MAX; lia)).
  unfold to_uint8. rewrite (Z.mod_small (brightness cl)) by lia.
  rewrite !Loader.constrain_inside by (unfold TOTAL_PIXELS; lia).
  destruct cl; reflexivity.
Qed.


(** *** A list of descriptors *)

(** [render cl] followed by [rest]. *)
Definition render_then (cl : ClusterData) (rest : string) : string :=
  String "{" (String dquote ("cluster_id" ++ String dquote (String ":" (dec (clusterID cl) ++
  String "," (String dquote ("pixels" ++ String dquote (String ":" (dec (pixels cl) ++
  String "," (String dquote ("brightness" ++ String dquote (String ":" (dec (brightness cl) ++
  String "," (String dquote ("clustering" ++ String dquote (String ":" (dec (clustering cl) ++
  String "," (String dquote ("speed" ++ String dquote (String ":" (dec (speed cl) ++
  String "," (String dquote ("symbol" ++ String dquote (String ":" (String dquote
    (symbol cl ++ String dquote (String "}" rest)))))))))))))))))))))))))).

Lemma render_app cl rest : (render cl ++ rest)%string = render_then cl rest.
Proof.
  unfold render, render_then. cbn [append].
  repeat (rewrite append_assoc; cbn [append]). reflexivity.
Qed.

Lemma render_then_length cl rest :
  String.length (render_then cl rest)
  = (74 + String.length (dec (clusterID cl)) + String.length (dec (pixels cl))
     + String.length (dec (brightness cl)) + String.length (dec (clustering cl))
     + String.length (dec (speed cl)) + String.length (symbol cl)
     + String.length rest)%nat.
Proof.
  unfold render_then. cbn [append String.length].
  repeat (rewrite append_length; cbn [String.length]). lia.
Qed.

Lemma strchr_cons_skip c s x :
  Ascii.eqb c x = false -> strchr (String c s) x = strchr s x.
Proof. intros H. cbn [strchr]. rewrite H. reflexivity. Qed.

Lemma copy_prefix_app s rest : copy_prefix (String.length s) (s ++ rest) = s.
Proof. induction s as [|c s IH]; cbn; [destruct rest; reflexivity|]. now rewrite IH. Qed.

(** A descriptor the format can carry inside a list: its symbol also holds
    no closing brace, which would end the record early. *)
Definition listable (cl : ClusterData) : Prop :=
  storable cl /\ strchr (symbol cl) "}" = None.

Lemma closing_brace cl rest :
  strchr (symbol cl) "}" = None ->
  strchr (render_then cl rest) "}" = Some (String "}" rest).
Proof.
  intros Hsym. unfold render_then. cbn [append].
  repeat first
    [ rewrite strchr_cons_skip by reflexivity
    | rewrite (strchr_skip_chars (dec _)) by (apply dec_avoids; reflexivity) ].
  rewrite (strchr_skip_chars (symbol cl)) by (apply strchr_all_chars; exact Hsym).
  rewrite strchr_cons_skip by reflexivity. reflexivity.
Qed.

(** One turn of the scanning loop over a rendered record. *)
Lemma scan_one slots cl rest :
  listable cl ->
  Loader.scanRecords (S slots) (render cl ++ rest) = cl :: Loader.scanRecords slots rest.
Proof.
  intros [Hst Hsym]. cbn [Loader.scanRecords]. rewrite render_app.
  assert (Hopen : strchr (render_then cl rest) "{" = Some (render_then cl rest))
    by reflexivity.
  rewrite Hopen, (closing_brace cl rest Hsym).
  assert (Hlen : strlen (render_then cl rest) - strlen (String "}" rest) + 1
                 = Z.of_nat (String.length (render cl))).
  { unfold strlen. change (render cl) with (render_then cl EmptyString).
    rewrite !render_then_length. cbn [String.length]. lia. }
  rewrite Hlen.
  assert (Hshort : (String.length (render cl) < 256)%nat).
  { change (render cl) with (render_then cl EmptyString). rewrite render_then_length.
    destruct Hst as (_ & _ & Hs & _).
    pose proof (dec_length (clusterID cl)). pose proof (dec_length (pixels cl)).
    pose proof (dec_length (brightness cl)). pose proof (dec_length (clustering cl)).
    pose proof (dec_length (speed cl)). cbn [String.length]. lia. }
  destruct (Z.leb_spec 256 (Z.of_nat (String.length (render cl)))); [lia|].
  rewrite Nat2Z.id, <- render_app, copy_prefix_app.
  rewrite (parseCluster_render cl Hst). reflexivity.
Qed.

Fixpoint render_records (cls : list ClusterData) : string :=
  match cls with
  | [] => EmptyString
  | cl :: rest =>
      (render cl ++ match rest with
                    | [] => EmptyString
                    | _ => String "," (render_records rest)
                    end)%string
  end.

(** The configuration text [[{...},{...}]]. *)
Definition render_config (cls : list ClusterData) : string :=
  String "[" (render_records cls ++ String "]" EmptyString).

Lemma scanRecords_skip_comma slots s :
  Loader.scanRecords slots (String "," s) = Loader.scanRecords slots s.
Proof. destruct slots; reflexivity. Qed.

Lemma scanRecords_rendered cls : forall slots tail,
  Forall listable cls -> strchr tail "{" = None ->
  Loader.scanRecords slots (render_records cls ++ tail) = take slots cls.
Proof.
  induction cls as [|cl rest IH]; intros slots tail Hall Htail.
  - cbn [render_records append]. destruct slots; cbn [Loader.scanRecords].
    + reflexivity.
    + rewrite Htail. destruct slots; reflexivity.
  - apply Forall_cons in Hall. destruct Hall as [Hcl Hrest].
    destruct slots as [|slots]; [reflexivity|].
    cbn [render_records]. rewrite append_assoc, (scan_one slots cl _ Hcl).
    cbn [take]. f_equal. destruct rest as [|cl2 rest].
    + cbn [append]. destruct slots; cbn [Loader.scanRecords]; [reflexivity|].
      rewrite Htail. reflexivity.
    + cbn [append]. rewrite scanRecords_skip_comma. apply IH; assumption.
Qed.

Lemma records_rendered cls :
  Forall listable cls -> Loader.records (render_config cls) = take 6 cls.
Proof.
  intros Hall. unfold Loader.records, render_config.
  change (strchr (String "[" (render_records cls ++ String "]" EmptyString)) "[")
    with (Some (String "[" (render_records cls ++ String "]" EmptyString))).
  cbn [advance]. apply scanRecords_rendered; [exact Hall|reflexivity].
Qed.

End Render.
(** X13. On the text of a descriptor in the expected format
    ([{"cluster_id":1,"pixels":20,...,"symbol":"AAPL"}]), [extractInt]
    returns the number written for each of the five integer keys, for any
    numbers in the range of [int], negative ones included, and
    [extractString] returns the symbol, provided the symbol has at most 9
    characters and no double quote. *)
Theorem fields_read_back (cl : ClusterData) :
  INT_MIN <= clusterID cl <= INT_MAX -> INT_MIN <= pixels cl <= INT_MAX ->
  INT_MIN <= brightness cl <= INT_MAX -> INT_MIN <= clustering cl <= INT_MAX ->
  INT_MIN <= speed cl <= INT_MAX ->
  (String.length (symbol cl) <= 9)%nat -> strchr (symbol cl) dquote = None ->
  extractInt (Render.render cl) "cluster_id" = clusterID cl /\
  extractInt (Render.render cl) "pixels" = pixels cl /\
  extractInt (Render.render cl) "brightness" = brightness cl /\
  extractInt (Render.render cl) "clustering" = clustering cl /\
  extractInt (Render.render cl) "speed" = speed cl /\
  extractString (Render.render cl) "symbol" 10 = symbol cl.
Proof.
  intros H1 H2 H3 H4 H5 H6 H7.
  split; [apply Render.extractInt_cluster_id; exact H1|].
  split; [apply Render.extractInt_pixels; exact H2|].
  split; [apply Render.extractInt_brightness; exact H3|].
  split; [apply Render.extractInt_clustering; exact H4|].
  split; [apply Render.extractInt_speed; exact H5|].
  apply Render.extractString_symbol; assumption.
Qed.

Definition raw_descriptor : ClusterData := mkCluster (-3) 2147483647 300 0 (-2147483648) "BRK.B".

Lemma fields_read_back_witness :
  Render.render raw_descriptor
  = json_of "{'cluster_id':-3,'pixels':2147483647,'brightness':300,'clustering':0,'speed':-2147483648,'symbol':'BRK.B'}" /\
  extractInt (Render.render raw_descriptor) "speed" = -2147483648 /\
  extractString (Render.render raw_descriptor) "symbol" 10 = "BRK.B"%string.
Proof.
  split; [vm_compute; reflexivity|].
  destruct (fields_read_back raw_descriptor) as (_ & _ & _ & _ & Hs & Hy);
    try (unfold INT_MIN, INT_MAX; cbn; lia); try reflexivity.
  split; [exact Hs|exact Hy].
Defined.

(** X14. [parseClusterData] reads back a configuration written in the
    expected format: for descriptors within the loader's bounds whose
    symbols have at most 9 characters and contain neither a double quote nor
    a closing brace, parsing the text [[{...},{...},...]] stores exactly the
    first six of them, in order, and sets [numClusters] to their number. *)
Theorem expected_format_is_read_back (cls : list ClusterData) (st : State) :
  length (clusters st) = 6%nat -> Forall Render.listable cls ->
  let st' := parseClusterData (Render.render_config cls) st in
  numClusters st' = Z.of_nat (Nat.min 6 (length cls)) /\
  take (Z.to_nat (numClusters st')) (clusters st') = take 6 cls.
Proof.
  intros Hlen Hall st'. subst st'.
  rewrite (Loader.parseClusterData_spec _ st Hlen).
  cbn [numClusters clusters]. rewrite (Render.records_rendered cls Hall).
  rewrite length_take. split; [f_equal; lia|].
  rewrite Nat2Z.id, take_app_length'; [reflexivity|].
  rewrite length_take. lia.
Qed.

Definition two_descriptors : list ClusterData :=
  [mkCluster 1 20 180 3 100 "AAPL"; mkCluster 0 84 90 2 250 ""].

Lemma expected_format_is_read_back_witness :
  length (clusters initial_state) = 6%nat /\ Forall Render.listable two_descriptors /\
  Render.render_config two_descriptors
  = json_of "[{'cluster_id':1,'pixels':20,'brightness':180,'clustering':3,'speed':100,'symbol':'AAPL'},{'cluster_id':0,'pixels':84,'brightness':90,'clustering':2,'speed':250,'symbol':''}]" /\
  take 2 (clusters (parseClusterData (Render.render_config two_descriptors) initial_state))
  = two_descriptors.
Proof.
  assert (H1 : length (clusters initial_state) = 6%nat) by reflexivity.
  assert (H2 : Forall Render.listable two_descriptors).
  { repeat constructor; cbn; unfold INT_MIN, INT_MAX, TOTAL_PIXELS; lia. }
  destruct (expected_format_is_read_back two_descriptors initial_state H1 H2) as [Hn Ht].
  split; [exact H1|]. split; [exact H2|]. split; [vm_compute; reflexivity|].
  rewrite Hn in Ht. exact Ht.
Defined.

(** ** A configuration followed by its first updates *)

Module FirstUpdate.

(** What a call of [setPortfolioMode] that returns has stored. *)
Lemma set_Ok_facts json st st1 :
  setPortfolioMode json st = Ok st1 ->
  let st0 := parseClusterData json st in
  clusters st1 = clusters st0 /\ numClusters st1 = numClusters st0 /\
  pixelIndices st1 = pixelIndices st0 /\
  (numClusters st0 <> 0 ->
     lastUpdateTime st1 = resetTimers (lastUpdateTime st0) /\ inPortfolioMode st1 = true).
Proof.
  intros Hset st0. unfold setPortfolioMode in Hset. fold st0 in Hset.
  destruct (Z.eqb_spec (numClusters st0) 0) as [Hz|Hnz].
  - injection Hset as <-. cbn [clusters numClusters pixelIndices].
    split; [reflexivity|]. split; [reflexivity|]. split; [reflexivity|].
    intros Hne. contradiction.
  - destruct (for_loop _ _ _ _) as [gp|]; cbn [bind] in Hset; [|discriminate].
    injection Hset as <-. cbn [clusters numClusters pixelIndices lastUpdateTime
      inPortfolioMode].
    split; [reflexivity|]. split; [reflexivity|]. split; [reflexivity|].
    intros _. split; reflexivity.
Qed.

(** A call in which no active cluster is due returns the state and the
    cursor it was given. *)
Lemma update_all_skipped rng t st k :
  (Z.to_nat (numClusters st) <= length (clusters st))%nat ->
  (Z.to_nat (numClusters st) <= length (lastUpdateTime st))%nat ->
  (forall (c : nat) cl last, (c < Z.to_nat (numClusters st))%nat ->
     clusters st !! c = Some cl -> lastUpdateTime st !! c = Some last ->
     notDue t last cl = true) ->
  updatePortfolioPattern rng t st k = Ok (st, k).
Proof.
  intros Hlc Hlt Hskip. unfold updatePortfolioPattern.
  destruct (Engine.for_loop_total (clusterStep rng t)
    (fun _ fr => fst (fst fr) = st /\ snd fr = k)
    (Z.to_nat (numClusters st)) 0 (st, 0, k)) as ([[s off] j] & Hrun & Hs & Hj).
  - split; reflexivity.
  - intros m [[s off] j] Hm [Hs Hj]. cbn [fst snd] in *. subst s j.
    destruct (lookup_lt_is_Some_2 (clusters st) m) as [cl Hcl]; [lia|].
    destruct (lookup_lt_is_Some_2 (lastUpdateTime st) m) as [last Hlast]; [lia|].
    unfold clusterStep, cluster_read. rewrite Z.add_0_l.
    destruct (Z.leb_spec 0 (Z.of_nat m)); [|lia].
    rewrite Nat2Z.id, Hcl, Hlast. cbn [bind].
    rewrite (Hskip m cl last Hm Hcl Hlast).
    eexists (_, _, _). split; [reflexivity|]. split; reflexivity.
  - rewrite Hrun. cbn [bind fst snd] in *. subst. reflexivity.
Qed.

Lemma replicate_zero_lookup (c : nat) last :
  replicate 6 0 !! c = Some last -> last = 0.
Proof. intros H. apply lookup_replicate in H. tauto. Qed.

End FirstUpdate.

(** X15. [setPortfolioMode] resets the timers to zero, not to the current
    time, and speeds are clamped to [10,500]: after a configuration with at
    least one cluster has been applied, a call of [updatePortfolioPattern]
    at a time below 10 ms changes nothing at all and draws no random
    number, and a call at a time from 500 ms on (below 2^32) that returns
    has processed every active cluster, whose timers all read that time. *)
Theorem first_update_after_configuration (json : string) (st st1 : State) (rng : Rng)
    (t : Z) (k : nat) :
  length (clusters st) = 6%nat -> length (lastUpdateTime st) = 6%nat ->
  setPortfolioMode json st = Ok st1 -> numClusters st1 <> 0 ->
  (0 <= t < 10 -> updatePortfolioPattern rng t st1 k = Ok (st1, k)) /\
  (500 <= t < ULONG_MODULUS ->
   forall st2 k2, updatePortfolioPattern rng t st1 k = Ok (st2, k2) ->
   forall c : nat, (c < Z.to_nat (numClusters st1))%nat ->
     lastUpdateTime st2 !! c = Some t).
Proof.
  intros Hlen Htim Hset Hnz.
  destruct (FirstUpdate.set_Ok_facts json st st1 Hset) as (Hc & Hn & _ & Hreset).
  destruct (Layout.parse_facts json st Hlen) as (Hl0 & Hn0 & Hcl0 & _ & _ & _ & Ht0).
  destruct Hreset as [Hzero _]; [congruence|].
  rewrite Ht0, (Layout.resetTimers_zero _ Htim) in Hzero.
  assert (Hspeed : forall (c : nat) cl, (c < Z.to_nat (numClusters st1))%nat ->
            clusters st1 !! c = Some cl -> 10 <= speed cl <= 500).
  { intros c cl Hlt Hcl. rewrite Forall_forall in Hcl0.
    destruct (Hcl0 cl) as (_ & _ & _ & Hs); [|exact Hs].
    apply list_elem_of_lookup. exists c. rewrite lookup_take_lt by lia. congruence. }
  unfold MAX_CLUSTERS in Hn0. split.
  - intros Ht. apply FirstUpdate.update_all_skipped.
    + rewrite Hc, Hl0. lia.
    + rewrite Hzero. cbn. lia.
    + intros c cl last Hlt Hcl Hlast. rewrite Hzero in Hlast.
      apply FirstUpdate.replicate_zero_lookup in Hlast. subst last.
      pose proof (Hspeed c cl Hlt Hcl) as Hs. unfold notDue, ULONG_MODULUS.
      rewrite Z.sub_0_r, !Z.mod_small by lia. apply Z.ltb_lt. lia.
  - intros Ht st2 k2 Hrun c Hlt.
    destruct (UpdateFacts.update_timers _ _ _ _ _ _ Hrun) as (_ & _ & Htimers).
    destruct (lookup_lt_is_Some_2 (clusters st1) c) as [cl Hcl]; [rewrite Hc, Hl0; lia|].
    assert (Hlast : lastUpdateTime st1 !! c = Some 0).
    { rewrite Hzero. apply lookup_replicate_2. lia. }
    rewrite (Htimers c cl 0 Hlt Hcl Hlast).
    pose proof (Hspeed c cl Hlt Hcl) as Hs.
    assert (Hdue : notDue t 0 cl = false).
    { unfold notDue, ULONG_MODULUS in *. rewrite Z.sub_0_r, !Z.mod_small by lia.
      apply Z.ltb_ge. lia. }
    rewrite Hdue. reflexivity.
Qed.

Lemma first_update_after_configuration_witness :
  length (clusters initial_state) = 6%nat /\
  length (lastUpdateTime initial_state) = 6%nat /\
  setPortfolioMode fitting_json initial_state = Ok fit_state /\
  numClusters fit_state <> 0 /\
  updatePortfolioPattern demo_rng 9 fit_state 0 = Ok (fit_state, 0%nat).
Proof.
  assert (H1 : length (clusters initial_state) = 6%nat) by reflexivity.
  assert (H2 : length (lastUpdateTime initial_state) = 6%nat) by reflexivity.
  assert (H3 : setPortfolioMode fitting_json initial_state = Ok fit_state)
    by (vm_compute; reflexivity).
  assert (H4 : numClusters fit_state <> 0) by (vm_compute; discriminate).
  destruct (first_update_after_configuration fitting_json initial_state fit_state
              demo_rng 9 0 H1 H2 H3 H4) as [Hearly _].
  split; [exact H1|]. split; [exact H2|]. split; [exact H3|]. split; [exact H4|].
  apply Hearly. lia.
Defined.

(** ** Malformed input *)

Module Malformed.
Import Render.

(** Where the scanning loop stops at once: no opening brace, an opening
    brace that is never closed, or a record of 256 bytes or more. *)
Definition stops_scan (tail : string) : Prop :=
  strchr tail "{" = None \/
  exists objStart,
    strchr tail "{" = Some objStart /\
    (strchr objStart "}" = None \/
     exists objEnd,
       strchr objStart "}" = Some objEnd /\ 256 <= strlen objStart - strlen objEnd + 1).

Lemma stops_scan_nothing tail slots :
  stops_scan tail -> Loader.scanRecords slots tail = [].
Proof.
  intros H. destruct slots as [|slots]; [reflexivity|]. cbn [Loader.scanRecords].
  destruct H as [->|(o & -> & [->|(e & -> & Hbig)])]; try reflexivity.
  destruct (Z.leb_spec 256 (strlen o - strlen e + 1)); [reflexivity|lia].
Qed.

Lemma scanRecords_rendered_then cls : forall slots tail,
  Forall listable cls -> stops_scan tail ->
  Loader.scanRecords slots (render_records cls ++ tail) = take slots cls.
Proof.
  induction cls as [|cl rest IH]; intros slots tail Hall Htail.
  - cbn [render_records append]. rewrite (stops_scan_nothing tail slots Htail).
    destruct slots; reflexivity.
  - apply Forall_cons in Hall. destruct Hall as [Hcl Hrest].
    destruct slots as [|slots]; [reflexivity|].
    cbn [render_records]. rewrite append_assoc, (scan_one slots cl _ Hcl).
    cbn [take]. f_equal. destruct rest as [|cl2 rest].
    + cbn [append]. rewrite (stops_scan_nothing tail slots Htail).
      destruct slots; reflexivity.
    + cbn [append]. rewrite scanRecords_skip_comma. apply IH; assumption.
Qed.

Lemma strstr_absent objBuf q needle :
  strchr objBuf q = None -> strstr objBuf (String q needle) = None.
Proof.
  intros H. apply strchr_all_chars in H.
  pose proof (strstr_skip_chars objBuf EmptyString q needle H) as Hs.
  assert (Hnil : (objBuf ++ EmptyString)%string = objBuf).
  { clear. induction objBuf as [|c s IH]; cbn; [reflexivity|]. now rewrite IH. }
  rewrite Hnil in Hs. rewrite Hs. reflexivity.
Qed.

End Malformed.

(** X16. The decoder keeps what it has read when the input turns bad:
    well-formed descriptors followed by text in which the scan stops (no
    further opening brace, an opening brace that is never closed, or a
    record of 256 bytes or more) are loaded, up to six of them, and nothing
    after the point where the scan stops is read. *)
Theorem decode_keeps_records_before_bad_input (cls : list ClusterData)
    (tail : string) (st : State) :
  length (clusters st) = 6%nat -> Forall Render.listable cls ->
  Malformed.stops_scan tail ->
  let st' := parseClusterData (String "[" (Render.render_records cls ++ tail)) st in
  numClusters st' = Z.of_nat (Nat.min 6 (length cls)) /\
  take (Z.to_nat (numClusters st')) (clusters st') = take 6 cls.
Proof.
  intros Hlen Hall Htail st'. subst st'.
  rewrite (Loader.parseClusterData_spec _ st Hlen).
  cbn [numClusters clusters].
  assert (Hrec : Loader.records (String "[" (Render.render_records cls ++ tail))
                 = take 6 cls).
  { unfold Loader.records.
    change (strchr (String "[" (Render.render_records cls ++ tail)) "[")
      with (Some (String "[" (Render.render_records cls ++ tail))).
    cbn [advance]. apply Malformed.scanRecords_rendered_then; assumption. }
  rewrite Hrec, length_take. split; [f_equal; lia|].
  rewrite Nat2Z.id, take_app_length'; [reflexivity|].
  rewrite length_take. lia.
Qed.

Lemma decode_keeps_records_before_bad_input_witness :
  length (clusters initial_state) = 6%nat /\ Forall Render.listable two_descriptors /\
  Malformed.stops_scan (json_of ",{'cluster_id':7,'pixels':5") /\
  numClusters (parseClusterData
                 (String "[" (Render.render_records two_descriptors
                              ++ json_of ",{'cluster_id':7,'pixels':5"))
                 initial_state) = 2.
Proof.
  assert (H1 : length (clusters initial_state) = 6%nat) by reflexivity.
  assert (H2 : Forall Render.listable two_descriptors).
  { repeat constructor; cbn; unfold INT_MIN, INT_MAX, TOTAL_PIXELS; lia. }
  assert (H3 : Malformed.stops_scan (json_of ",{'cluster_id':7,'pixels':5")).
  { right. eexists. split; [reflexivity|]. left. reflexivity. }
  destruct (decode_keeps_records_before_bad_input two_descriptors _ initial_state H1 H2 H3)
    as [Hn _].
  split; [exact H1|]. split; [exact H2|]. split; [exact H3|]. exact Hn.
Defined.

(** X17. Missing keys default to zero before clamping: a record text
    without any double quote (such as [{}]) has none of the keys, and
    [parseClusterData]'s record parser turns it into the descriptor with id
    0, no pixels, brightness 80, clustering strength 1, speed 10 and an empty
    symbol. *)
Theorem record_without_keys_gets_defaults (objBuf : string) :
  strchr objBuf dquote = None ->
  parseCluster objBuf = mkCluster 0 0 80 1 10 EmptyString.
Proof.
  intros H. unfold parseCluster, extractInt, extractString.
  change (searchStr_int "cluster_id")
    with (String dquote ("cluster_id" ++ String dquote (String ":" EmptyString))).
  change (searchStr_int "pixels")
    with (String dquote ("pixels" ++ String dquote (String ":" EmptyString))).
  change (searchStr_int "brightness")
    with (String dquote ("brightness" ++ String dquote (String ":" EmptyString))).
  change (searchStr_int "clustering")
    with (String dquote ("clustering" ++ String dquote (String ":" EmptyString))).
  change (searchStr_int "speed")
    with (String dquote ("speed" ++ String dquote (String ":" EmptyString))).
  change (searchStr_string "symbol")
    with (String dquote ("symbol" ++ String dquote (String ":" (String dquote EmptyString)))).
  rewrite !(Malformed.strstr_absent objBuf dquote _ H). reflexivity.
Qed.

Lemma record_without_keys_gets_defaults_witness :
  strchr "{ }" dquote = None /\
  parseCluster "{ }" = mkCluster 0 0 80 1 10 EmptyString.
Proof.
  assert (H : strchr "{ }" dquote = None) by reflexivity.
  split; [exact H|]. exact (record_without_keys_gets_defaults "{ }" H).
Defined.
